(** * slash-podcast: the dialogue-to-audio pipeline of [main.py]

    A shallow embedding of [generate_audio] and of what it calls
    ([DialogueItem.voice], [get_mp3], the nested [generate_dialogue], the
    temporary-file writer and the sweep of old [.mp3] files), followed by
    the properties of the pipeline.

    Conventions.
    - Python [str] is [string] (its characters are the code points below
      256); [bytes] is [list byte].
    - Every duration and timestamp is an integer number of milliseconds
      ([time.sleep(0.2)] is [time_sleep 200], tenacity's 4 s is 4000).
    - Everything outside the process (the speech service, the language
      model, the document readers, the wall clock, the random names of
      [tempfile], the failures of [os.remove]) is a field of [Env]: an
      oracle the code queries.  The mutable part of the outside world is
      [World]: the trace of effects so far and the listing of the
      temporary directory.
    - Code that need not terminate takes a [fuel]; [OutOfFuel] is the
      outcome of a run that is still going when the fuel is spent. *)

From Stdlib Require Import String Ascii List ZArith Lia Bool Arith Sorted.
From Stdlib Require Import Strings.Byte DecimalString.
Import ListNotations.
Open Scope string_scope.

(** ** Python strings *)

Module PyStr.

Definition nl : string := String "010"%char EmptyString.

(** [bool(s)]: only the empty string is falsy. *)
Definition truthy (s : string) : bool :=
  match s with EmptyString => false | String _ _ => true end.

(** [str.isspace] on one character, on the code points below 256:
    TAB..CR, FS..US, SPACE, NEL and NBSP. *)
Definition isspace (c : ascii) : bool :=
  let n := nat_of_ascii c in
  ((9 <=? n)%nat && (n <=? 13)%nat) || ((28 <=? n)%nat && (n <=? 32)%nat)
  || (n =? 133)%nat || (n =? 160)%nat.

Fixpoint lstrip (s : string) : string :=
  match s with
  | EmptyString => EmptyString
  | String c s' => if isspace c then lstrip s' else s
  end.

Fixpoint rstrip (s : string) : string :=
  match s with
  | EmptyString => EmptyString
  | String c s' =>
      match rstrip s' with
      | EmptyString => if isspace c then EmptyString else String c EmptyString
      | r => String c r
      end
  end.

(** [s.strip()] *)
Definition strip (s : string) : string := rstrip (lstrip s).

(** [s.startswith(p)] *)
Definition startswith (s p : string) : bool := prefix p s.

(** [sub in s] *)
Fixpoint contains (sub s : string) : bool :=
  prefix sub s
  || match s with
     | EmptyString => false
     | String _ s' => contains sub s'
     end.

(** [s.endswith(p)] *)
Definition endswith (s p : string) : bool :=
  let n := String.length s in
  let m := String.length p in
  (m <=? n)%nat && (substring (n - m) m s =? p)%string.

(** [sep.join(parts)] *)
Definition join (sep : string) (parts : list string) : string :=
  String.concat sep parts.

(** [a or b] on values that may be [None] or a string. *)
Definition or_ (a b : option string) : option string :=
  match a with
  | Some s => if truthy s then a else b
  | None => b
  end.

(** [bool(a)] for a value that may be [None] or a string. *)
Definition truthy_opt (a : option string) : bool :=
  match a with
  | Some s => truthy s
  | None => false
  end.

End PyStr.

Definition bytes := list byte.

(** ** Exceptions

    The classes the code names, and [OtherError] for every other subclass
    of [Exception].  [RetryError] is what tenacity raises when [stop] says
    so: it wraps the exception of the last attempt. *)

Inductive exn : Type :=
| RateLimitError (msg : string)
| ValidationError (msg : string)
| RetryError (last : exn)
| GrError (msg : string)
| OSError (msg : string)
| KeyError (key : string)
| OtherError (cls msg : string).

(** [isinstance(e, RateLimitError)] *)
Definition is_RateLimitError (e : exn) : bool :=
  match e with RateLimitError _ => true | _ => false end.

(** [isinstance(e, ValidationError)] *)
Definition is_ValidationError (e : exn) : bool :=
  match e with ValidationError _ => true | _ => false end.

(** The answer of a pure lookup or of an oracle: a value or an exception. *)
Inductive result (A : Type) : Type :=
| Ok (a : A)
| Err (e : exn).
Arguments Ok {A} a.
Arguments Err {A} e.

(** ** The dialogue model: [DialogueItem], [Dialogue] *)

(** [Literal["female-1", "male-1", "female-2"]] *)
Inductive Speaker : Type := female_1 | male_1 | female_2.

Definition speaker_value (s : Speaker) : string :=
  match s with
  | female_1 => "female-1"
  | male_1 => "male-1"
  | female_2 => "female-2"
  end.

Record DialogueItem : Type := mkItem {
  text : string;
  speaker : Speaker
}.

Record Dialogue : Type := mkDialogue {
  scratchpad : string;
  dialogue : list DialogueItem
}.

(** A dict literal with string keys, and [d[k]], which raises [KeyError]. *)
Definition dict := list (string * string).

Fixpoint dict_getitem (d : dict) (k : string) : result string :=
  match d with
  | [] => Err (KeyError k)
  | (k', v) :: d' => if (k =? k')%string then Ok v else dict_getitem d' k
  end.

Definition voice_table : dict :=
  [("female-1", "alloy"); ("male-1", "onyx"); ("female-2", "shimmer")].

(** [DialogueItem.voice] *)
Definition voice (item : DialogueItem) : result string :=
  dict_getitem voice_table (speaker_value (speaker item)).

(** ** The outside world *)

Inductive level : Type := LvInfo | LvError.

(** One entry per effect, in the order the effects happen. *)
Inductive event : Type :=
| EvLog (lvl : level) (msg : string)
| EvExtract (source : string)
| EvLlm (input : string)
| EvTts (input voice_id : string) (api_key : option string)
| EvSleep (ms : Z)
| EvClock
| EvCreate (name : string) (created : bool)
| EvWrite (name : string)
| EvRemove (name : string) (removed : bool).

(** An entry of [./gradio_cached_examples/tmp/]. *)
Record entry : Type := mkEntry {
  e_name : string;
  e_is_file : bool;
  e_mtime : Z;
  e_content : bytes
}.

Record World : Type := mkWorld {
  trace : list event;
  tmpdir : list entry
}.

Record Env : Type := mkEnv {
  (** [os.getenv("OPENAI_API_KEY")] *)
  env_OPENAI_API_KEY : option string;
  (** [os.path.abspath(path)], which depends on the working directory *)
  abspath : string -> string;
  (** [str(e)] *)
  exn_str : exn -> string;
  (** [extract_text_from_google_docs(url)] *)
  google_docs_text : string -> result string;
  (** opening the file and [page.extract_text()] of every page *)
  pdf_pages : string -> result (list string);
  (** the answer to the [n]-th call of the language model (from 0) *)
  llm_service : nat -> string -> result Dialogue;
  (** the answer to the [n]-th speech request (from 0): its chunks *)
  tts_service : nat -> string -> string -> option string -> result (list bytes);
  (** the wall clock after [n] effects, in milliseconds *)
  clock : nat -> Z;
  (** the random part of the temporary name drawn after [n] effects *)
  random_name : nat -> string;
  (** what [os.remove(name)] raises, if it raises *)
  remove_error : string -> option exn
}.

(** ** The monad of effects: state that survives an exception *)

Inductive outcome (A : Type) : Type :=
| Ret (a : A)
| Raise (e : exn)
| OutOfFuel.
Arguments Ret {A} a.
Arguments Raise {A} e.
Arguments OutOfFuel {A}.

Definition M (A : Type) : Type := World -> outcome A * World.

Definition ret {A} (a : A) : M A := fun w => (Ret a, w).

Definition raise {A} (e : exn) : M A := fun w => (Raise e, w).

Definition bind {A B} (m : M A) (k : A -> M B) : M B :=
  fun w =>
    match m w with
    | (Ret a, w') => k a w'
    | (Raise e, w') => (Raise e, w')
    | (OutOfFuel, w') => (OutOfFuel, w')
    end.

(** [try: body  except Exception as e: handler(e)] *)
Definition try_except {A} (body : M A) (handler : exn -> M A) : M A :=
  fun w =>
    match body w with
    | (Raise e, w') => handler e w'
    | r => r
    end.

Definition lift {A} (r : result A) : M A :=
  match r with
  | Ok a => ret a
  | Err e => raise e
  end.

Declare Scope py_scope.
Delimit Scope py_scope with py.
Notation "x <- m ;; k" := (bind m (fun x => k))
  (at level 61, m at next level, right associativity) : py_scope.
Notation "m ;;; k" := (bind m (fun _ => k))
  (at level 61, right associativity) : py_scope.
Open Scope py_scope.

Definition add_event (ev : event) (w : World) : World :=
  {| trace := trace w ++ [ev]; tmpdir := tmpdir w |}.

Definition emit (ev : event) : M unit := fun w => (Ret tt, add_event ev w).

Definition logger_info (msg : string) : M unit := emit (EvLog LvInfo msg).
Definition logger_error (msg : string) : M unit := emit (EvLog LvError msg).

(** [time.sleep(ms / 1000)] *)
Definition time_sleep (ms : Z) : M unit := emit (EvSleep ms).

Definition is_tts (ev : event) : bool :=
  match ev with EvTts _ _ _ => true | _ => false end.

Definition is_llm (ev : event) : bool :=
  match ev with EvLlm _ => true | _ => false end.

(** The number of speech requests, and of model calls, in a trace. *)
Definition count_tts (tr : list event) : nat := length (filter is_tts tr).
Definition count_llm (tr : list event) : nat := length (filter is_llm tr).

(** The durations slept in a trace, in order. *)
Fixpoint sleeps (tr : list event) : list Z :=
  match tr with
  | [] => []
  | EvSleep ms :: tr' => ms :: sleeps tr'
  | _ :: tr' => sleeps tr'
  end.

(** ** tenacity's [retry] *)

Record retry_policy : Type := mkPolicy {
  (** [retry=]: is the exception of the attempt one to retry on? *)
  retry_if : exn -> bool;
  (** [wait=]: the pause after attempt [n] (from 1), in milliseconds *)
  wait : nat -> Z;
  (** [stop=]: give up after attempt [n]? *)
  stop : nat -> bool
}.

(** [wait_exponential(multiplier, min, max)], arguments in seconds:
    [max(max(0, min), min(multiplier * 2 ** (attempt - 1), max))]. *)
Definition wait_exponential (multiplier min_ max_ : Z) (attempt : nat) : Z :=
  1000 * Z.max (Z.max 0 min_)
               (Z.min (multiplier * 2 ^ (Z.of_nat attempt - 1)) max_).

(** [stop_after_attempt(n)] *)
Definition stop_after_attempt (n : nat) (attempt : nat) : bool :=
  (n <=? attempt)%nat.

(** [stop_never], the default of [retry] *)
Definition stop_never (attempt : nat) : bool := false.

(** [wait_none()], the default of [retry] *)
Definition wait_none (attempt : nat) : Z := 0.

(** The loop of [Retrying.__call__]: call, and on an exception either
    re-raise it ([retry] says no), raise [RetryError] ([stop] says yes), or
    sleep and call again with the attempt number increased. *)
Fixpoint retrying {A} (fuel : nat) (p : retry_policy) (attempt : nat)
    (fn : M A) : M A :=
  match fuel with
  | O => fun w => (OutOfFuel, w)
  | S fuel' =>
      fun w =>
        match fn w with
        | (Raise e, w1) =>
            if retry_if p e then
              if stop p attempt then (Raise (RetryError e), w1)
              else retrying fuel' p (S attempt) fn
                     (snd (time_sleep (wait p attempt) w1))
            else (Raise e, w1)
        | r => r
        end
  end.

(** ** The pipeline *)

Section Pipeline.

Variable env : Env.

(** *** The speech synthesizer: [get_mp3] *)

(** [api_key or os.getenv("OPENAI_API_KEY")] *)
Definition effective_key (api_key : option string) : option string :=
  PyStr.or_ api_key (env_OPENAI_API_KEY env).

(** The body of [get_mp3]: one call of the client's
    [audio.speech...create] (whatever the client does inside that call),
    whose chunks are written to a buffer and returned as one value. *)
Definition speech_request (text_ voice_ : string) (api_key : option string)
  : M bytes :=
  fun w =>
    let key := effective_key api_key in
    let w' := add_event (EvTts text_ voice_ key) w in
    match tts_service env (count_tts (trace w)) text_ voice_ key with
    | Ok chunks => (Ret (concat chunks), w')
    | Err e => (Raise e, w')
    end.

(** The decorator of [get_mp3]. *)
Definition max_attempts : nat := 5.

Definition get_mp3_policy : retry_policy :=
  {| retry_if := is_RateLimitError;
     wait := wait_exponential 1 4 60;
     stop := stop_after_attempt max_attempts |}.

Definition get_mp3 (text_ voice_ : string) (api_key : option string)
  : M bytes :=
  retrying max_attempts get_mp3_policy 1 (speech_request text_ voice_ api_key).

(** *** The loop over the lines of the dialogue *)

(** The three local variables of the loop. *)
Record acc : Type := mkAcc {
  audio : bytes;
  transcript : string;
  characters : nat
}.

Definition failure_marker : string := " [AUDIO GENERATION FAILED]".

(** The pause between two requests, [time.sleep(0.2)]. *)
Definition request_delay : Z := 200.

Definition empty_acc : acc :=
  {| audio := []; transcript := ""; characters := 0 |}.

Definition transcript_line (line : DialogueItem) : string :=
  speaker_value (speaker line) ++ ": " ++ text line.

(** The body of the [for] loop. *)
Definition process_line (api_key : option string) (st : acc)
    (line : DialogueItem) : M acc :=
  logger_info ("Generating audio for: " ++ speaker_value (speaker line)) ;;;
  try_except
    (voice_ <- lift (voice line) ;;
     audio_chunk <- get_mp3 (text line) voice_ api_key ;;
     let st' :=
       {| audio := (audio st ++ audio_chunk)%list;
          transcript :=
            transcript st ++ (transcript_line line ++ PyStr.nl ++ PyStr.nl);
          characters := characters st + String.length (text line) |} in
     time_sleep request_delay ;;;
     ret st')
    (fun e =>
       logger_error ("Error generating audio for "
                     ++ speaker_value (speaker line) ++ ": " ++ exn_str env e) ;;;
       ret {| audio := audio st;
              transcript :=
                transcript st
                ++ (transcript_line line ++ failure_marker
                    ++ PyStr.nl ++ PyStr.nl);
              characters := characters st |}).

Fixpoint synthesize_lines (api_key : option string)
    (lines : list DialogueItem) (st : acc) : M acc :=
  match lines with
  | [] => ret st
  | line :: rest =>
      st' <- process_line api_key st line ;;
      synthesize_lines api_key rest st'
  end.

(** *** The document source *)

Definition is_google_docs_url (s : string) : bool :=
  (PyStr.startswith s "http://" || PyStr.startswith s "https://")
  && PyStr.contains "docs.google.com" s.

Definition read_document (file_or_url : string) : M string :=
  if is_google_docs_url file_or_url then
    try_except
      (logger_info ("Processing Google Docs URL: " ++ file_or_url) ;;;
       emit (EvExtract file_or_url) ;;;
       text_ <- lift (google_docs_text env file_or_url) ;;
       if negb (PyStr.truthy (PyStr.strip text_)) then
         raise (GrError "No text content found in the Google Docs document")
       else ret text_)
      (fun e =>
         logger_error ("Error processing Google Docs: " ++ exn_str env e) ;;;
         raise (GrError ("Failed to process Google Docs: " ++ exn_str env e)))
  else
    try_except
      (emit (EvExtract file_or_url) ;;;
       pages <- lift (pdf_pages env file_or_url) ;;
       let text_ := PyStr.join (PyStr.nl ++ PyStr.nl) pages in
       if negb (PyStr.truthy (PyStr.strip text_)) then
         raise (GrError "No text content found in the PDF")
       else ret text_)
      (fun e =>
         logger_error ("Error processing PDF: " ++ exn_str env e) ;;;
         raise (GrError ("Failed to process PDF: " ++ exn_str env e))).

(** *** The dialogue generator: [generate_dialogue] *)

(** One call of the function that [@llm] builds: the model answers and
    the answer is validated against [Dialogue]. *)
Definition llm_call (text_ : string) : M Dialogue :=
  fun w =>
    let w' := add_event (EvLlm text_) w in
    match llm_service env (count_llm (trace w)) text_ with
    | Ok d => (Ret d, w')
    | Err e => (Raise e, w')
    end.

(** [@retry(retry=retry_if_exception_type(ValidationError))]: [wait] and
    [stop] are tenacity's defaults. *)
Definition generate_dialogue_policy : retry_policy :=
  {| retry_if := is_ValidationError;
     wait := wait_none;
     stop := stop_never |}.

Definition generate_dialogue (fuel : nat) (text_ : string) : M Dialogue :=
  retrying fuel generate_dialogue_policy 1 (llm_call text_).

(** *** The temporary file and the sweep *)

Definition temporary_directory : string := "./gradio_cached_examples/tmp/".

(** [24 * 60 * 60] seconds. *)
Definition retention : Z := 24 * 60 * 60 * 1000.

(** [tempfile.TMP_MAX] *)
Definition TMP_MAX : nat := 100 * 100.

Definition has_name (nm : string) (e : entry) : bool := (e_name e =? nm)%string.

Definition find_entry (nm : string) (d : list entry) : option entry :=
  find (has_name nm) d.

Definition time_time : M Z :=
  fun w => (Ret (clock env (length (trace w))), add_event EvClock w).

(** [tempfile._mkstemp_inner]: draw names until one is new in the
    directory, and create that file (empty) exclusively. *)
Fixpoint mkstemp_inner (tries : nat) (pre suf : string) : M string :=
  match tries with
  | O => raise (OSError "No usable temporary file name found")
  | S tries' =>
      fun w =>
        let nm := pre ++ random_name env (length (trace w)) ++ suf in
        if existsb (has_name nm) (tmpdir w) then
          mkstemp_inner tries' pre suf (add_event (EvCreate nm false) w)
        else
          (Ret nm,
           {| trace := trace w ++ [EvCreate nm true];
              tmpdir := tmpdir w
                        ++ [{| e_name := nm; e_is_file := true;
                               e_mtime := clock env (length (trace w));
                               e_content := [] |}] |})
  end.

(** [f.write(data); f.close()] on the file named [nm]. *)
Definition file_write (nm : string) (data : bytes) : M unit :=
  fun w =>
    (Ret tt,
     {| trace := trace w ++ [EvWrite nm];
        tmpdir :=
          map (fun e =>
                 if has_name nm e then
                   {| e_name := e_name e; e_is_file := e_is_file e;
                      e_mtime := clock env (length (trace w));
                      e_content := (e_content e ++ data)%list |}
                 else e)
              (tmpdir w) |}).

(** [os.makedirs(exist_ok=True)] changes nothing in the listing: an
    absent directory and an empty one list the same.  Then
    [NamedTemporaryFile(dir=..., delete=False, suffix=".mp3")],
    [write] and [close]. *)
Definition write_artifact (data : bytes) : M string :=
  nm <- mkstemp_inner TMP_MAX "tmp" ".mp3" ;;
  file_write nm data ;;;
  ret nm.

(** Which names [glob] matches against [*.mp3] (on a file system
    where case matters): those that end in [.mp3], except the hidden
    ones (a leading dot), which [*] skips. *)
Definition glob_match_mp3 (nm : string) : bool :=
  negb (PyStr.startswith nm ".") && PyStr.endswith nm ".mp3".

(** [glob.glob(f"{temporary_directory}*.mp3")].  The paths it returns
    are kept as names in the directory, and so are the arguments of
    [os.path.isfile], [os.path.getmtime] and [os.remove]. *)
Definition glob_mp3 : M (list string) :=
  fun w =>
    (Ret (map e_name (filter (fun e => glob_match_mp3 (e_name e)) (tmpdir w))),
     w).

Definition os_path_isfile (nm : string) : M bool :=
  fun w =>
    (Ret match find_entry nm (tmpdir w) with
         | Some e => e_is_file e
         | None => false
         end,
     w).

Definition os_path_getmtime (nm : string) : M Z :=
  fun w =>
    match find_entry nm (tmpdir w) with
    | Some e => (Ret (e_mtime e), w)
    | None => (Raise (OSError "No such file or directory"), w)
    end.

(** The listing without the entry named [file]. *)
Definition without (file : string) (d : list entry) : list entry :=
  filter (fun e => negb (has_name file e)) d.

Definition os_remove (nm : string) : M unit :=
  fun w =>
    match remove_error env nm with
    | Some e => (Raise e, add_event (EvRemove nm false) w)
    | None =>
        if existsb (has_name nm) (tmpdir w) then
          (Ret tt,
           {| trace := trace w ++ [EvRemove nm true];
              tmpdir := without nm (tmpdir w) |})
        else
          (Raise (OSError "No such file or directory"),
           add_event (EvRemove nm false) w)
    end.

(** The body of the loop over the result of [glob]. *)
Definition sweep_file (file : string) : M unit :=
  isfile <- os_path_isfile file ;;
  if isfile then
    now <- time_time ;;
    mtime <- os_path_getmtime file ;;
    if (now - mtime >? retention)%Z then os_remove file else ret tt
  else ret tt.

Fixpoint sweep_files (files : list string) : M unit :=
  match files with
  | [] => ret tt
  | file :: rest =>
      sweep_file file ;;;
      sweep_files rest
  end.

Definition sweep : M unit :=
  files <- glob_mp3 ;;
  sweep_files files.

(** *** [generate_audio] *)

Definition str_of_nat (n : nat) : string :=
  NilEmpty.string_of_uint (Nat.to_uint n).

(** From the document to the audio and the transcript (up to the
    [logger.info] after the loop). *)
Definition produce (fuel : nat) (file_or_url : string)
    (openai_api_key : option string) : M acc :=
  text_ <- read_document file_or_url ;;
  llm_output <- generate_dialogue fuel text_ ;;
  st <- synthesize_lines openai_api_key (dialogue llm_output) empty_acc ;;
  logger_info ("Generated " ++ str_of_nat (characters st)
               ++ " characters of audio") ;;;
  ret st.

(** [temporary_file.name]: [tempfile] joins the absolute path of the
    directory and the name it drew. *)
Definition temporary_file_name (nm : string) : string :=
  abspath env temporary_directory ++ "/" ++ nm.

(** From the audio to the returned pair: the temporary file, then the
    sweep. *)
Definition persist (st : acc) : M (string * string) :=
  nm <- write_artifact (audio st) ;;
  sweep ;;;
  ret (temporary_file_name nm, transcript st).

Definition generate_audio (fuel : nat) (file_or_url : string)
    (openai_api_key : option string) : M (string * string) :=
  if negb (PyStr.truthy_opt
             (PyStr.or_ (env_OPENAI_API_KEY env) openai_api_key)) then
    raise (GrError "OpenAI API key is required")
  else
    st <- produce fuel file_or_url openai_api_key ;;
    persist st.

End Pipeline.

(** ** Observing a run *)

(** The world after more effects, the directory untouched. *)
Definition extend (w : World) (evs : list event) : World :=
  {| trace := trace w ++ evs; tmpdir := tmpdir w |}.

(** The effects [get_mp3] can have: a request, or a pause of tenacity's,
    which lies between the minimum and the ceiling of [wait_exponential]. *)
Definition backoff_event (ev : event) : Prop :=
  match ev with
  | EvTts _ _ _ => True
  | EvSleep ms => (4000 <= ms <= 60000)%Z
  | _ => False
  end.

(** A computation that only adds effects to the trace. *)
Definition only_traces {A} (m : M A) : Prop :=
  forall w, exists evs, snd (m w) = extend w evs.

(** A string of whitespace only (the empty string is one). *)
Definition whitespace_only (s : string) : bool :=
  forallb PyStr.isspace (list_ascii_of_string s).

(** The strings of a list one after another. *)
Definition join_all (l : list string) : string := fold_right append "" l.

Section Observations.

Variable env : Env.

(** The text the document source gives for [file_or_url]: that of the
    Google Docs document, or the pages of the PDF joined by blank lines. *)
Definition document_text (file_or_url : string) : result string :=
  if is_google_docs_url file_or_url then google_docs_text env file_or_url
  else
    match pdf_pages env file_or_url with
    | Ok pages => Ok (PyStr.join (PyStr.nl ++ PyStr.nl) pages)
    | Err e => Err e
    end.

(** A line up to the end of its synthesis: the [logger.info], then
    [get_mp3(line.text, line.voice, openai_api_key)]. *)
Definition line_synthesis (api_key : option string) (line : DialogueItem)
  : M bytes :=
  logger_info ("Generating audio for: " ++ speaker_value (speaker line)) ;;;
  voice_ <- lift (voice line) ;;
  get_mp3 env (text line) voice_ api_key.

(** The world in which the loop goes on to the next line. *)
Definition world_after_line (api_key : option string) (line : DialogueItem)
    (w : World) : World :=
  snd (process_line env api_key empty_acc line w).

(** How the synthesis of each line ended, in the order of the lines. *)
Fixpoint line_outcomes (api_key : option string) (lines : list DialogueItem)
    (w : World) : list (outcome bytes) :=
  match lines with
  | [] => []
  | line :: rest =>
      fst (line_synthesis api_key line w)
      :: line_outcomes api_key rest (world_after_line api_key line w)
  end.

(** The bytes a synthesis gave: none when it failed. *)
Definition payload (o : outcome bytes) : bytes :=
  match o with
  | Ret b => b
  | _ => []
  end.

(** The record of a line in the transcript, given how its synthesis ended. *)
Definition transcript_record (line : DialogueItem) (o : outcome bytes)
  : string :=
  match o with
  | Ret _ => transcript_line line ++ PyStr.nl ++ PyStr.nl
  | _ => transcript_line line ++ failure_marker ++ PyStr.nl ++ PyStr.nl
  end.

Fixpoint transcript_records (lines : list DialogueItem)
    (outs : list (outcome bytes)) : list string :=
  match lines, outs with
  | line :: lines', o :: outs' =>
      transcript_record line o :: transcript_records lines' outs'
  | _, _ => []
  end.

(** The characters counted for a line: those of a synthesized one. *)
Definition counted (line : DialogueItem) (o : outcome bytes) : nat :=
  match o with
  | Ret _ => String.length (text line)
  | _ => 0
  end.

Fixpoint counted_characters (lines : list DialogueItem)
    (outs : list (outcome bytes)) : nat :=
  match lines, outs with
  | line :: lines', o :: outs' =>
      counted line o + counted_characters lines' outs'
  | _, _ => 0
  end.

End Observations.

(** ** The entry point of the form: [generate_audio_from_inputs] *)

(** What the file component hands over: an object with a [name].  Such an
    object is truthy; no upload is [None]. *)
Record UploadedFile : Type := mkUpload {
  file_name : string
}.

Section Inputs.

Variable env : Env.

Definition generate_audio_from_inputs (fuel : nat)
    (pdf_file : option UploadedFile) (google_docs_url : option string)
    (openai_api_key : option string) : M (string * string) :=
  let otherwise :=
    match pdf_file with
    | Some f => generate_audio env fuel (file_name f) openai_api_key
    | None =>
        raise (GrError "Please provide either a PDF file or a Google Docs URL")
    end in
  match google_docs_url with
  | Some u =>
      if PyStr.truthy u && PyStr.truthy (PyStr.strip u) then
        generate_audio env fuel (PyStr.strip u) openai_api_key
      else otherwise
  | None => otherwise
  end.

End Inputs.

(** ** More to observe in a run *)

(** The sum of a list of durations. *)
Definition total (l : list Z) : Z := fold_right Z.add 0%Z l.

(** A computation whose effects are added at the end of the trace. *)
Definition appends {A} (m : M A) : Prop :=
  forall w, exists evs, trace (snd (m w)) = (trace w ++ evs)%list.

(** The effects of the synthesis of one text: requests for that text,
    voice and key, and pauses of the backoff. *)
Definition request_or_pause (t v : string) (k : option string) (ev : event)
  : Prop :=
  ev = EvTts t v k \/ exists ms, ev = EvSleep ms /\ (4000 <= ms <= 60000)%Z.

(** The effects of the loop over [lines]: log entries, pauses, and
    requests, each for the text of a line with the voice of its speaker. *)
Definition loop_event (lines : list DialogueItem) (k : option string)
    (ev : event) : Prop :=
  match ev with
  | EvLog _ _ => True
  | EvSleep _ => True
  | EvTts t v k' =>
      k' = k /\ exists line, In line lines /\ text line = t /\ voice line = Ok v
  | _ => False
  end.

(** The words [generate_audio] puts before the error of the document
    source, and its own error for a document without text. *)
Definition failure_prefix (file_or_url : string) : string :=
  if is_google_docs_url file_or_url then "Failed to process Google Docs: "
  else "Failed to process PDF: ".

Definition no_text_error (file_or_url : string) : exn :=
  if is_google_docs_url file_or_url
  then GrError "No text content found in the Google Docs document"
  else GrError "No text content found in the PDF".

(** A field of the form left empty: [None], or nothing but whitespace. *)
Definition blank (field : option string) : bool :=
  match field with
  | None => true
  | Some u => whitespace_only u
  end.

(** ** [google_docs.py]

    The Google libraries (credentials, OAuth flow, Docs service) are the
    oracles of [Google]; what the module reads and writes on disk
    ([token.json], the credentials file) is [files], and [calls] is the
    trace of what it asked of the libraries and logged. *)

Module GoogleDocs.

(** *** Document identifiers: [extract_doc_id_from_url] *)

(** The class [[a-zA-Z0-9-_]]: letters, digits, hyphen, underscore. *)
Definition is_id_char (c : ascii) : bool :=
  let n := nat_of_ascii c in
  ((97 <=? n)%nat && (n <=? 122)%nat) || ((65 <=? n)%nat && (n <=? 90)%nat)
  || ((48 <=? n)%nat && (n <=? 57)%nat) || (n =? 45)%nat || (n =? 95)%nat.

(** The longest run of the class at the start of [s], and what follows. *)
Fixpoint span_id (s : string) : string * string :=
  match s with
  | EmptyString => (EmptyString, EmptyString)
  | String c s' =>
      if is_id_char c then
        let (run, rest) := span_id s' in (String c run, rest)
      else (EmptyString, s)
  end.

(** [s] without [lit] at its start, when it starts with [lit]. *)
Fixpoint strip_prefix (lit s : string) : option string :=
  match lit with
  | EmptyString => Some s
  | String a lit' =>
      match s with
      | EmptyString => None
      | String b s' => if Ascii.eqb a b then strip_prefix lit' s' else None
      end
  end.

(** The regular expression [literal([a-zA-Z0-9-_]+)trailer], where
    [trailer] is empty or starts outside the class (as in all four
    expressions of the source): a match takes the whole run, since
    giving back a character of it would leave a character of the class
    where the trailer has to start. *)
Record pattern : Type := mkPattern {
  literal : string;
  trailer : string
}.

(** Group 1 of a match that starts at the first character of [s]. *)
Definition match_here (p : pattern) (s : string) : option string :=
  match strip_prefix (literal p) s with
  | Some after =>
      let (run, rest) := span_id after in
      if PyStr.truthy run && prefix (trailer p) rest then Some run else None
  | None => None
  end.

(** [re.search(p, s)]: group 1 of the leftmost match. *)
Fixpoint re_search (p : pattern) (s : string) : option string :=
  match match_here p s with
  | Some g => Some g
  | None =>
      match s with
      | EmptyString => None
      | String _ s' => re_search p s'
      end
  end.

Definition patterns : list pattern :=
  [mkPattern "/document/d/" "";
   mkPattern "/document/d/" "/edit";
   mkPattern "/document/d/" "/view";
   mkPattern "id=" ""].

(** The loop over the expressions: the first that matches decides. *)
Fixpoint first_match (ps : list pattern) (url : string) : option string :=
  match ps with
  | [] => None
  | p :: ps' =>
      match re_search p url with
      | Some g => Some g
      | None => first_match ps' url
      end
  end.

(** [re.match(r'^[a-zA-Z0-9-_]+$', url)]: [$] also matches just before
    a newline that ends the string. *)
Definition is_bare_id (url : string) : bool :=
  let (run, rest) := span_id url in
  PyStr.truthy run && ((rest =? "")%string || (rest =? PyStr.nl)%string).

Definition extract_doc_id_from_url (url : string) : option string :=
  match first_match patterns url with
  | Some g => Some g
  | None => if is_bare_id url then Some url else None
  end.

(** *** The text of a document *)

(** The parts of the answer of the Docs service that the code reads.
    A key that may be absent is an [option]. *)
Record TextRun : Type := mkTextRun {
  run_content : option string          (** ["content"] *)
}.

Record ParagraphElement : Type := mkParagraphElement {
  textRun : option TextRun             (** ["textRun"] *)
}.

Record Paragraph : Type := mkParagraph {
  elements : option (list ParagraphElement)   (** ["elements"] *)
}.

Record StructuralElement : Type := mkStructuralElement {
  paragraph : option Paragraph         (** ["paragraph"] *)
}.

Record Body : Type := mkBody {
  content : option (list StructuralElement)   (** ["content"] *)
}.

Record Document : Type := mkDocument {
  body : option Body                   (** ["body"] *)
}.

(** The loop of [_extract_text_from_paragraph]. *)
Fixpoint paragraph_loop (els : list ParagraphElement)
    (text_parts : list string) : result (list string) :=
  match els with
  | [] => Ok text_parts
  | el :: rest =>
      match textRun el with
      | Some run =>
          match run_content run with
          | Some c => paragraph_loop rest (text_parts ++ [c])
          | None => Err (KeyError "content")
          end
      | None => paragraph_loop rest text_parts
      end
  end.

Definition _extract_text_from_paragraph (p : Paragraph) : result string :=
  match
    match elements p with
    | Some els => paragraph_loop els []
    | None => Ok []
    end
  with
  | Ok text_parts => Ok (PyStr.join "" text_parts)
  | Err e => Err e
  end.

(** The loop of [_extract_text_from_document]. *)
Fixpoint document_loop (els : list StructuralElement)
    (text_parts : list string) : result (list string) :=
  match els with
  | [] => Ok text_parts
  | el :: rest =>
      match paragraph el with
      | Some p =>
          match _extract_text_from_paragraph p with
          | Ok t => document_loop rest (text_parts ++ [t])
          | Err e => Err e
          end
      | None => document_loop rest text_parts
      end
  end.

Definition _extract_text_from_document (d : Document) : result string :=
  match
    match body d with
    | Some b =>
        match content b with
        | Some els => document_loop els []
        | None => Ok []
        end
    | None => Ok []
    end
  with
  | Ok text_parts => Ok (PyStr.join (PyStr.nl ++ PyStr.nl) text_parts)
  | Err e => Err e
  end.

(** *** Credentials, disk and libraries *)

(** What the code reads of a [Credentials] object. *)
Record Credentials : Type := mkCredentials {
  valid : bool;
  expired : bool;
  refresh_token : option string
}.

Inductive glevel : Type := INFO | WARNING | ERROR.

Inductive gevent : Type :=
| GLog (lvl : glevel) (msg : string)
| GRefresh
| GBuild
| GAuthorizationUrl
| GFetchToken (code : string)
| GDocumentsGet (doc_id : string)
| GWrite (path : string).

Record State : Type := mkState {
  files : list (string * string);
  calls : list gevent
}.

Record Google : Type := mkGoogle {
  (** [Credentials.from_authorized_user_file], on the text of the file *)
  from_authorized_user_file : string -> result Credentials;
  (** [creds.refresh(Request())]: the credentials afterwards *)
  refresh : Credentials -> result Credentials;
  (** what [build('docs', 'v1', credentials=creds)] raises, if it raises *)
  build_error : Credentials -> option exn;
  (** [service.documents().get(documentId=doc_id).execute()] *)
  documents_get : Credentials -> string -> result Document;
  (** what [Flow.from_client_secrets_file] raises, if it raises, on the
      text of the file and the redirect address *)
  flow_error : string -> string -> option exn;
  (** [flow.authorization_url(...)[0]] *)
  authorization_url : string -> string -> string;
  (** [flow.fetch_token(code=code)]: the credentials of the flow afterwards *)
  fetch_token : string -> string -> string -> result Credentials;
  (** [creds.to_json()] *)
  to_json : Credentials -> string;
  (** [str(e)] for an exception of a library *)
  library_str : exn -> string
}.

(** The exceptions the code makes itself, each from one string. *)
Definition FileNotFoundError (msg : string) : exn :=
  OtherError "FileNotFoundError" msg.
Definition Exception (msg : string) : exn := OtherError "Exception" msg.
Definition ValueError (msg : string) : exn := OtherError "ValueError" msg.

(** [isinstance(e, HttpError)] *)
Definition is_HttpError (e : exn) : bool :=
  match e with
  | OtherError cls _ => (cls =? "HttpError")%string
  | _ => false
  end.

(** [str(e)]: the string a built-in exception was made from, the key
    of a [KeyError] in quotes, and the word of the library otherwise. *)
Definition str (g : Google) (e : exn) : string :=
  match e with
  | OtherError cls msg =>
      if ((cls =? "Exception") || (cls =? "ValueError")
          || (cls =? "FileNotFoundError"))%string
      then msg
      else library_str g e
  | KeyError k => "'" ++ k ++ "'"
  | _ => library_str g e
  end.

(** *** The monad of the module *)

Definition G (A : Type) : Type := State -> result A * State.

Definition gret {A} (a : A) : G A := fun s => (Ok a, s).

Definition graise {A} (e : exn) : G A := fun s => (Err e, s).

Definition gbind {A B} (m : G A) (k : A -> G B) : G B :=
  fun s =>
    match m s with
    | (Ok a, s') => k a s'
    | (Err e, s') => (Err e, s')
    end.

(** [try: body  except Exception as e: handler(e)] *)
Definition gtry {A} (body : G A) (handler : exn -> G A) : G A :=
  fun s =>
    match body s with
    | (Err e, s') => handler e s'
    | r => r
    end.

Definition glift {A} (r : result A) : G A :=
  match r with
  | Ok a => gret a
  | Err e => graise e
  end.

Declare Scope g_scope.
Delimit Scope g_scope with g.
Notation "x <- m ;; k" := (gbind m (fun x => k))
  (at level 61, m at next level, right associativity) : g_scope.
Notation "m ;;; k" := (gbind m (fun _ => k))
  (at level 61, right associativity) : g_scope.
Local Open Scope g_scope.

Definition call (ev : gevent) : G unit :=
  fun s => (Ok tt, {| files := files s; calls := calls s ++ [ev] |}).

Definition logger (lvl : glevel) (msg : string) : G unit := call (GLog lvl msg).

(** The text of the file at [path], if there is one. *)
Fixpoint file_text (path : string) (fs : list (string * string))
  : option string :=
  match fs with
  | [] => None
  | (p, t) :: fs' => if (p =? path)%string then Some t else file_text path fs'
  end.

Definition os_path_exists (path : string) : G bool :=
  fun s =>
    (Ok match file_text path (files s) with Some _ => true | None => false end,
     s).

(** [open(path).read()], for the libraries that read a file. *)
Definition read_file (path : string) : G string :=
  fun s =>
    match file_text path (files s) with
    | Some t => (Ok t, s)
    | None => (Err (FileNotFoundError path), s)
    end.

(** [with open(path, 'w') as f: f.write(text)] *)
Definition write_file (path text_ : string) : G unit :=
  fun s =>
    (Ok tt,
     {| files :=
          (path, text_)
          :: filter (fun pt => negb (fst pt =? path)%string) (files s);
        calls := calls s ++ [GWrite path] |}).

(** *** [GoogleDocsClient] *)

Record Client : Type := mkClient {
  credentials_path : string;
  redirect_uri : string;
  (** [self.service]: the credentials the service was built with *)
  service : option Credentials
}.

(** [a or default] for an optional string argument. *)
Definition or_default (a : option string) (default : string) : string :=
  match a with
  | Some s => if PyStr.truthy s then s else default
  | None => default
  end.

Section Client.

Variable g : Google.

(** [self.service = build(...)] and the [logger.info] after it. *)
Definition build_service (self : Client) (creds : Credentials) : G Client :=
  match build_error g creds with
  | Some e => graise e
  | None =>
      call GBuild ;;;
      logger INFO "Successfully authenticated with Google Docs API" ;;;
      gret {| credentials_path := credentials_path self;
              redirect_uri := redirect_uri self;
              service := Some creds |}
  end.

Definition _authenticate (self : Client) : G Client :=
  has_token <- os_path_exists "token.json" ;;
  creds <- (if has_token then
              t <- read_file "token.json" ;;
              c <- glift (from_authorized_user_file g t) ;;
              gret (Some c)
            else gret None) ;;
  let not_authenticated : G Credentials :=
    has_credentials <- os_path_exists (credentials_path self) ;;
    if negb has_credentials then
      graise (FileNotFoundError
                ("Credentials file '" ++ credentials_path self
                 ++ "' not found. "
                 ++ "Please download it from Google Cloud Console."))
    else
      graise (Exception
                ("OAuth authentication required. "
                 ++ "Please use the web interface to authenticate.")) in
  creds <- match creds with
           | Some c =>
               if valid c then gret c
               else if expired c && PyStr.truthy_opt (refresh_token c) then
                 call GRefresh ;;;
                 glift (refresh g c)
               else not_authenticated
           | None => not_authenticated
           end ;;
  build_service self creds.

(** [GoogleDocsClient(credentials_path, redirect_uri)] *)
Definition new_client (path uri : option string) : G Client :=
  _authenticate
    {| credentials_path := or_default path "credentials.json";
       redirect_uri := or_default uri "http://localhost:7860/oauth2callback";
       service := None |}.

(** [Flow.from_client_secrets_file(self.credentials_path, ...)], after
    the test that the file exists; the text of the file comes back. *)
Definition client_flow (self : Client) : G string :=
  has_credentials <- os_path_exists (credentials_path self) ;;
  if negb has_credentials then
    graise (FileNotFoundError
              ("Credentials file '" ++ credentials_path self ++ "' not found."))
  else
    secrets <- read_file (credentials_path self) ;;
    match flow_error g secrets (redirect_uri self) with
    | Some e => graise e
    | None => gret secrets
    end.

Definition create_oauth_url (self : Client) : G string :=
  secrets <- client_flow self ;;
  call GAuthorizationUrl ;;;
  gret (authorization_url g secrets (redirect_uri self)).

Definition exchange_code_for_token (self : Client)
    (authorization_code : string) : G Client :=
  secrets <- client_flow self ;;
  call (GFetchToken authorization_code) ;;;
  creds <- glift (fetch_token g secrets (redirect_uri self)
                    authorization_code) ;;
  write_file "token.json" (to_json g creds) ;;;
  build_service self creds.

Definition get_document_text (self : Client) (doc_id : string) : G string :=
  match service self with
  | None => graise (OtherError "AttributeError"
                      "'NoneType' object has no attribute 'documents'")
  | Some creds =>
      call (GDocumentsGet doc_id) ;;;
      match documents_get g creds doc_id with
      | Ok document => glift (_extract_text_from_document document)
      | Err e =>
          if is_HttpError e then
            logger ERROR ("Error fetching document " ++ doc_id ++ ": "
                          ++ str g e) ;;;
            graise e
          else graise e
      end
  end.

Definition get_recent_documents (self : Client) (max_results : nat)
  : G (list Document) :=
  logger WARNING "Getting recent documents requires Drive API scope" ;;;
  gret [].

(** *** The functions of the module *)

Definition extract_text_from_google_docs (url_or_id : string)
    (path : option string) : G string :=
  gtry
    (client <- new_client path None ;;
     match extract_doc_id_from_url url_or_id with
     | None =>
         graise (ValueError ("Could not extract document ID from: "
                             ++ url_or_id))
     | Some doc_id =>
         if PyStr.truthy doc_id then get_document_text client doc_id
         else graise (ValueError ("Could not extract document ID from: "
                                  ++ url_or_id))
     end)
    (fun e =>
       if PyStr.contains "OAuth authentication required" (str g e) then
         graise (Exception
                   ("Google Docs authentication required. "
                    ++ "Please authenticate first using the web interface."))
       else graise e).

Definition create_google_oauth_url (path : option string) : G string :=
  client <- new_client path None ;;
  create_oauth_url client.

Definition authenticate_google_docs (authorization_code : string)
    (path : option string) : G unit :=
  client <- new_client path None ;;
  exchange_code_for_token client authorization_code ;;;
  gret tt.

End Client.

(** *** To state what these compute *)

(** A string of the class only. *)
Definition is_id (s : string) : bool :=
  forallb is_id_char (list_ascii_of_string s).

(** A string at which a run of the class has to stop: the empty
    string, or one that starts outside the class. *)
Definition stops_id (rest : string) : bool :=
  match rest with
  | EmptyString => true
  | String c _ => negb (is_id_char c)
  end.

(** The text runs of a paragraph, and whether each has its text. *)
Definition text_runs (p : Paragraph) : list TextRun :=
  flat_map (fun el => match textRun el with Some r => [r] | None => [] end)
    (match elements p with Some els => els | None => [] end).

Definition run_text (r : TextRun) : string :=
  match run_content r with Some c => c | None => "" end.

Definition has_text (r : TextRun) : bool :=
  match run_content r with Some _ => true | None => false end.

(** The paragraphs of a document. *)
Definition paragraphs (d : Document) : list Paragraph :=
  flat_map (fun el => match paragraph el with Some p => [p] | None => [] end)
    (match body d with
     | Some b => match content b with Some els => els | None => [] end
     | None => []
     end).

Definition paragraph_text (p : Paragraph) : string :=
  join_all (map run_text (text_runs p)).

(** The credentials [_authenticate] builds the service with, when the
    disk and the libraries let it: those of [token.json] when valid,
    those after a refresh when expired with a refresh token. *)
Definition usable_credentials (g : Google) (s : State) : option Credentials :=
  match file_text "token.json" (files s) with
  | None => None
  | Some t =>
      match from_authorized_user_file g t with
      | Err _ => None
      | Ok c =>
          if valid c then Some c
          else if expired c && PyStr.truthy_opt (refresh_token c) then
            match refresh g c with
            | Ok c' => Some c'
            | Err _ => None
            end
          else None
      end
  end.

(** The state after the calls [evs] have been made. *)
Definition logged (s : State) (evs : list gevent) : State :=
  {| files := files s; calls := calls s ++ evs |}.

(** The calls of a client that is made with credentials that needed
    ([true]) or did not need a refresh. *)
Definition authentication_calls (refreshed : bool) : list gevent :=
  (if refreshed then [GRefresh] else [])
  ++ [GBuild; GLog INFO "Successfully authenticated with Google Docs API"].

(** What [_authenticate] raises when there are no credentials to use,
    for a client whose credentials file is at [path]. *)
Definition not_authenticated_error (path : string) (s : State) : exn :=
  match file_text path (files s) with
  | Some _ =>
      Exception ("OAuth authentication required. "
                 ++ "Please use the web interface to authenticate.")
  | None =>
      FileNotFoundError ("Credentials file '" ++ path ++ "' not found. "
                         ++ "Please download it from Google Cloud Console.")
  end.

(** What [extract_text_from_google_docs] raises in place of an
    exception whose text has "OAuth authentication required". *)
Definition authentication_required : exn :=
  Exception ("Google Docs authentication required. "
             ++ "Please authenticate first using the web interface.").

(** What [extract_text_from_google_docs] raises, called without a
    path, when there are no credentials to use. *)
Definition reader_refusal (s : State) : exn :=
  match file_text "credentials.json" (files s) with
  | Some _ => authentication_required
  | None =>
      FileNotFoundError ("Credentials file 'credentials.json' not found. "
                         ++ "Please download it from Google Cloud Console.")
  end.

(** Every text run of the document has its text. *)
Definition well_formed (d : Document) : bool :=
  forallb (fun p => forallb has_text (text_runs p)) (paragraphs d).

(** No text run of the document holds more than whitespace. *)
Definition textless (d : Document) : bool :=
  forallb (fun p => forallb (fun r => whitespace_only (run_text r)) (text_runs p))
    (paragraphs d).

End GoogleDocs.

(** ** The Google Docs functions of [main.py]

    A character of a literal of the source that lies beyond U+00FF
    stands here as its UTF-8 bytes; the code only concatenates these
    literals. *)

Module Main.

Import GoogleDocs.
Local Open Scope g_scope.

(** The dictionaries [oauth_callback] answers with. *)
Inductive response : Type :=
| error_response (error : string)
| success_response (message : string).

Section Wrappers.

Variable g : Google.

Definition oauth_callback (code error : option string) : G response :=
  if PyStr.truthy_opt error then
    gret (error_response (match error with Some s => s | None => "" end))
  else
    match code with
    | Some c =>
        if PyStr.truthy c then
          gtry
            (authenticate_google_docs g c None ;;;
             gret (success_response
                     ("Successfully authenticated with Google Docs! "
                      ++ "You can now close this window and return to "
                      ++ "the main application.")))
            (fun e =>
               gret (error_response ("Authentication failed: " ++ str g e)))
        else gret (error_response "No authorization code received")
    | None => gret (error_response "No authorization code received")
    end.

Definition check_google_auth_status : G string :=
  gtry
    (new_client g None None ;;;
     gret "✅ Authenticated with Google Docs")
    (fun e =>
       if PyStr.contains "OAuth authentication required" (str g e)
          || PyStr.contains "Credentials file" (str g e)
       then gret "❌ Not authenticated with Google Docs"
       else gret ("❌ Error: " ++ str g e)).

Definition get_google_auth_url : G string :=
  gtry
    (auth_url <- create_google_oauth_url g None ;;
     gret (PyStr.nl
           ++ "        🔗 **Click the link below to authenticate with Google Docs:**"
           ++ PyStr.nl
           ++ "        " ++ PyStr.nl
           ++ "        [**Authenticate with Google Docs**](" ++ auth_url ++ ")"
           ++ PyStr.nl
           ++ "        " ++ PyStr.nl
           ++ "        After clicking, you'll be redirected to Google's authorization page. "
           ++ PyStr.nl
           ++ "        Once you authorize, you'll be redirected back to this application."
           ++ PyStr.nl
           ++ "        "))
    (fun e => gret ("❌ Error creating auth URL: " ++ str g e)).

Definition handle_google_auth_callback (auth_code : string) : G string :=
  gtry
    (authenticate_google_docs g auth_code None ;;;
     gret "✅ Successfully authenticated with Google Docs!")
    (fun e => gret ("❌ Authentication failed: " ++ str g e)).

End Wrappers.

(** [extract_text_from_google_docs] as the document source of
    [generate_audio], on the disk and the libraries at hand. *)
Definition with_google_docs (env : Env) (g : Google) (s : State) : Env :=
  {| env_OPENAI_API_KEY := env_OPENAI_API_KEY env;
     abspath := abspath env;
     exn_str := exn_str env;
     google_docs_text :=
       fun url => fst (extract_text_from_google_docs g url None s);
     pdf_pages := pdf_pages env;
     llm_service := llm_service env;
     tts_service := tts_service env;
     clock := clock env;
     random_name := random_name env;
     remove_error := remove_error env |}.

End Main.

(** ** Scenarios

    Concrete environments and worlds on which the properties below are
    run: one fixture, and the oracle that differs written out. *)

Module Scenario.

Definition script : Dialogue :=
  {| scratchpad := "Open with the tide tables, close on the moon.";
     dialogue := [mkItem "Welcome to the show." female_1;
                  mkItem "Glad to be here." male_1] |}.

Definition mp3_frame : bytes := [x49; x44; x33].

(** An environment from the four oracles the scenarios vary.  The key
    is in the process environment, the clock stands at 200 000 s and
    [tempfile] draws the same name every time. *)
Definition fixture
    (pages : string -> result (list string))
    (llm : nat -> string -> result Dialogue)
    (tts : nat -> string -> string -> option string -> result (list bytes))
    (rm : string -> option exn) : Env :=
  {| env_OPENAI_API_KEY := Some "sk-test";
     abspath := fun _ => "/srv/podcast/gradio_cached_examples/tmp";
     exn_str := fun _ => "error";
     google_docs_text := fun _ => Ok "Notes on tides.";
     pdf_pages := pages;
     llm_service := llm;
     tts_service := tts;
     clock := fun _ => 200000000%Z;
     random_name := fun _ => "k3v9x2qa";
     remove_error := rm |}.

Definition pages_ok (path : string) : result (list string) :=
  Ok ["Notes on tides."; "Spring and neap."].
Definition llm_ok (n : nat) (t : string) : result Dialogue := Ok script.
Definition tts_ok (n : nat) (t v : string) (k : option string)
  : result (list bytes) := Ok [mp3_frame].
Definition rm_ok (nm : string) : option exn := None.

(** Everything works. *)
Definition healthy : Env := fixture pages_ok llm_ok tts_ok rm_ok.

(** The speech service answers every request with HTTP 429. *)
Definition rate_limited : Env :=
  fixture pages_ok llm_ok
    (fun _ _ _ _ => Err (RateLimitError "Error code: 429")) rm_ok.

(** The speech service rejects the second request. *)
Definition second_rejected : Env :=
  fixture pages_ok llm_ok
    (fun n _ _ _ =>
       match n with
       | 1 => Err (OtherError "BadRequestError" "Error code: 400")
       | _ => Ok [mp3_frame]
       end)
    rm_ok.

(** The speech service rejects every request. *)
Definition rejecting : Env :=
  fixture pages_ok llm_ok
    (fun _ _ _ _ => Err (OtherError "BadRequestError" "Error code: 400"))
    rm_ok.

(** The model never answers with a valid [Dialogue]. *)
Definition never_valid : Env :=
  fixture pages_ok
    (fun _ _ => Err (ValidationError "1 validation error for Dialogue"))
    tts_ok rm_ok.

(** The model answers with a valid [Dialogue] at the third call. *)
Definition valid_at_third : Env :=
  fixture pages_ok
    (fun n _ =>
       match n with
       | 0 | 1 => Err (ValidationError "1 validation error for Dialogue")
       | _ => Ok script
       end)
    tts_ok rm_ok.

(** The PDF has two pages without text. *)
Definition blank_pdf : Env :=
  fixture (fun _ => Ok ["  "; ""]) llm_ok tts_ok rm_ok.

(** [a.mp3] cannot be removed. *)
Definition locked : Env :=
  fixture pages_ok llm_ok tts_ok
    (fun nm =>
       if (nm =? "a.mp3")%string
       then Some (OSError "[Errno 13] Permission denied")
       else None).

Definition nothing : World := {| trace := []; tmpdir := [] |}.

(** Two files written at time 0 and one written a second ago. *)
Definition stale : World :=
  {| trace := [];
     tmpdir := [mkEntry "a.mp3" true 0 mp3_frame;
                mkEntry "b.mp3" true 0 mp3_frame;
                mkEntry "c.mp3" true 199999000 mp3_frame] |}.

End Scenario.

(** ** Scenarios with Google Docs

    A disk, a Google account and two documents on which the properties
    of the Google Docs functions are run. *)

Module DocsScenario.

Import GoogleDocs.

(** No file can be opened as a PDF. *)
Definition unreadable : Env :=
  Scenario.fixture
    (fun _ => Err (OtherError "FileNotFoundError"
                     "[Errno 2] No such file or directory"))
    Scenario.llm_ok Scenario.tts_ok Scenario.rm_ok.

(** A directory with an old artifact, old notes, an old hidden file
    and an old directory named like an artifact. *)
Definition cluttered : World :=
  {| trace := [];
     tmpdir := [mkEntry "a.mp3" true 0 Scenario.mp3_frame;
                mkEntry "notes.txt" true 0 [];
                mkEntry ".cache.mp3" true 0 Scenario.mp3_frame;
                mkEntry "old.mp3" false 0 []] |}.

Definition upload : UploadedFile := {| file_name := "/tmp/gradio/tides.pdf" |}.

Definition account : Credentials :=
  {| valid := true; expired := false; refresh_token := Some "1//0g" |}.

Definition run (t : string) : ParagraphElement :=
  {| textRun := Some {| run_content := Some t |} |}.

(** Two paragraphs around a table. *)
Definition tides : Document :=
  {| body :=
       Some {| content :=
                 Some [ {| paragraph :=
                             Some {| elements :=
                                       Some [run "Tides ";
                                             {| textRun := None |};
                                             run ("and the moon" ++ PyStr.nl)] |} |};
                        {| paragraph := None |};
                        {| paragraph :=
                             Some {| elements :=
                                       Some [run ("Spring and neap." ++ PyStr.nl)] |} |} ] |} |}.

(** A document of empty lines. *)
Definition empty_lines : Document :=
  {| body :=
       Some {| content :=
                 Some [ {| paragraph :=
                             Some {| elements := Some [run PyStr.nl] |} |};
                        {| paragraph :=
                             Some {| elements := Some [run (" " ++ PyStr.nl)] |} |} ] |} |}.

Definition google : Google :=
  {| from_authorized_user_file :=
       fun t => if (t =? "{token}")%string then Ok account
                else Err (ValueError "Invalid token file");
     refresh := fun c => Ok c;
     build_error := fun _ => None;
     documents_get :=
       fun _ doc_id =>
         if (doc_id =? "1AbC-d_9")%string then Ok tides
         else if (doc_id =? "0Empty")%string then Ok empty_lines
         else Err (OtherError "HttpError" "404 Not Found");
     flow_error := fun _ _ => None;
     authorization_url :=
       fun _ uri => "https://accounts.google.com/o/oauth2/auth?redirect_uri=" ++ uri;
     fetch_token :=
       fun _ _ code => if (code =? "4/0AX4")%string then Ok account
                       else Err (OtherError "InvalidGrantError" "Bad Request");
     to_json := fun _ => "{token}";
     library_str := fun e => match e with OtherError _ m => m | _ => "" end |}.

(** The disk of someone who has the client secrets and has never
    authenticated, and the disk of someone who has. *)
Definition newcomer : State :=
  {| files := [("credentials.json", "{secrets}")]; calls := [] |}.

Definition signed_in : State :=
  {| files := [("credentials.json", "{secrets}"); ("token.json", "{token}")];
     calls := [] |}.

End DocsScenario.

(** * Properties *)

(** ** Strings, traces and worlds *)

Lemma append_assoc (a b c : string) : (a ++ b) ++ c = a ++ (b ++ c).
Proof. induction a as [|ch a IH]; simpl; [reflexivity | now rewrite IH]. Qed.

Lemma append_empty_r (a : string) : a ++ "" = a.
Proof. induction a as [|ch a IH]; simpl; [reflexivity | now rewrite IH]. Qed.

Lemma length_append (a b : string) :
  String.length (a ++ b) = String.length a + String.length b.
Proof. induction a as [|ch a IH]; simpl; [reflexivity | now rewrite IH]. Qed.

Lemma count_tts_app (l1 l2 : list event) :
  count_tts (l1 ++ l2) = count_tts l1 + count_tts l2.
Proof. unfold count_tts. now rewrite filter_app, length_app. Qed.

Lemma count_llm_app (l1 l2 : list event) :
  count_llm (l1 ++ l2) = count_llm l1 + count_llm l2.
Proof. unfold count_llm. now rewrite filter_app, length_app. Qed.

Lemma sleeps_app (l1 l2 : list event) : sleeps (l1 ++ l2) = (sleeps l1 ++ sleeps l2)%list.
Proof.
  induction l1 as [|ev l1 IH]; simpl; [reflexivity|].
  destruct ev; simpl; now rewrite IH.
Qed.

Lemma extend_nil (w : World) : extend w [] = w.
Proof. destruct w; unfold extend; simpl. now rewrite app_nil_r. Qed.

Lemma extend_extend (w : World) (l1 l2 : list event) :
  extend (extend w l1) l2 = extend w (l1 ++ l2).
Proof. unfold extend; simpl. now rewrite app_assoc. Qed.

Lemma add_event_extend (w : World) (ev : event) : add_event ev w = extend w [ev].
Proof. reflexivity. Qed.

(** ** The retry loop, one attempt at a time *)

Section RetrySteps.

Context {A : Type} (p : retry_policy) (fn : M A).

Lemma retrying_ret fuel attempt w a w1 :
  fn w = (Ret a, w1) ->
  retrying (S fuel) p attempt fn w = (Ret a, w1).
Proof. intros H; simpl; now rewrite H. Qed.

Lemma retrying_raise fuel attempt w e w1 :
  fn w = (Raise e, w1) -> retry_if p e = false ->
  retrying (S fuel) p attempt fn w = (Raise e, w1).
Proof. intros H Hr; simpl; now rewrite H, Hr. Qed.

Lemma retrying_stop fuel attempt w e w1 :
  fn w = (Raise e, w1) -> retry_if p e = true -> stop p attempt = true ->
  retrying (S fuel) p attempt fn w = (Raise (RetryError e), w1).
Proof. intros H Hr Hs; simpl; now rewrite H, Hr, Hs. Qed.

Lemma retrying_again fuel attempt w e w1 :
  fn w = (Raise e, w1) -> retry_if p e = true -> stop p attempt = false ->
  retrying (S fuel) p attempt fn w
  = retrying fuel p (S attempt) fn (extend w1 [EvSleep (wait p attempt)]).
Proof. intros H Hr Hs; simpl; now rewrite H, Hr, Hs. Qed.

End RetrySteps.

(** ** [wait_exponential(multiplier=1, min=4, max=60)] *)

Lemma wait_exponential_bounds (attempt : nat) :
  (4000 <= wait_exponential 1 4 60 attempt <= 60000)%Z.
Proof.
  unfold wait_exponential.
  generalize (2 ^ (Z.of_nat attempt - 1))%Z; intros z; lia.
Qed.

Lemma wait_exponential_mono (n m : nat) :
  n <= m ->
  (wait_exponential 1 4 60 n <= wait_exponential 1 4 60 m)%Z.
Proof.
  intros Hnm; unfold wait_exponential.
  assert (H : (2 ^ (Z.of_nat n - 1) <= 2 ^ (Z.of_nat m - 1))%Z).
  { destruct n as [|n].
    - simpl. apply Z.pow_nonneg; lia.
    - apply Z.pow_le_mono_r; lia. }
  revert H.
  generalize (2 ^ (Z.of_nat n - 1))%Z, (2 ^ (Z.of_nat m - 1))%Z; intros a b H; lia.
Qed.

(** ** The speaker's voice *)

Lemma voice_ok (line : DialogueItem) : exists v, voice line = Ok v.
Proof. destruct line as [t []]; eexists; reflexivity. Qed.

(** C9: [DialogueItem.voice] is total on the three speakers and depends on
    nothing but the speaker: every item resolves to one voice of the
    table (no [KeyError]), no other voice is a result of the same lookup,
    and any item with the same speaker resolves to the same voice.  The
    lookup reads no state: [voice] takes neither the world nor the
    environment. *)
Theorem voice_total_and_stable :
  forall item : DialogueItem,
    exists v : string,
      voice item = Ok v
      /\ In v ["alloy"; "onyx"; "shimmer"]
      /\ (forall v', voice item = Ok v' -> v' = v)
      /\ (forall item', speaker item' = speaker item -> voice item' = Ok v).
Proof.
  intros [t s].
  destruct s; eexists; (split; [reflexivity|]); simpl;
    (split; [tauto|]);
    (split; [intros v' H; now inversion H|]);
    intros [t' s'] H; simpl in H; subst s'; reflexivity.
Qed.

Section SynthesizerProperties.

Variable env : Env.

Lemma speech_request_raise t v k w e :
  tts_service env (count_tts (trace w)) t v (effective_key env k) = Err e ->
  speech_request env t v k w = (Raise e, extend w [EvTts t v (effective_key env k)]).
Proof. intros H; unfold speech_request; now rewrite H. Qed.

Lemma speech_request_world t v k w :
  snd (speech_request env t v k w) = extend w [EvTts t v (effective_key env k)].
Proof. unfold speech_request. now destruct (tts_service env _ t v _). Qed.

Lemma speech_request_total t v k w :
  fst (speech_request env t v k w) <> OutOfFuel.
Proof. unfold speech_request. now destruct (tts_service env _ t v _). Qed.

(** C4: an error of the speech request that is not a [RateLimitError]
    leaves [get_mp3] at once: the same exception is raised (no
    [RetryError]), and the only effect is that one request (no pause, no
    second request).  The same holds at whichever attempt the error
    comes. *)
Theorem get_mp3_no_retry_on_other_error :
  forall (t v : string) (k : option string) (w : World) (e : exn),
    tts_service env (count_tts (trace w)) t v (effective_key env k) = Err e ->
    is_RateLimitError e = false ->
    get_mp3 env t v k w = (Raise e, extend w [EvTts t v (effective_key env k)])
    /\ forall fuel attempt,
         retrying (S fuel) get_mp3_policy attempt (speech_request env t v k) w
         = (Raise e, extend w [EvTts t v (effective_key env k)]).
Proof.
  intros t v k w e Htts He.
  assert (G : forall fuel attempt,
             retrying (S fuel) get_mp3_policy attempt (speech_request env t v k) w
             = (Raise e, extend w [EvTts t v (effective_key env k)])).
  { intros fuel attempt.
    apply retrying_raise; [now apply speech_request_raise | exact He]. }
  split; [apply G | exact G].
Qed.

(** Under a rate limit that lasts, the loop of [get_mp3] at attempt
    [max_attempts - n] makes the [n + 1] requests that are left, pausing
    after each but the last, and raises [RetryError]. *)
Lemma retrying_rate_limited t v k :
  forall (n attempt : nat) (w : World),
    attempt + n = max_attempts ->
    (forall j, j <= n ->
       exists m, tts_service env (count_tts (trace w) + j) t v (effective_key env k)
                 = Err (RateLimitError m)) ->
    exists m evs,
      retrying (S n) get_mp3_policy attempt (speech_request env t v k) w
      = (Raise (RetryError (RateLimitError m)), extend w evs)
      /\ count_tts evs = S n
      /\ sleeps evs = map (wait_exponential 1 4 60) (seq attempt n).
Proof.
  induction n as [|n IH]; intros attempt w Hn H.
  - destruct (H 0) as [m Hm]; [lia|]. rewrite Nat.add_0_r in Hm.
    exists m, [EvTts t v (effective_key env k)].
    split; [|split; reflexivity].
    apply retrying_stop; [now apply speech_request_raise | reflexivity |].
    change (stop get_mp3_policy attempt) with (max_attempts <=? attempt)%nat.
    apply Nat.leb_le; lia.
  - destruct (H 0) as [m0 Hm0]; [lia|]. rewrite Nat.add_0_r in Hm0.
    rewrite (retrying_again _ _ _ _ _ _ _ (speech_request_raise _ _ _ _ _ Hm0));
      [| reflexivity
       | change (stop get_mp3_policy attempt) with (max_attempts <=? attempt)%nat;
         apply Nat.leb_gt; lia].
    rewrite extend_extend.
    destruct (IH (S attempt)
                (extend w ([EvTts t v (effective_key env k)]
                           ++ [EvSleep (wait get_mp3_policy attempt)])))
      as (m & evs & Hrun & Hcount & Hsleeps); [lia | |].
    + intros j Hj. destruct (H (S j)) as [m Hm]; [lia|].
      exists m. rewrite <- Hm. f_equal.
      unfold extend; simpl trace. rewrite count_tts_app.
      match goal with
      | |- context [count_tts [?a; ?b]] => change (count_tts [a; b]) with 1
      end.
      lia.
    + exists m.
      exists ([EvTts t v (effective_key env k)] ++ [EvSleep (wait get_mp3_policy attempt)] ++ evs)%list.
      rewrite Hrun, extend_extend. split; [now rewrite <- app_assoc|].
      split.
      * simpl. unfold count_tts in *. simpl. now rewrite Hcount.
      * simpl. now rewrite Hsleeps.
Qed.

(** [get_mp3] always ends, whatever the service answers: it needs no
    more fuel than [max_attempts].  Its effects are requests and pauses
    of the backoff, and it leaves the directory alone. *)
Lemma retrying_get_mp3_run t v k :
  forall (fuel attempt : nat) (w : World),
    attempt <= max_attempts -> max_attempts < attempt + fuel ->
    exists evs,
      snd (retrying fuel get_mp3_policy attempt (speech_request env t v k) w)
      = extend w evs
      /\ Forall backoff_event evs
      /\ fst (retrying fuel get_mp3_policy attempt (speech_request env t v k) w)
         <> OutOfFuel.
Proof.
  induction fuel as [|fuel IH]; intros attempt w Hle Hlt; [lia|].
  pose proof (speech_request_world t v k w) as Hw.
  pose proof (speech_request_total t v k w) as Ht.
  destruct (speech_request env t v k w) as [[b|e|] w1] eqn:E;
    simpl in Hw, Ht; subst w1; [| |contradiction].
  - rewrite (retrying_ret _ _ _ _ _ _ _ E).
    exists [EvTts t v (effective_key env k)].
    split; [reflexivity|]. split; [repeat constructor | discriminate].
  - destruct (retry_if get_mp3_policy e) eqn:Hr.
    + destruct (stop get_mp3_policy attempt) eqn:Hs.
      * rewrite (retrying_stop _ _ _ _ _ _ _ E Hr Hs).
        exists [EvTts t v (effective_key env k)].
        split; [reflexivity|]. split; [repeat constructor | discriminate].
      * rewrite (retrying_again _ _ _ _ _ _ _ E Hr Hs), extend_extend.
        change (stop get_mp3_policy attempt)
          with (max_attempts <=? attempt)%nat in Hs.
        apply Nat.leb_gt in Hs.
        match goal with
        | |- context [retrying fuel _ _ _ (extend w ?l)] =>
            destruct (IH (S attempt) (extend w l))
              as (evs & Hsnd & Hall & Hfst); [lia | lia |];
            exists (l ++ evs)%list
        end.
        rewrite Hsnd, extend_extend. split; [reflexivity|].
        split; [|exact Hfst].
        constructor; [exact I|]. constructor; [|exact Hall].
        apply wait_exponential_bounds.
    + rewrite (retrying_raise _ _ _ _ _ _ _ E Hr).
      exists [EvTts t v (effective_key env k)].
      split; [reflexivity|]. split; [repeat constructor | discriminate].
Qed.

Lemma get_mp3_run t v k w :
  exists evs,
    snd (get_mp3 env t v k w) = extend w evs
    /\ Forall backoff_event evs
    /\ fst (get_mp3 env t v k w) <> OutOfFuel.
Proof. apply retrying_get_mp3_run; unfold max_attempts; lia. Qed.

(** More fuel than [max_attempts] changes nothing. *)
Lemma retrying_get_mp3_fuel t v k :
  forall (fuel extra attempt : nat) (w : World),
    attempt <= max_attempts -> max_attempts < attempt + fuel ->
    retrying (fuel + extra) get_mp3_policy attempt (speech_request env t v k) w
    = retrying fuel get_mp3_policy attempt (speech_request env t v k) w.
Proof.
  induction fuel as [|fuel IH]; intros extra attempt w Hle Hlt; [lia|].
  change (S fuel + extra) with (S (fuel + extra)).
  destruct (speech_request env t v k w) as [[b|e|] w1] eqn:E.
  - now rewrite !(retrying_ret _ _ _ _ _ _ _ E).
  - destruct (retry_if get_mp3_policy e) eqn:Hr.
    + destruct (stop get_mp3_policy attempt) eqn:Hs.
      * now rewrite !(retrying_stop _ _ _ _ _ _ _ E Hr Hs).
      * rewrite !(retrying_again _ _ _ _ _ _ _ E Hr Hs).
        change (stop get_mp3_policy attempt)
          with (max_attempts <=? attempt)%nat in Hs.
        apply Nat.leb_gt in Hs. apply IH; lia.
    + now rewrite !(retrying_raise _ _ _ _ _ _ _ E Hr).
  - simpl. now rewrite E.
Qed.

End SynthesizerProperties.

(** ** The loop over the lines *)

Section OrchestratorProperties.

Variable env : Env.

(** The body of the loop, by how the synthesis of the line ends. *)
Lemma process_line_cases key st line w :
  process_line env key st line w
  = match line_synthesis env key line w with
    | (Ret b, w1) =>
        (Ret {| audio := (audio st ++ b)%list;
                transcript :=
                  transcript st
                  ++ (transcript_line line ++ PyStr.nl ++ PyStr.nl);
                characters := characters st + String.length (text line) |},
         extend w1 [EvSleep request_delay])
    | (Raise e, w1) =>
        (Ret {| audio := audio st;
                transcript :=
                  transcript st
                  ++ (transcript_line line ++ failure_marker
                      ++ PyStr.nl ++ PyStr.nl);
                characters := characters st |},
         extend w1 [EvLog LvError
                      ("Error generating audio for "
                       ++ speaker_value (speaker line) ++ ": "
                       ++ exn_str env e)])
    | (OutOfFuel, w1) => (OutOfFuel, w1)
    end.
Proof.
  unfold process_line, line_synthesis, bind, try_except, logger_info,
    logger_error, time_sleep, emit, lift, ret, raise.
  destruct (voice_ok line) as [v Hv]. rewrite Hv.
  destruct (get_mp3 env (text line) v key _) as [[b|e|] w1]; reflexivity.
Qed.

(** The synthesis of a line always ends; its effects are the
    [logger.info], requests and pauses of the backoff. *)
Lemma line_synthesis_run key line w :
  exists evs,
    snd (line_synthesis env key line w)
    = extend w (EvLog LvInfo ("Generating audio for: "
                              ++ speaker_value (speaker line)) :: evs)
    /\ Forall backoff_event evs
    /\ fst (line_synthesis env key line w) <> OutOfFuel.
Proof.
  unfold line_synthesis, bind, logger_info, emit, lift, ret.
  destruct (voice_ok line) as [v Hv]. rewrite Hv.
  destruct (get_mp3_run env (text line) v key
              (add_event (EvLog LvInfo ("Generating audio for: "
                                        ++ speaker_value (speaker line))) w))
    as (evs & Hsnd & Hall & Hfst).
  exists evs.
  destruct (get_mp3 env (text line) v key _) as [[b|e|] w1];
    simpl in *; subst w1;
    (split; [rewrite add_event_extend, extend_extend; reflexivity|]);
    (split; [exact Hall|]); congruence.
Qed.

Lemma world_after_line_any key st line w :
  snd (process_line env key st line w) = world_after_line env key line w.
Proof.
  unfold world_after_line. rewrite !process_line_cases.
  destruct (line_synthesis env key line w) as [[b|e|] w1]; reflexivity.
Qed.

Lemma line_outcomes_length key lines :
  forall w, length (line_outcomes env key lines w) = length lines.
Proof. induction lines as [|l ls IH]; intros w; simpl; [reflexivity | now rewrite IH]. Qed.

Lemma transcript_records_length lines :
  forall outs, length outs = length lines ->
               length (transcript_records lines outs) = length lines.
Proof.
  induction lines as [|l ls IH]; intros [|o outs] H; simpl in *;
    try reflexivity; try discriminate.
  now rewrite IH by congruence.
Qed.

(** What the loop computes from any start of the three variables. *)
Lemma synthesize_lines_spec key :
  forall lines st w,
    exists w',
      synthesize_lines env key lines st w
      = (Ret {| audio :=
                  (audio st
                   ++ concat (map payload (line_outcomes env key lines w)))%list;
                transcript :=
                  transcript st
                  ++ join_all (transcript_records lines
                                 (line_outcomes env key lines w));
                characters :=
                  characters st
                  + counted_characters lines (line_outcomes env key lines w) |},
         w').
Proof.
  induction lines as [|line rest IH]; intros st w.
  - exists w. simpl. unfold ret.
    destruct st; simpl. now rewrite app_nil_r, append_empty_r, Nat.add_0_r.
  - simpl. unfold bind.
    rewrite <- (world_after_line_any key st line w).
    destruct (line_synthesis_run key line w) as (evs & _ & _ & Htot).
    rewrite process_line_cases.
    destruct (line_synthesis env key line w) as [[b|e|] w1];
      simpl in Htot; [| |contradiction].
    + simpl snd.
      destruct (IH {| audio := (audio st ++ b)%list;
                      transcript :=
                        transcript st
                        ++ (transcript_line line ++ PyStr.nl ++ PyStr.nl);
                      characters := characters st + String.length (text line) |}
                  (extend w1 [EvSleep request_delay])) as [w' Hw'].
      exists w'. rewrite Hw'. simpl.
      now rewrite <- app_assoc, !append_assoc, Nat.add_assoc.
    + simpl snd.
      destruct (IH {| audio := audio st;
                      transcript :=
                        transcript st
                        ++ (transcript_line line ++ failure_marker
                            ++ PyStr.nl ++ PyStr.nl);
                      characters := characters st |}
                  (extend w1 [EvLog LvError
                                ("Error generating audio for "
                                 ++ speaker_value (speaker line) ++ ": "
                                 ++ exn_str env e)])) as [w' Hw'].
      exists w'. rewrite Hw'. simpl.
      now rewrite !append_assoc.
Qed.

Lemma line_outcomes_nth key :
  forall lines w i line,
    nth_error lines i = Some line ->
    exists o,
      nth_error (line_outcomes env key lines w) i = Some o
      /\ o <> OutOfFuel
      /\ nth_error (transcript_records lines (line_outcomes env key lines w)) i
         = Some (transcript_record line o).
Proof.
  induction lines as [|l ls IH]; intros w [|i] line H; simpl in H; try discriminate.
  - inversion H; subst l. simpl.
    exists (fst (line_synthesis env key line w)).
    destruct (line_synthesis_run key line w) as (evs & _ & _ & Htot).
    now repeat split.
  - simpl. now apply IH.
Qed.

(** A record with the marker is never the record without it. *)
Lemma marked_record_differs (line : DialogueItem) :
  transcript_line line ++ PyStr.nl ++ PyStr.nl
  <> transcript_line line ++ failure_marker ++ PyStr.nl ++ PyStr.nl.
Proof.
  intros H. apply (f_equal String.length) in H.
  rewrite !length_append in H. simpl in H. lia.
Qed.

(** C1: run on [N] lines, the loop ends with a transcript made of
    exactly [N] records, one per line and in the order of the lines,
    however each synthesis ends; the record of a line is the line
    followed by the failure marker when its synthesis raised, and the
    line with no marker (a different string) when its synthesis
    returned. *)
Theorem transcript_has_one_record_per_line :
  forall (key : option string) (lines : list DialogueItem) (w : World),
    exists (st : acc) (w' : World) (records : list string),
      synthesize_lines env key lines empty_acc w = (Ret st, w')
      /\ transcript st = join_all records
      /\ length records = length lines
      /\ forall i line,
           nth_error lines i = Some line ->
           exists o,
             nth_error (line_outcomes env key lines w) i = Some o
             /\ ((exists b, o = Ret b
                  /\ nth_error records i
                     = Some (transcript_line line ++ PyStr.nl ++ PyStr.nl))
                 \/ (exists e, o = Raise e
                     /\ nth_error records i
                        = Some (transcript_line line ++ failure_marker
                                ++ PyStr.nl ++ PyStr.nl)))
             /\ transcript_line line ++ PyStr.nl ++ PyStr.nl
                <> transcript_line line ++ failure_marker
                   ++ PyStr.nl ++ PyStr.nl.
Proof.
  intros key lines w.
  destruct (synthesize_lines_spec key lines empty_acc w) as [w' Hrun].
  eexists; exists w';
    exists (transcript_records lines (line_outcomes env key lines w)).
  split; [exact Hrun|]. split; [reflexivity|].
  split; [apply transcript_records_length, line_outcomes_length|].
  intros i line Hi.
  destruct (line_outcomes_nth key lines w i line Hi) as (o & Ho & Htot & Hrec).
  exists o. split; [exact Ho|]. split; [|apply marked_record_differs].
  destruct o as [b|e|]; [left; exists b | right; exists e | contradiction];
    (split; [reflexivity | exact Hrec]).
Qed.

(** C2: the audio the loop ends with is the payloads of the lines
    whose synthesis returned, one after another in the order of the
    lines; a line whose synthesis raised adds no byte.  ([payload] is
    the bytes returned, and nothing for a synthesis that raised.) *)
Theorem audio_is_concatenation_of_successes :
  forall (key : option string) (lines : list DialogueItem) (w : World),
    exists (st : acc) (w' : World),
      synthesize_lines env key lines empty_acc w = (Ret st, w')
      /\ length (line_outcomes env key lines w) = length lines
      /\ audio st = concat (map payload (line_outcomes env key lines w))
      /\ length (audio st)
         = list_sum (map (fun o => length (payload o))
                       (line_outcomes env key lines w)).
Proof.
  intros key lines w.
  destruct (synthesize_lines_spec key lines empty_acc w) as [w' Hrun].
  eexists; exists w'. split; [exact Hrun|].
  split; [apply line_outcomes_length|]. simpl.
  split; [reflexivity|].
  generalize (line_outcomes env key lines w) as outs.
  induction outs as [|o outs IH]; simpl; [reflexivity|].
  now rewrite length_app, IH.
Qed.

(** C10: when the synthesis of a line raises, the body of the loop
    returns with [audio] and [characters] as they were and [transcript]
    longer by the record of the line with the failure marker; among the
    effects of the line there is no pause of [request_delay]. *)
Theorem failed_line_keeps_audio_and_counter :
  forall (key : option string) (st : acc) (line : DialogueItem)
         (w w1 : World) (e : exn),
    line_synthesis env key line w = (Raise e, w1) ->
    exists evs,
      process_line env key st line w
      = (Ret {| audio := audio st;
                transcript :=
                  transcript st
                  ++ (transcript_line line ++ failure_marker
                      ++ PyStr.nl ++ PyStr.nl);
                characters := characters st |},
         extend w evs)
      /\ ~ In (EvSleep request_delay) evs.
Proof.
  intros key st line w w1 e Hsyn.
  destruct (line_synthesis_run key line w) as (evs & Hsnd & Hall & _).
  rewrite process_line_cases, Hsyn.
  rewrite Hsyn in Hsnd; simpl in Hsnd; subst w1.
  rewrite extend_extend.
  eexists; split; [reflexivity|].
  simpl. intros [H|H]; [discriminate|].
  apply in_app_or in H. destruct H as [H|[H|[]]]; [|discriminate].
  rewrite Forall_forall in Hall. specialize (Hall _ H).
  unfold request_delay in Hall; simpl in Hall. lia.
Qed.

(** C3 (amended): when the service answers every one of
    [max_attempts] requests in a row with a [RateLimitError], [get_mp3]
    makes exactly those [max_attempts] requests and pauses between them
    for 4, 4, 4 and 8 seconds: the pauses never decrease (they are not
    strictly increasing) and lie between the 4 s minimum and the 60 s
    ceiling.  It then raises [RetryError] around the last
    [RateLimitError], which the loop turns into the failure record of
    the line: the body of the loop returns. *)
Theorem get_mp3_sustained_rate_limit :
  forall (t v : string) (key : option string) (w : World),
    (forall j, j < max_attempts ->
       exists m,
         tts_service env (count_tts (trace w) + j) t v (effective_key env key)
         = Err (RateLimitError m)) ->
    exists m evs,
      get_mp3 env t v key w
      = (Raise (RetryError (RateLimitError m)), extend w evs)
      /\ count_tts evs = max_attempts
      /\ sleeps evs = [4000; 4000; 4000; 8000]%Z
      /\ Sorted Z.le (sleeps evs)
      /\ Forall (fun ms => 4000 <= ms <= 60000)%Z (sleeps evs)
      /\ forall st line,
           text line = t -> voice line = Ok v ->
           exists w',
             process_line env key st line w
             = (Ret {| audio := audio st;
                       transcript :=
                         transcript st
                         ++ (transcript_line line ++ failure_marker
                             ++ PyStr.nl ++ PyStr.nl);
                       characters := characters st |},
                w').
Proof.
  intros t v key w H.
  assert (G : forall w0, count_tts (trace w0) = count_tts (trace w) ->
              exists m evs,
                get_mp3 env t v key w0
                = (Raise (RetryError (RateLimitError m)), extend w0 evs)
                /\ count_tts evs = max_attempts
                /\ sleeps evs = [4000; 4000; 4000; 8000]%Z).
  { intros w0 Hw0.
    destruct (retrying_rate_limited env t v key 4 1 w0) as (m & evs & Hrun & Hc & Hs);
      [reflexivity | | ].
    - intros j Hj. rewrite Hw0. apply H. unfold max_attempts; lia.
    - exists m, evs. split; [exact Hrun|]. split; [exact Hc|].
      rewrite Hs. reflexivity. }
  destruct (G w eq_refl) as (m & evs & Hrun & Hc & Hs).
  exists m, evs. split; [exact Hrun|]. split; [exact Hc|]. split; [exact Hs|].
  rewrite Hs. split; [repeat constructor; lia|].
  split; [repeat constructor; lia|].
  intros st line Ht Hv.
  destruct (G (add_event (EvLog LvInfo ("Generating audio for: "
                                        ++ speaker_value (speaker line))) w))
    as (m' & evs' & Hrun' & _).
  { unfold add_event; simpl trace. rewrite count_tts_app.
    match goal with
    | |- context [count_tts [?a]] => change (count_tts [a]) with 0
    end.
    lia. }
  rewrite process_line_cases.
  unfold line_synthesis, bind, logger_info, emit, lift, ret.
  rewrite Hv, Ht, Hrun'. eexists; reflexivity.
Qed.

End OrchestratorProperties.

(** ** Computations that leave the directory alone *)

Section OnlyTraces.

Context {A B : Type}.

Lemma only_traces_ret (a : A) : only_traces (ret a).
Proof. intros w; exists []; simpl; now rewrite extend_nil. Qed.

Lemma only_traces_raise (e : exn) : only_traces (@raise A e).
Proof. intros w; exists []; simpl; now rewrite extend_nil. Qed.

Lemma only_traces_lift (r : result A) : only_traces (lift r).
Proof. destruct r; [apply only_traces_ret | apply only_traces_raise]. Qed.

Lemma only_traces_bind (m : M A) (k : A -> M B) :
  only_traces m -> (forall a, only_traces (k a)) -> only_traces (bind m k).
Proof.
  intros Hm Hk w. destruct (Hm w) as [evs1 H1]. unfold bind.
  destruct (m w) as [[a|e|] w1]; simpl in H1; subst w1;
    [| now exists evs1 | now exists evs1].
  destruct (Hk a (extend w evs1)) as [evs2 H2].
  exists (evs1 ++ evs2)%list. now rewrite H2, extend_extend.
Qed.

Lemma only_traces_try_except (m : M A) (h : exn -> M A) :
  only_traces m -> (forall e, only_traces (h e)) -> only_traces (try_except m h).
Proof.
  intros Hm Hh w. destruct (Hm w) as [evs1 H1]. unfold try_except.
  destruct (m w) as [[a|e|] w1]; simpl in H1; subst w1;
    [now exists evs1 | | now exists evs1].
  destruct (Hh e (extend w evs1)) as [evs2 H2].
  exists (evs1 ++ evs2)%list. now rewrite H2, extend_extend.
Qed.

Lemma only_traces_retrying (p : retry_policy) (fn : M A) :
  only_traces fn ->
  forall fuel attempt, only_traces (retrying fuel p attempt fn).
Proof.
  intros Hfn. induction fuel as [|fuel IH]; intros attempt w.
  - exists []; simpl; now rewrite extend_nil.
  - destruct (Hfn w) as [evs1 H1]. simpl.
    destruct (fn w) as [[a|e|] w1]; simpl in H1; subst w1;
      [now exists evs1 | | now exists evs1].
    destruct (retry_if p e); [|now exists evs1].
    destruct (stop p attempt); [now exists evs1|].
    unfold time_sleep, emit; simpl snd. rewrite add_event_extend, extend_extend.
    destruct (IH (S attempt) (extend w (evs1 ++ [EvSleep (wait p attempt)])))
      as [evs2 H2].
    exists ((evs1 ++ [EvSleep (wait p attempt)]) ++ evs2)%list.
    now rewrite H2, extend_extend.
Qed.

End OnlyTraces.

Lemma only_traces_emit (ev : event) : only_traces (emit ev).
Proof. intros w; now exists [ev]. Qed.

(** ** [str.strip] *)

Lemma lstrip_whitespace (s : string) :
  whitespace_only s = true -> PyStr.lstrip s = "".
Proof.
  unfold whitespace_only.
  induction s as [|c s IH]; simpl; [reflexivity|].
  intros H. apply andb_true_iff in H. destruct H as [Hc Hs].
  rewrite Hc. now apply IH.
Qed.

Lemma lstrip_cases (s : string) :
  (PyStr.lstrip s = "" /\ whitespace_only s = true)
  \/ exists c r, PyStr.lstrip s = String c r /\ PyStr.isspace c = false.
Proof.
  unfold whitespace_only.
  induction s as [|c s IH]; simpl; [now left|].
  destruct (PyStr.isspace c) eqn:Hc; simpl.
  - exact IH.
  - right. now exists c, s.
Qed.

Lemma rstrip_nonspace_head (c : ascii) (r : string) :
  PyStr.isspace c = false -> PyStr.rstrip (String c r) <> "".
Proof.
  intros Hc. simpl. destruct (PyStr.rstrip r); [rewrite Hc|]; discriminate.
Qed.

(** [not text.strip()] holds exactly of the strings of whitespace. *)
Lemma strip_empty_iff (s : string) :
  PyStr.strip s = "" <-> whitespace_only s = true.
Proof.
  unfold PyStr.strip. split.
  - intros H. destruct (lstrip_cases s) as [[_ Hw]|(c & r & Hl & Hc)]; [exact Hw|].
    rewrite Hl in H. now apply rstrip_nonspace_head in H.
  - intros H. now rewrite lstrip_whitespace.
Qed.

(** ** The dialogue generator *)

Section DialogueProperties.

Variable env : Env.

Lemma llm_call_raise t w e :
  llm_service env (count_llm (trace w)) t = Err e ->
  llm_call env t w = (Raise e, extend w [EvLlm t]).
Proof. intros H; unfold llm_call; now rewrite H. Qed.

Lemma llm_call_ret t w d :
  llm_service env (count_llm (trace w)) t = Ok d ->
  llm_call env t w = (Ret d, extend w [EvLlm t]).
Proof. intros H; unfold llm_call; now rewrite H. Qed.

Lemma only_traces_llm_call t : only_traces (llm_call env t).
Proof.
  intros w. exists [EvLlm t]. unfold llm_call.
  now destruct (llm_service env _ t).
Qed.

Lemma count_llm_after_retry t w :
  count_llm (trace (extend w ([EvLlm t] ++ [EvSleep 0]))) = S (count_llm (trace w)).
Proof. simpl. rewrite count_llm_app. unfold count_llm at 2; simpl. lia. Qed.

(** As long as the answers fail validation the loop goes on: [fuel]
    calls use up any [fuel]. *)
Lemma generate_dialogue_goes_on t :
  forall (fuel attempt : nat) (w : World),
    (forall j, j < fuel ->
       exists m, llm_service env (count_llm (trace w) + j) t
                 = Err (ValidationError m)) ->
    exists evs,
      retrying fuel generate_dialogue_policy attempt (llm_call env t) w
      = (OutOfFuel, extend w evs)
      /\ count_llm evs = fuel
      /\ sleeps evs = repeat 0%Z fuel.
Proof.
  induction fuel as [|fuel IH]; intros attempt w H.
  - exists []. simpl. now rewrite extend_nil.
  - destruct (H 0) as [m Hm]; [lia|]. rewrite Nat.add_0_r in Hm.
    rewrite (retrying_again _ _ _ _ _ _ _ (llm_call_raise _ _ _ Hm));
      [| reflexivity | reflexivity].
    rewrite extend_extend.
    destruct (IH (S attempt) (extend w ([EvLlm t] ++ [EvSleep 0])))
      as (evs & Hrun & Hcount & Hsleeps).
    + intros j Hj. destruct (H (S j)) as [m' Hm']; [lia|].
      exists m'. rewrite <- Hm'. f_equal.
      rewrite count_llm_after_retry. lia.
    + exists ([EvLlm t] ++ [EvSleep 0] ++ evs)%list.
      change (wait generate_dialogue_policy attempt) with 0%Z.
      rewrite Hrun, extend_extend. split; [now rewrite <- app_assoc|].
      split.
      * simpl. unfold count_llm in *. simpl. now rewrite Hcount.
      * simpl. now rewrite Hsleeps.
Qed.

(** After [n] answers that fail validation, the next answer decides:
    whatever [llm_call] gives that is not a [ValidationError] is the
    result, after [n + 1] calls. *)
Lemma generate_dialogue_decides t :
  forall (n fuel attempt : nat) (w : World) (r : outcome Dialogue),
    n < fuel ->
    (forall j, j < n ->
       exists m, llm_service env (count_llm (trace w) + j) t
                 = Err (ValidationError m)) ->
    match llm_service env (count_llm (trace w) + n) t with
    | Ok d => r = Ret d
    | Err e => r = Raise e /\ is_ValidationError e = false
    end ->
    exists evs,
      retrying fuel generate_dialogue_policy attempt (llm_call env t) w
      = (r, extend w evs)
      /\ count_llm evs = S n.
Proof.
  induction n as [|n IH]; intros fuel attempt w r Hfuel H Hlast;
    (destruct fuel as [|fuel]; [lia|]).
  - rewrite Nat.add_0_r in Hlast. exists [EvLlm t].
    split; [|reflexivity].
    destruct (llm_service env (count_llm (trace w)) t) as [d|e] eqn:E.
    + subst r. apply retrying_ret. now apply llm_call_ret.
    + destruct Hlast as [-> He].
      apply retrying_raise; [now apply llm_call_raise | exact He].
  - destruct (H 0) as [m Hm]; [lia|]. rewrite Nat.add_0_r in Hm.
    rewrite (retrying_again _ _ _ _ _ _ _ (llm_call_raise _ _ _ Hm));
      [| reflexivity | reflexivity].
    rewrite extend_extend.
    destruct (IH fuel (S attempt) (extend w ([EvLlm t] ++ [EvSleep 0])) r)
      as (evs & Hrun & Hcount); [lia | |  |].
    + intros j Hj. destruct (H (S j)) as [m' Hm']; [lia|].
      exists m'. rewrite <- Hm'. f_equal.
      rewrite count_llm_after_retry. lia.
    + rewrite count_llm_after_retry.
      now replace (S (count_llm (trace w)) + n) with (count_llm (trace w) + S n) by lia.
    + exists ([EvLlm t] ++ [EvSleep 0] ++ evs)%list.
      change (wait generate_dialogue_policy attempt) with 0%Z.
      rewrite Hrun, extend_extend. split; [now rewrite <- app_assoc|].
      simpl. unfold count_llm in *. simpl. now rewrite Hcount.
Qed.

(** C5 (amended): [generate_dialogue] calls the model again after
    every answer that fails validation, at once and without any bound
    on the number of calls.  After [n] such answers in a row, [n] calls
    have been made and the run is still going (no error has come out);
    the [n + 1]-th call then decides: a valid dialogue is returned, and
    an exception that is not a [ValidationError] is raised as it is.
    When every answer fails validation no amount of fuel ends the run:
    nothing is ever raised to the caller. *)
Theorem generate_dialogue_retries_without_bound :
  forall (t : string) (w : World) (n : nat),
    (forall j, j < n ->
       exists m, llm_service env (count_llm (trace w) + j) t
                 = Err (ValidationError m)) ->
    (exists evs,
        generate_dialogue env n t w = (OutOfFuel, extend w evs)
        /\ count_llm evs = n
        /\ sleeps evs = repeat 0%Z n)
    /\ (forall d fuel,
          llm_service env (count_llm (trace w) + n) t = Ok d -> n < fuel ->
          exists evs,
            generate_dialogue env fuel t w = (Ret d, extend w evs)
            /\ count_llm evs = S n)
    /\ (forall e fuel,
          llm_service env (count_llm (trace w) + n) t = Err e ->
          is_ValidationError e = false -> n < fuel ->
          exists evs,
            generate_dialogue env fuel t w = (Raise e, extend w evs)
            /\ count_llm evs = S n).
Proof.
  intros t w n H. unfold generate_dialogue. split; [|split].
  - apply (generate_dialogue_goes_on t n 1 w H).
  - intros d fuel Hd Hfuel.
    apply (generate_dialogue_decides t n fuel 1 w (Ret d) Hfuel H).
    now rewrite Hd.
  - intros e fuel He Hne Hfuel.
    apply (generate_dialogue_decides t n fuel 1 w (Raise e) Hfuel H).
    now rewrite He.
Qed.

End DialogueProperties.

(** ** The document source and the abort on an empty document *)

Section DocumentProperties.

Variable env : Env.

Lemma read_document_empty file_or_url w text_ :
  document_text env file_or_url = Ok text_ ->
  whitespace_only text_ = true ->
  exists msg evs,
    read_document env file_or_url w = (Raise (GrError msg), extend w evs)
    /\ count_llm evs = 0
    /\ count_tts evs = 0.
Proof.
  unfold document_text, read_document. intros Hdoc Hws.
  apply strip_empty_iff in Hws.
  destruct (is_google_docs_url file_or_url).
  - unfold try_except, bind, logger_info, logger_error, emit, lift, ret, raise.
    rewrite Hdoc, Hws. simpl.
    eexists.
    exists [EvLog LvInfo ("Processing Google Docs URL: " ++ file_or_url);
            EvExtract file_or_url;
            EvLog LvError
              ("Error processing Google Docs: "
               ++ exn_str env
                    (GrError "No text content found in the Google Docs document"))].
    split; [|split; reflexivity].
    unfold extend, add_event; simpl. now rewrite <- !app_assoc.
  - destruct (pdf_pages env file_or_url) as [pages|e] eqn:Hp; [|discriminate].
    inversion Hdoc; subst text_.
    unfold try_except, bind, logger_info, logger_error, emit, lift, ret, raise.
    replace (PyStr.strip (PyStr.join (PyStr.nl ++ PyStr.nl) pages)) with ""
      by (symmetry; exact Hws).
    simpl.
    eexists.
    exists [EvExtract file_or_url;
            EvLog LvError
              ("Error processing PDF: "
               ++ exn_str env (GrError "No text content found in the PDF"))].
    split; [|split; reflexivity].
    unfold extend, add_event; simpl. now rewrite <- !app_assoc.
Qed.

(** C8: when the text the document source gives is empty or made of
    whitespace only, [generate_audio] raises a [gr.Error], and it has
    called neither the language model nor the speech service: the
    effects of the run contain no call of either, and the directory is
    as it was (no file written). *)
Theorem empty_document_aborts_before_any_call :
  forall (fuel : nat) (file_or_url : string) (key : option string)
         (w : World) (text_ : string),
    document_text env file_or_url = Ok text_ ->
    whitespace_only text_ = true ->
    exists msg evs,
      generate_audio env fuel file_or_url key w
      = (Raise (GrError msg), extend w evs)
      /\ count_llm evs = 0
      /\ count_tts evs = 0
      /\ tmpdir (extend w evs) = tmpdir w.
Proof.
  intros fuel file_or_url key w text_ Hdoc Hws. unfold generate_audio.
  destruct (negb _).
  - exists "OpenAI API key is required", []. unfold raise.
    rewrite extend_nil. now repeat split.
  - destruct (read_document_empty file_or_url w text_ Hdoc Hws)
      as (msg & evs & Hrun & Hl & Ht).
    exists msg, evs. unfold produce, bind. rewrite Hrun. now repeat split.
Qed.

Lemma only_traces_read_document file_or_url :
  only_traces (read_document env file_or_url).
Proof.
  unfold read_document.
  destruct (is_google_docs_url file_or_url);
    apply only_traces_try_except;
    repeat first
      [ apply only_traces_bind; [|intros ?]
      | apply only_traces_emit
      | apply only_traces_lift
      | apply only_traces_raise
      | apply only_traces_ret
      | match goal with |- only_traces (if ?c then _ else _) => destruct c end
      | intros ? ].
Qed.

Lemma only_traces_synthesize_lines key :
  forall lines st, only_traces (synthesize_lines env key lines st).
Proof.
  induction lines as [|line rest IH]; intros st; simpl.
  - apply only_traces_ret.
  - apply only_traces_bind; [|intros st'; apply IH].
    intros w. rewrite process_line_cases.
    destruct (line_synthesis_run env key line w) as (evs & Hsnd & _).
    destruct (line_synthesis env key line w) as [[b|e|] w1];
      simpl in Hsnd; subst w1; rewrite ?extend_extend; eexists; reflexivity.
Qed.

Lemma only_traces_produce fuel file_or_url key :
  only_traces (produce env fuel file_or_url key).
Proof.
  unfold produce.
  apply only_traces_bind; [apply only_traces_read_document | intros t].
  apply only_traces_bind;
    [apply only_traces_retrying, only_traces_llm_call | intros d].
  apply only_traces_bind; [apply only_traces_synthesize_lines | intros st].
  apply only_traces_bind; [apply only_traces_emit | intros _].
  apply only_traces_ret.
Qed.

End DocumentProperties.

(** ** The temporary file and the sweep *)

Section ArtifactProperties.

Variable env : Env.

Lemma find_entry_existsb nm d f :
  find_entry nm d = Some f -> existsb (has_name nm) d = true.
Proof.
  intros H. apply find_some in H. apply existsb_exists. now exists f.
Qed.

Lemma find_entry_not_existsb nm d :
  existsb (has_name nm) d = false -> find_entry nm d = None.
Proof.
  induction d as [|a d IH]; simpl; [reflexivity|].
  destruct (has_name nm a); simpl; [discriminate | exact IH].
Qed.

Lemma find_entry_name nm d f : find_entry nm d = Some f -> e_name f = nm.
Proof. intros H. apply find_some in H. now apply String.eqb_eq. Qed.

Lemma find_entry_without_other nm file d :
  nm <> file -> find_entry nm (without file d) = find_entry nm d.
Proof.
  intros Hne. unfold without.
  induction d as [|a d IH]; simpl; [reflexivity|].
  destruct (has_name file a) eqn:Hf; simpl.
  - assert (Hn : has_name nm a = false).
    { unfold has_name in *. apply String.eqb_eq in Hf.
      apply String.eqb_neq. congruence. }
    now rewrite Hn.
  - destruct (has_name nm a); [reflexivity | exact IH].
Qed.

Lemma find_entry_without_same nm d : find_entry nm (without nm d) = None.
Proof.
  unfold without. induction d as [|a d IH]; simpl; [reflexivity|].
  destruct (has_name nm a) eqn:Hn; simpl; [exact IH | now rewrite Hn].
Qed.

Lemma find_entry_without_none nm file d :
  find_entry nm d = None -> find_entry nm (without file d) = None.
Proof.
  destruct (String.eqb_spec nm file) as [->|Hne].
  - intros _. apply find_entry_without_same.
  - now rewrite find_entry_without_other.
Qed.

Lemma find_entry_app_l nm d1 d2 f :
  find_entry nm d1 = Some f -> find_entry nm (d1 ++ d2) = Some f.
Proof.
  induction d1 as [|a d1 IH]; simpl; [discriminate|].
  destruct (has_name nm a); [trivial | exact IH].
Qed.

Lemma find_entry_app_r nm d1 d2 :
  find_entry nm d1 = None -> find_entry nm (d1 ++ d2) = find_entry nm d2.
Proof.
  induction d1 as [|a d1 IH]; simpl; [reflexivity|].
  destruct (has_name nm a); [discriminate | exact IH].
Qed.

(** The body of the sweep, by what the directory holds under [file]. *)
Lemma sweep_file_cases file w :
  sweep_file env file w
  = match find_entry file (tmpdir w) with
    | Some f =>
        if e_is_file f then
          if (clock env (length (trace w)) - e_mtime f >? retention)%Z then
            match remove_error env file with
            | Some e => (Raise e, extend w [EvClock; EvRemove file false])
            | None =>
                (Ret tt,
                 {| trace := trace w ++ [EvClock; EvRemove file true];
                    tmpdir := without file (tmpdir w) |})
            end
          else (Ret tt, extend w [EvClock])
        else (Ret tt, w)
    | None => (Ret tt, w)
    end.
Proof.
  unfold sweep_file, bind, os_path_isfile, time_time, os_path_getmtime,
    os_remove, ret.
  destruct (find_entry file (tmpdir w)) as [f|] eqn:E; [|reflexivity].
  destruct (e_is_file f); [|reflexivity].
  cbn [tmpdir add_event trace]. rewrite E.
  destruct (_ >? _)%Z; [|reflexivity].
  destruct (remove_error env file).
  - unfold extend, add_event; cbn [tmpdir trace]. now rewrite <- app_assoc.
  - change (tmpdir (add_event EvClock w)) with (tmpdir w).
    change (trace (add_event EvClock w)) with (trace w ++ [EvClock])%list.
    rewrite (find_entry_existsb _ _ _ E). now rewrite <- app_assoc.
Qed.

(** One step of the sweep never shortens the trace, never ends for
    lack of fuel, and either leaves the directory as it is or removes
    [file], which it does only to a regular file it found too old. *)
Lemma sweep_file_effect file w r w1 :
  sweep_file env file w = (r, w1) ->
  length (trace w) <= length (trace w1)
  /\ r <> OutOfFuel
  /\ (tmpdir w1 = tmpdir w
      \/ (r = Ret tt
          /\ tmpdir w1 = without file (tmpdir w)
          /\ exists f, find_entry file (tmpdir w) = Some f
                       /\ (clock env (length (trace w)) - e_mtime f > retention)%Z))
  /\ (forall e, r = Raise e -> remove_error env file = Some e).
Proof.
  rewrite sweep_file_cases.
  destruct (find_entry file (tmpdir w)) as [f|] eqn:E.
  2:{ intros H; inversion H; subst. repeat split; auto; discriminate. }
  destruct (e_is_file f).
  2:{ intros H; inversion H; subst. repeat split; auto; discriminate. }
  destruct (_ >? _)%Z eqn:Hold.
  2:{ intros H; inversion H; subst. simpl. rewrite length_app.
      repeat split; auto; try lia; discriminate. }
  apply Z.gtb_lt in Hold.
  destruct (remove_error env file) as [e|].
  - intros H; inversion H; subst. simpl. rewrite length_app.
    repeat split; auto; try lia; try discriminate. intros e' He'; congruence.
  - intros H; inversion H; subst. simpl. rewrite length_app.
    split; [lia|]. split; [discriminate|]. split; [|discriminate].
    right. split; [reflexivity|]. split; [reflexivity|].
    exists f. split; [reflexivity | lia].
Qed.

Lemma sweep_file_keeps file w r w1 nm f :
  sweep_file env file w = (r, w1) ->
  find_entry nm (tmpdir w) = Some f ->
  (clock env (length (trace w)) - e_mtime f <= retention)%Z ->
  find_entry nm (tmpdir w1) = Some f.
Proof.
  intros Hrun Hf Hage.
  destruct (sweep_file_effect _ _ _ _ Hrun)
    as (_ & _ & [Hsame|(_ & Hgone & f' & Hf' & Hold)] & _).
  - now rewrite Hsame.
  - rewrite Hgone. destruct (String.eqb_spec nm file) as [->|Hne].
    + rewrite Hf in Hf'. inversion Hf'; subst f'. lia.
    + now rewrite find_entry_without_other.
Qed.

(** The sweep keeps every entry that is within the window whenever
    the clock is read, whether or not the sweep runs to its end. *)
Lemma sweep_files_keeps :
  forall files w r w' nm f,
    sweep_files env files w = (r, w') ->
    find_entry nm (tmpdir w) = Some f ->
    (forall i, length (trace w) <= i ->
               (clock env i - e_mtime f <= retention)%Z) ->
    find_entry nm (tmpdir w') = Some f.
Proof.
  induction files as [|file rest IH]; intros w r w' nm f Hrun Hf Hage.
  - inversion Hrun; subst. exact Hf.
  - simpl in Hrun. unfold bind in Hrun.
    destruct (sweep_file env file w) as [r1 w1] eqn:E.
    pose proof (sweep_file_keeps _ _ _ _ _ _ E Hf (Hage _ (le_n _))) as Hf1.
    destruct (sweep_file_effect _ _ _ _ E) as (Hlen & _).
    destruct r1 as [[]|e|]; [|inversion Hrun; now subst..].
    apply (IH w1 r w' nm f Hrun Hf1).
    intros i Hi. apply Hage. lia.
Qed.

(** The sweep creates nothing. *)
Lemma sweep_files_no_new :
  forall files w r w' nm,
    sweep_files env files w = (r, w') ->
    find_entry nm (tmpdir w) = None ->
    find_entry nm (tmpdir w') = None.
Proof.
  induction files as [|file rest IH]; intros w r w' nm Hrun Hf.
  - inversion Hrun; subst. exact Hf.
  - simpl in Hrun. unfold bind in Hrun.
    destruct (sweep_file env file w) as [r1 w1] eqn:E.
    assert (Hf1 : find_entry nm (tmpdir w1) = None).
    { destruct (sweep_file_effect _ _ _ _ E)
        as (_ & _ & [Hsame|(_ & Hgone & _)] & _).
      - now rewrite Hsame.
      - rewrite Hgone. now apply find_entry_without_none. }
    destruct r1 as [[]|e|]; [|inversion Hrun; now subst..].
    apply (IH w1 r w' nm Hrun Hf1).
Qed.

(** A sweep that runs to its end has removed every listed regular
    file that is too old whenever the clock is read. *)
Lemma sweep_files_removes :
  forall files w w' nm f,
    sweep_files env files w = (Ret tt, w') ->
    In nm files ->
    find_entry nm (tmpdir w) = Some f ->
    e_is_file f = true ->
    (forall i, length (trace w) <= i ->
               (clock env i - e_mtime f > retention)%Z) ->
    find_entry nm (tmpdir w') = None.
Proof.
  induction files as [|file rest IH]; intros w w' nm f Hrun Hin Hf Hfile Hage;
    [contradiction|].
  simpl in Hrun. unfold bind in Hrun.
  destruct (sweep_file env file w) as [r1 w1] eqn:E.
  destruct (sweep_file_effect _ _ _ _ E) as (Hlen & _ & Hdir & _).
  destruct r1 as [[]|e|]; [|discriminate..].
  destruct (String.eqb_spec nm file) as [->|Hne].
  - (* this is the step that removes it *)
    apply (sweep_files_no_new rest w1 (Ret tt) w' file Hrun).
    rewrite sweep_file_cases, Hf, Hfile in E.
    specialize (Hage _ (le_n _)).
    assert (Hb : (clock env (length (trace w)) - e_mtime f >? retention)%Z = true)
      by (apply Z.gtb_lt; lia).
    rewrite Hb in E.
    destruct (remove_error env file); [discriminate|].
    inversion E; subst w1. simpl. apply find_entry_without_same.
  - destruct Hin as [Heq|Hin]; [congruence|].
    apply (IH w1 w' nm f Hrun Hin); [|exact Hfile|intros i Hi; apply Hage; lia].
    destruct Hdir as [Hsame|(_ & Hgone & _)].
    + now rewrite Hsame.
    + rewrite Hgone. now rewrite find_entry_without_other.
Qed.

(** A sweep that meets a listed regular file, too old whenever the
    clock is read, whose removal raises, ends by raising what an
    [os.remove] raised. *)
Lemma sweep_files_raises :
  forall files w nm f err,
    In nm files ->
    find_entry nm (tmpdir w) = Some f ->
    e_is_file f = true ->
    (forall i, length (trace w) <= i ->
               (clock env i - e_mtime f > retention)%Z) ->
    remove_error env nm = Some err ->
    exists file e w',
      sweep_files env files w = (Raise e, w')
      /\ In file files
      /\ remove_error env file = Some e.
Proof.
  induction files as [|file rest IH]; intros w nm f err Hin Hf Hfile Hage Herr;
    [contradiction|].
  simpl. unfold bind.
  destruct (sweep_file env file w) as [r1 w1] eqn:E.
  destruct (sweep_file_effect _ _ _ _ E) as (Hlen & Htot & Hdir & Hraise).
  destruct r1 as [[]|e|]; [| |contradiction].
  - destruct (String.eqb_spec nm file) as [->|Hne].
    + rewrite sweep_file_cases, Hf, Hfile in E.
      assert (Hb : (clock env (length (trace w)) - e_mtime f >? retention)%Z = true)
        by (apply Z.gtb_lt; specialize (Hage _ (le_n _)); lia).
      rewrite Hb, Herr in E. discriminate.
    + destruct Hin as [Heq|Hin]; [congruence|].
      destruct (IH w1 nm f err Hin) as (file' & e & w' & Hrun & Hin' & He);
        [|exact Hfile|intros i Hi; apply Hage; lia|exact Herr|].
      * destruct Hdir as [Hsame|(_ & Hgone & _)].
        -- now rewrite Hsame.
        -- rewrite Hgone. now rewrite find_entry_without_other.
      * exists file', e, w'. split; [exact Hrun|]. split; [now right | exact He].
  - exists file, e, w1. split; [reflexivity|]. split; [now left | now apply Hraise].
Qed.

(** What [glob] lists. *)
Lemma glob_lists nm d f :
  find_entry nm d = Some f -> glob_match_mp3 nm = true ->
  In nm (map e_name (filter (fun e => glob_match_mp3 (e_name e)) d)).
Proof.
  intros Hf Hm. pose proof (find_entry_name _ _ _ Hf) as Hn.
  apply find_some in Hf. destruct Hf as [Hin _].
  rewrite <- Hn. apply in_map. apply filter_In. split; [exact Hin|].
  now rewrite Hn.
Qed.

(** *** Writing the temporary file *)

Lemma mkstemp_inner_effect pre suf :
  forall tries w r w1,
    mkstemp_inner env tries pre suf w = (r, w1) ->
    length (trace w) <= length (trace w1)
    /\ match r with
       | Ret nm =>
           find_entry nm (tmpdir w) = None
           /\ exists i0, tmpdir w1 = (tmpdir w ++ [mkEntry nm true (clock env i0) []])%list
       | _ => tmpdir w1 = tmpdir w
       end.
Proof.
  induction tries as [|tries IH]; intros w r w1 H.
  - inversion H; subst. now split.
  - simpl in H.
    destruct (existsb _ (tmpdir w)) eqn:Hex.
    + apply IH in H. destruct H as [Hlen H].
      simpl in Hlen. rewrite length_app in Hlen. simpl in Hlen.
      split; [lia | exact H].
    + inversion H; subst. simpl. rewrite length_app. split; [lia|].
      split; [now apply find_entry_not_existsb|].
      now exists (length (trace w)).
Qed.

Lemma file_write_others nm t data d :
  find_entry nm d = None ->
  map (fun e =>
         if has_name nm e then
           {| e_name := e_name e; e_is_file := e_is_file e;
              e_mtime := t; e_content := (e_content e ++ data)%list |}
         else e) d
  = d.
Proof.
  induction d as [|a d IH]; simpl; [reflexivity|].
  destruct (has_name nm a); [discriminate|].
  intros H. now rewrite IH.
Qed.

Lemma write_artifact_effect data w r w1 :
  write_artifact env data w = (r, w1) ->
  length (trace w) <= length (trace w1)
  /\ match r with
     | Ret nm =>
         find_entry nm (tmpdir w) = None
         /\ exists i0, tmpdir w1 = (tmpdir w ++ [mkEntry nm true (clock env i0) data])%list
     | _ => tmpdir w1 = tmpdir w
     end.
Proof.
  unfold write_artifact, bind, file_write, ret. intros H.
  destruct (mkstemp_inner env TMP_MAX "tmp" ".mp3" w) as [r0 w0] eqn:E.
  apply mkstemp_inner_effect in E. destruct E as [Hlen E].
  destruct r0 as [nm|e|]; [|inversion H; now subst..].
  destruct E as [Hnone [i0 Hdir]].
  inversion H; subst r w1. cbn [trace tmpdir]. rewrite length_app.
  split; [simpl; lia|]. split; [exact Hnone|].
  exists (length (trace w0)).
  rewrite Hdir, map_app, file_write_others by exact Hnone.
  simpl. unfold has_name; simpl. now rewrite String.eqb_refl.
Qed.

(** *** [generate_audio], stage by stage *)

(** Either the call ends before the sweep, with the directory as it
    was and nothing returned, or it produces the audio, writes it to a
    file with a new name and sweeps the directory; what the sweep
    raises is what the call raises. *)
Lemma generate_audio_stages fuel file_or_url key w r w' :
  generate_audio env fuel file_or_url key w = (r, w') ->
  (tmpdir w' = tmpdir w /\ forall v, r <> Ret v)
  \/ exists st w1 nm i0 w2 r2,
       produce env fuel file_or_url key w = (Ret st, w1)
       /\ length (trace w) <= length (trace w2)
       /\ find_entry nm (tmpdir w) = None
       /\ tmpdir w2
          = (tmpdir w ++ [mkEntry nm true (clock env i0) (audio st)])%list
       /\ sweep_files env
            (map e_name (filter (fun e => glob_match_mp3 (e_name e)) (tmpdir w2)))
            w2
          = (r2, w')
       /\ r = match r2 with
              | Ret _ => Ret (temporary_file_name env nm, transcript st)
              | Raise e => Raise e
              | OutOfFuel => OutOfFuel
              end.
Proof.
  unfold generate_audio. destruct (negb _).
  { intros H; inversion H; subst. left. split; [reflexivity | discriminate]. }
  unfold bind at 1.
  destruct (produce env fuel file_or_url key w) as [r0 w1] eqn:Ep.
  destruct (only_traces_produce env fuel file_or_url key w) as [evs Hw1].
  rewrite Ep in Hw1; simpl in Hw1.
  assert (Hdir1 : tmpdir w1 = tmpdir w) by now subst w1.
  assert (Hlen1 : length (trace w) <= length (trace w1)).
  { subst w1. simpl. rewrite length_app. lia. }
  destruct r0 as [st|e|];
    [| intros H; inversion H; subst; left; split; [congruence|discriminate]..].
  unfold persist, bind.
  destruct (write_artifact env (audio st) w1) as [rw w2] eqn:Ew.
  apply write_artifact_effect in Ew. destruct Ew as [Hlen2 Ew].
  destruct rw as [nm|e|];
    [| intros H; inversion H; subst; left; split; [congruence|discriminate]..].
  destruct Ew as [Hnone [i0 Hdir2]].
  unfold sweep, bind, glob_mp3.
  destruct (sweep_files env _ w2) as [r2 w3] eqn:Es.
  intros H. right. exists st, w1, nm, i0, w2, r2.
  split; [reflexivity|]. split; [lia|].
  split; [now rewrite <- Hdir1|]. split; [now rewrite Hdir2, Hdir1|].
  destruct r2 as [[]|e|]; inversion H; subst; now split.
Qed.

End ArtifactProperties.

Section RetentionProperties.

Variable env : Env.

(** C7 (amended): in a call of [generate_audio], a file of the
    directory that is within the 24-hour window whenever the clock is
    read is never deleted, whether the call returns or raises; when the
    call returns (no [os.remove] raised and cut the sweep short), every
    regular file that [*.mp3] matches and that is older than the window
    whenever the clock is read has been deleted; and the file the call
    has just written, under a name new to the directory, is still there
    with the audio in it, provided no two readings of the clock during
    the call are further apart than the window. *)
Theorem sweep_retention_policy :
  forall (fuel : nat) (file_or_url : string) (key : option string)
         (w : World) (r : outcome (string * string)) (w' : World),
    generate_audio env fuel file_or_url key w = (r, w') ->
    (forall nm f,
        find_entry nm (tmpdir w) = Some f ->
        ((forall i, length (trace w) <= i ->
                    (clock env i - e_mtime f <= retention)%Z) ->
         find_entry nm (tmpdir w') = Some f)
        /\ ((exists v, r = Ret v) ->
            glob_match_mp3 nm = true ->
            e_is_file f = true ->
            (forall i, length (trace w) <= i ->
                       (clock env i - e_mtime f > retention)%Z) ->
            find_entry nm (tmpdir w') = None))
    /\ (forall path tr,
          r = Ret (path, tr) ->
          (forall i j, (clock env j - clock env i <= retention)%Z) ->
          exists nm g st w1,
            path = temporary_file_name env nm
            /\ find_entry nm (tmpdir w) = None
            /\ find_entry nm (tmpdir w') = Some g
            /\ e_is_file g = true
            /\ produce env fuel file_or_url key w = (Ret st, w1)
            /\ e_content g = audio st
            /\ tr = transcript st).
Proof.
  intros fuel file_or_url key w r w' Hrun.
  destruct (generate_audio_stages env _ _ _ _ _ _ Hrun)
    as [[Hsame Hnot]
       |(st & w1 & nm0 & i0 & w2 & r2 & Hp & Hlen & Hnone & Hdir2 & Hsweep & Hr)].
  - split.
    + intros nm f Hf. split.
      * intros _. now rewrite Hsame.
      * intros [v Hv]. now apply Hnot in Hv.
    + intros path tr Hret. now apply Hnot in Hret.
  - split.
    + intros nm f Hf.
      assert (Hf2 : find_entry nm (tmpdir w2) = Some f)
        by (rewrite Hdir2; now apply find_entry_app_l).
      split.
      * intros Hage.
        apply (sweep_files_keeps env _ _ _ _ _ _ Hsweep Hf2).
        intros i Hi. apply Hage. lia.
      * intros [v Hv] Hmatch Hfile Hage.
        destruct r2 as [[]|e|]; [|subst r; discriminate..].
        apply (sweep_files_removes env _ _ _ _ _ Hsweep
                 (glob_lists _ _ _ Hf2 Hmatch) Hf2 Hfile).
        intros i Hi. apply Hage. lia.
    + intros path tr Hret Hclock.
      destruct r2 as [[]|e|]; [|subst r; discriminate..].
      rewrite Hr in Hret. inversion Hret; subst path tr.
      exists nm0, (mkEntry nm0 true (clock env i0) (audio st)), st, w1.
      split; [reflexivity|]. split; [exact Hnone|].
      split; [|now repeat split].
      apply (sweep_files_keeps env _ _ _ _ _ _ Hsweep).
      * rewrite Hdir2, find_entry_app_r by exact Hnone.
        simpl. unfold has_name; simpl. now rewrite String.eqb_refl.
      * intros i _. apply Hclock.
Qed.

(** C6 (amended): an error of the sweep is not caught.  When the
    audio has been produced and written to its file, and the directory
    holds a regular file that [*.mp3] matches, older than the window
    whenever the clock is read, whose [os.remove] raises, then
    [generate_audio] raises what an [os.remove] of the sweep raised: the
    caller gets neither the path nor the transcript. *)
Theorem sweep_error_reaches_caller :
  forall (fuel : nat) (file_or_url : string) (key : option string)
         (w w1 w2 : World) (st : acc) (written nm : string) (f : entry)
         (err : exn),
    PyStr.truthy_opt (PyStr.or_ (env_OPENAI_API_KEY env) key) = true ->
    produce env fuel file_or_url key w = (Ret st, w1) ->
    write_artifact env (audio st) w1 = (Ret written, w2) ->
    find_entry nm (tmpdir w) = Some f ->
    glob_match_mp3 nm = true ->
    e_is_file f = true ->
    (forall i, length (trace w) <= i ->
               (clock env i - e_mtime f > retention)%Z) ->
    remove_error env nm = Some err ->
    exists file e w',
      generate_audio env fuel file_or_url key w = (Raise e, w')
      /\ remove_error env file = Some e.
Proof.
  intros fuel file_or_url key w w1 w2 st written nm f err
         Hkey Hp Hw Hf Hmatch Hfile Hage Herr.
  destruct (only_traces_produce env fuel file_or_url key w) as [evs Hw1].
  rewrite Hp in Hw1; simpl in Hw1.
  destruct (write_artifact_effect env _ _ _ _ Hw) as (Hlen2 & _ & i0 & Hdir2).
  assert (Hf2 : find_entry nm (tmpdir w2) = Some f).
  { rewrite Hdir2. apply find_entry_app_l. now subst w1. }
  destruct (sweep_files_raises env
              (map e_name (filter (fun e => glob_match_mp3 (e_name e)) (tmpdir w2)))
              w2 nm f err (glob_lists _ _ _ Hf2 Hmatch) Hf2 Hfile)
    as (file & e & w' & Hsweep & _ & He); [|exact Herr|].
  { intros i Hi. apply Hage. subst w1. simpl in Hlen2.
    rewrite length_app in Hlen2. lia. }
  exists file, e, w'. split; [|exact He].
  unfold generate_audio. rewrite Hkey. cbn [negb].
  unfold bind at 1. rewrite Hp.
  unfold persist, bind. rewrite Hw.
  unfold sweep, bind, glob_mp3. now rewrite Hsweep.
Qed.

End RetentionProperties.

(** * The properties on the scenarios *)

Import Scenario.

(** A run in which the second line fails: the transcript keeps both
    lines, the audio only the first. *)
Example run_with_one_failed_line :
  fst (synthesize_lines second_rejected None (dialogue script) empty_acc nothing)
  = Ret {| audio := mp3_frame;
           transcript :=
             "female-1: Welcome to the show." ++ PyStr.nl ++ PyStr.nl
             ++ "male-1: Glad to be here. [AUDIO GENERATION FAILED]"
             ++ PyStr.nl ++ PyStr.nl;
           characters := 20 |}.
Proof. vm_compute. reflexivity. Qed.

(** A whole call: the path of the new file and the transcript come
    back, the two old files are gone and the new one holds the audio. *)
Example healthy_call :
  let (r, w') := generate_audio healthy 1 "tides.pdf" None stale in
  r = Ret ("/srv/podcast/gradio_cached_examples/tmp/tmpk3v9x2qa.mp3",
           "female-1: Welcome to the show." ++ PyStr.nl ++ PyStr.nl
           ++ "male-1: Glad to be here." ++ PyStr.nl ++ PyStr.nl)
  /\ tmpdir w'
     = [mkEntry "c.mp3" true 199999000 mp3_frame;
        mkEntry "tmpk3v9x2qa.mp3" true 200000000 (mp3_frame ++ mp3_frame)%list].
Proof. vm_compute. split; reflexivity. Qed.

(** What the pattern of the sweep matches. *)
Example glob_pattern_matches :
  glob_match_mp3 "tmpk3v9x2qa.mp3" = true
  /\ glob_match_mp3 "notes.txt" = false
  /\ glob_match_mp3 "EPISODE.MP3" = false
  /\ glob_match_mp3 ".hidden.mp3" = false.
Proof. repeat split; reflexivity. Qed.

(** A Google Docs address goes to the Google Docs reader. *)
Example google_docs_url_recognized :
  is_google_docs_url "https://docs.google.com/document/d/1AbC/edit" = true
  /\ is_google_docs_url "tides.pdf" = false
  /\ is_google_docs_url "ftp://docs.google.com/x" = false.
Proof. repeat split; reflexivity. Qed.

(** The pauses [wait_exponential(multiplier=1, min=4, max=60)] gives
    after attempts 1 to 8: the floor of 4 s holds for three attempts and
    the ceiling of 60 s is reached at the eighth.  (Releases of tenacity
    that raise 2 to the attempt number, not to the attempt number minus
    one, give this sequence from its second term: still two equal pauses
    first.) *)
Example wait_exponential_values :
  map (wait_exponential 1 4 60) (seq 1 8)
  = [4000; 4000; 4000; 8000; 16000; 32000; 60000; 60000]%Z.
Proof. reflexivity. Qed.

(** C3, the claim as stated fails: under a rate limit that lasts, the
    pauses of [get_mp3] are 4, 4, 4 and 8 seconds, which is not a
    strictly increasing sequence. *)
Lemma get_mp3_pauses_not_strictly_increasing :
  sleeps (trace (snd (get_mp3 rate_limited "Welcome to the show." "alloy"
                        None nothing)))
  = [4000; 4000; 4000; 8000]%Z
  /\ ~ Sorted Z.lt
       (sleeps (trace (snd (get_mp3 rate_limited "Welcome to the show." "alloy"
                              None nothing)))).
Proof.
  assert (E : sleeps (trace (snd (get_mp3 rate_limited "Welcome to the show."
                                    "alloy" None nothing)))
              = [4000; 4000; 4000; 8000]%Z) by (vm_compute; reflexivity).
  split; [exact E|]. rewrite E. intros H.
  inversion H as [|a l Hs Hd]; subst.
  inversion Hd as [|b l' Hlt]; subst. lia.
Qed.

(** The amended property on the service that always answers 429. *)
Lemma get_mp3_sustained_rate_limit_witness :
  exists m evs,
    get_mp3 rate_limited "Welcome to the show." "alloy" None nothing
    = (Raise (RetryError (RateLimitError m)), extend nothing evs)
    /\ count_tts evs = 5
    /\ sleeps evs = [4000; 4000; 4000; 8000]%Z.
Proof.
  destruct (get_mp3_sustained_rate_limit rate_limited
              "Welcome to the show." "alloy" None nothing)
    as (m & evs & Hrun & Hcount & Hsleeps & _).
  - intros j _. eexists. reflexivity.
  - exists m, evs. split; [exact Hrun|]. split; [exact Hcount | exact Hsleeps].
Defined.

(** A request rejected with a 400 is not tried again. *)
Lemma get_mp3_no_retry_on_other_error_witness :
  get_mp3 rejecting "Glad to be here." "onyx" None nothing
  = (Raise (OtherError "BadRequestError" "Error code: 400"),
     extend nothing [EvTts "Glad to be here." "onyx" (Some "sk-test")]).
Proof.
  apply (get_mp3_no_retry_on_other_error rejecting
           "Glad to be here." "onyx" None nothing
           (OtherError "BadRequestError" "Error code: 400"));
    reflexivity.
Defined.

(** C5, the claim as stated fails: when the model never answers with a
    valid dialogue, no amount of fuel brings [generate_audio] to an end:
    it neither returns nor raises. *)
Lemma generate_audio_never_gives_up_on_validation :
  ~ exists fuel,
      fst (generate_audio never_valid fuel "tides.pdf" None nothing) <> OutOfFuel.
Proof.
  intros [fuel H]. apply H. clear H.
  unfold generate_audio.
  change (negb (PyStr.truthy_opt
                  (PyStr.or_ (env_OPENAI_API_KEY never_valid) None)))
    with false.
  cbv iota. unfold produce. unfold bind at 1 2.
  destruct (read_document never_valid "tides.pdf" nothing) as [r0 w0] eqn:Hdoc.
  vm_compute in Hdoc. inversion Hdoc; subst r0 w0; clear Hdoc.
  unfold bind at 1.
  match goal with
  | |- context [generate_dialogue never_valid fuel ?t ?w] =>
      destruct (generate_dialogue_goes_on never_valid t fuel 1 w)
        as (evs & Hrun & _);
      [intros j _; eexists; reflexivity|];
      unfold generate_dialogue; rewrite Hrun
  end.
  reflexivity.
Qed.

(** Two answers fail validation, the third is returned. *)
Lemma generate_dialogue_retries_without_bound_witness :
  exists evs,
    generate_dialogue valid_at_third 3 "Notes on tides." nothing
    = (Ret script, extend nothing evs)
    /\ count_llm evs = 3.
Proof.
  destruct (generate_dialogue_retries_without_bound valid_at_third
              "Notes on tides." nothing 2) as (_ & Hvalid & _).
  - intros j Hj. destruct j as [|[|j]]; [eexists; reflexivity.. | lia].
  - apply (Hvalid script 3); [reflexivity | lia].
Defined.

(** C6, the claim as stated fails: the removal of [a.mp3] raises
    during the sweep and [generate_audio] raises that very error, after
    the audio and the transcript were produced: neither comes back. *)
Lemma sweep_error_is_raised_to_caller :
  fst (generate_audio locked 1 "tides.pdf" None stale)
  = Raise (OSError "[Errno 13] Permission denied")
  /\ last (trace (snd (generate_audio locked 1 "tides.pdf" None stale))) EvClock
     = EvRemove "a.mp3" false
  /\ exists st w1, produce locked 1 "tides.pdf" None stale = (Ret st, w1).
Proof.
  split; [vm_compute; reflexivity|]. split; [vm_compute; reflexivity|].
  eexists. eexists. vm_compute. reflexivity.
Qed.

(** The amended property on the directory whose [a.mp3] is locked. *)
Lemma sweep_error_reaches_caller_witness :
  exists file e w',
    generate_audio locked 1 "tides.pdf" None stale = (Raise e, w')
    /\ remove_error locked file = Some e.
Proof.
  eapply (sweep_error_reaches_caller locked 1 "tides.pdf" None stale
            _ _ _ _ "a.mp3").
  - reflexivity.
  - vm_compute. reflexivity.
  - vm_compute. reflexivity.
  - reflexivity.
  - reflexivity.
  - reflexivity.
  - intros i _. vm_compute. reflexivity.
  - reflexivity.
Defined.

(** C7, the claim as stated fails: [b.mp3] is a regular file that
    [*.mp3] matches and it is older than the window at every reading of
    the clock, yet it is still there after the call: the removal of
    [a.mp3] raised and ended the sweep before it. *)
Lemma sweep_cut_short_leaves_old_file :
  glob_match_mp3 "b.mp3" = true
  /\ (forall i, (clock locked i - 0 > retention)%Z)
  /\ find_entry "b.mp3"
       (tmpdir (snd (generate_audio locked 1 "tides.pdf" None stale)))
     = Some (mkEntry "b.mp3" true 0 mp3_frame).
Proof.
  split; [reflexivity|]. split; [intros i; vm_compute; reflexivity|].
  vm_compute. reflexivity.
Qed.

(** When every removal works, the old [a.mp3] goes and the recent
    [c.mp3] stays. *)
Lemma sweep_retention_policy_witness :
  find_entry "a.mp3"
    (tmpdir (snd (generate_audio healthy 1 "tides.pdf" None stale)))
  = None
  /\ find_entry "c.mp3"
       (tmpdir (snd (generate_audio healthy 1 "tides.pdf" None stale)))
     = Some (mkEntry "c.mp3" true 199999000 mp3_frame).
Proof.
  destruct (sweep_retention_policy healthy 1 "tides.pdf" None stale _ _
              (surjective_pairing _)) as [Hold _].
  split.
  - apply (Hold "a.mp3" (mkEntry "a.mp3" true 0 mp3_frame)).
    + reflexivity.
    + eexists. vm_compute. reflexivity.
    + reflexivity.
    + reflexivity.
    + intros i _. vm_compute. reflexivity.
  - apply (Hold "c.mp3" (mkEntry "c.mp3" true 199999000 mp3_frame)).
    + reflexivity.
    + intros i _. vm_compute. discriminate.
Defined.

(** A PDF whose pages hold no text. *)
Lemma empty_document_aborts_before_any_call_witness :
  exists msg evs,
    generate_audio blank_pdf 1 "tides.pdf" None nothing
    = (Raise (GrError msg), extend nothing evs)
    /\ count_llm evs = 0
    /\ count_tts evs = 0
    /\ tmpdir (extend nothing evs) = tmpdir nothing.
Proof.
  apply (empty_document_aborts_before_any_call blank_pdf 1 "tides.pdf" None
           nothing ("  " ++ PyStr.nl ++ PyStr.nl ++ ""));
    reflexivity.
Defined.

(** A line whose request is rejected, after one line that went well. *)
Lemma failed_line_keeps_audio_and_counter_witness :
  exists evs,
    process_line rejecting None
      {| audio := mp3_frame; transcript := "female-1: Hello."; characters := 6 |}
      (mkItem "Glad to be here." male_1) nothing
    = (Ret {| audio := mp3_frame;
              transcript :=
                "female-1: Hello."
                ++ (transcript_line (mkItem "Glad to be here." male_1)
                    ++ failure_marker ++ PyStr.nl ++ PyStr.nl);
              characters := 6 |},
       extend nothing evs)
    /\ ~ In (EvSleep request_delay) evs.
Proof.
  eapply (failed_line_keeps_audio_and_counter rejecting None
            {| audio := mp3_frame; transcript := "female-1: Hello.";
               characters := 6 |}
            (mkItem "Glad to be here." male_1) nothing).
  vm_compute. reflexivity.
Defined.

(** * Further properties of [main.py] *)

(** ** Effects are only ever added to the trace *)

Lemma only_traces_appends {A} (m : M A) : only_traces m -> appends m.
Proof. intros H w. destruct (H w) as [evs E]. exists evs. now rewrite E. Qed.

Section Appends.

Context {A B : Type}.

Lemma appends_ret (a : A) : appends (ret a).
Proof. intros w; exists []; simpl; now rewrite app_nil_r. Qed.

Lemma appends_raise (e : exn) : appends (@raise A e).
Proof. intros w; exists []; simpl; now rewrite app_nil_r. Qed.

Lemma appends_bind (m : M A) (k : A -> M B) :
  appends m -> (forall a, appends (k a)) -> appends (bind m k).
Proof.
  intros Hm Hk w. destruct (Hm w) as [evs1 H1]. unfold bind.
  destruct (m w) as [[a|e|] w1]; simpl in H1;
    [| now exists evs1 | now exists evs1].
  destruct (Hk a w1) as [evs2 H2].
  exists (evs1 ++ evs2)%list. now rewrite H2, H1, app_assoc.
Qed.

(** What follows a computation comes after its effects. *)
Lemma bind_trace_after (m : M A) (k : A -> M B) :
  (forall a, appends (k a)) ->
  forall w, exists evs,
    trace (snd (bind m k w)) = (trace (snd (m w)) ++ evs)%list.
Proof.
  intros Hk w. unfold bind.
  destruct (m w) as [[a|e|] w1]; simpl;
    [apply Hk | exists []; now rewrite app_nil_r ..].
Qed.

End Appends.

Section PersistAppends.

Variable env : Env.

Lemma appends_mkstemp_inner pre suf :
  forall tries, appends (mkstemp_inner env tries pre suf).
Proof.
  induction tries as [|tries IH]; intros w; simpl.
  - exists []. now rewrite app_nil_r.
  - destruct (existsb _ (tmpdir w)).
    + destruct (IH (add_event
                      (EvCreate (pre ++ random_name env (length (trace w)) ++ suf)
                         false) w)) as [evs H].
      eexists. rewrite H. simpl. now rewrite <- app_assoc.
    + now eexists.
Qed.

Lemma appends_write_artifact data : appends (write_artifact env data).
Proof.
  unfold write_artifact.
  apply appends_bind; [apply appends_mkstemp_inner | intros nm].
  apply appends_bind; [|intros _; apply appends_ret].
  intros w. now eexists.
Qed.

Lemma appends_sweep_file file : appends (sweep_file env file).
Proof.
  intros w. rewrite sweep_file_cases.
  destruct (find_entry file (tmpdir w)) as [f|];
    [|exists []; simpl; now rewrite app_nil_r].
  destruct (e_is_file f); [|exists []; simpl; now rewrite app_nil_r].
  destruct (_ >? _)%Z; [|now eexists].
  destruct (remove_error env file); now eexists.
Qed.

Lemma appends_sweep_files : forall files, appends (sweep_files env files).
Proof.
  induction files as [|file rest IH]; simpl.
  - apply appends_ret.
  - apply appends_bind; [apply appends_sweep_file | intros _; exact IH].
Qed.

Lemma appends_persist st : appends (persist env st).
Proof.
  unfold persist.
  apply appends_bind; [apply appends_write_artifact | intros nm].
  apply appends_bind; [|intros _; apply appends_ret].
  unfold sweep. apply appends_bind; [|intros files; apply appends_sweep_files].
  intros w. exists []. simpl. now rewrite app_nil_r.
Qed.

(** The document source is asked first: the trace of [read_document]
    holds the reading of [file_or_url]. *)
Lemma read_document_reads file_or_url w :
  exists evs1 evs2,
    trace (snd (read_document env file_or_url w))
    = (trace w ++ evs1 ++ EvExtract file_or_url :: evs2)%list.
Proof.
  unfold read_document.
  destruct (is_google_docs_url file_or_url);
    unfold try_except, bind, logger_info, logger_error, emit, lift, ret, raise.
  - exists [EvLog LvInfo ("Processing Google Docs URL: " ++ file_or_url)].
    destruct (google_docs_text env file_or_url) as [t|e]; simpl.
    + destruct (negb _); simpl; eexists; rewrite <- ?app_assoc; reflexivity.
    + eexists; rewrite <- ?app_assoc; reflexivity.
  - exists [].
    destruct (pdf_pages env file_or_url) as [t|e]; simpl.
    + destruct (negb _); simpl; eexists; rewrite <- ?app_assoc; reflexivity.
    + eexists; rewrite <- ?app_assoc; reflexivity.
Qed.

Lemma truthy_or (a b : option string) :
  PyStr.truthy_opt (PyStr.or_ a b) = PyStr.truthy_opt a || PyStr.truthy_opt b.
Proof.
  destruct a as [s|]; simpl; [|reflexivity].
  destruct (PyStr.truthy s) eqn:E; simpl; [exact E | reflexivity].
Qed.

(** X1: [generate_audio] does nothing at all exactly when there is no
    API key, neither in the process environment nor in the argument
    ([None] and the empty string both count as no key): it then raises
    [gr.Error("OpenAI API key is required")] and the world is as it was.
    With a key in either place, the document source is read. *)
Theorem no_key_no_effect :
  forall (fuel : nat) (file_or_url : string) (key : option string)
         (w : World),
    (PyStr.truthy_opt (env_OPENAI_API_KEY env) || PyStr.truthy_opt key = false
     <-> snd (generate_audio env fuel file_or_url key w) = w)
    /\ (PyStr.truthy_opt (env_OPENAI_API_KEY env) || PyStr.truthy_opt key = false
        -> fst (generate_audio env fuel file_or_url key w)
           = Raise (GrError "OpenAI API key is required"))
    /\ (PyStr.truthy_opt (env_OPENAI_API_KEY env) || PyStr.truthy_opt key = true
        -> In (EvExtract file_or_url)
              (trace (snd (generate_audio env fuel file_or_url key w)))).
Proof.
  intros fuel file_or_url key w.
  assert (Hkey : PyStr.truthy_opt (env_OPENAI_API_KEY env) || PyStr.truthy_opt key = true
                 -> exists evs1 evs2,
                      trace (snd (generate_audio env fuel file_or_url key w))
                      = (trace w ++ evs1 ++ EvExtract file_or_url :: evs2)%list).
  { intros H. unfold generate_audio. rewrite truthy_or, H. cbn [negb].
    destruct (bind_trace_after (produce env fuel file_or_url key)
                (fun st => persist env st) (fun st => appends_persist st) w)
      as [evs3 H3].
    unfold produce in H3 at 2.
    destruct (bind_trace_after (read_document env file_or_url)
                (fun text_ =>
                   llm_output <- generate_dialogue env fuel text_ ;;
                   st <- synthesize_lines env key (dialogue llm_output)
                           empty_acc ;;
                   logger_info ("Generated " ++ str_of_nat (characters st)
                                ++ " characters of audio") ;;;
                   ret st)) with (w := w) as [evs4 H4].
    { intros t. apply only_traces_appends.
      apply only_traces_bind;
        [apply only_traces_retrying, only_traces_llm_call | intros d].
      apply only_traces_bind; [apply only_traces_synthesize_lines | intros st].
      apply only_traces_bind; [apply only_traces_emit | intros _].
      apply only_traces_ret. }
    destruct (read_document_reads file_or_url w) as (evs1 & evs2 & Hrd).
    exists evs1, (evs2 ++ evs4 ++ evs3)%list.
    rewrite H3, H4, Hrd, <- !app_assoc. reflexivity. }
  split; [split|split].
  - intros H. unfold generate_audio. now rewrite truthy_or, H.
  - intros Hw.
    destruct (PyStr.truthy_opt (env_OPENAI_API_KEY env) || PyStr.truthy_opt key)
      eqn:E; [|reflexivity].
    destruct (Hkey eq_refl) as (evs1 & evs2 & Htr).
    rewrite Hw in Htr. apply (f_equal (@length event)) in Htr.
    rewrite !length_app in Htr. simpl in Htr. lia.
  - intros H. unfold generate_audio. now rewrite truthy_or, H.
  - intros H. destruct (Hkey H) as (evs1 & evs2 & Htr).
    rewrite Htr. apply in_or_app. right. apply in_or_app. right. now left.
Qed.

End PersistAppends.

(** ** What the caller sees when the document cannot be used *)

(** Closes a goal [exists evs, run = (r, extend w evs) /\ ... /\ ...]
    once the run has been computed. *)
Ltac close_run :=
  eexists;
  split;
  [ unfold extend, add_event; simpl; rewrite <- ?app_assoc; reflexivity
  | split; reflexivity ].

Section DocumentFailures.

Variable env : Env.

Lemma read_document_failure file_or_url w e :
  (document_text env file_or_url = Err e
   \/ exists t, document_text env file_or_url = Ok t
                /\ whitespace_only t = true
                /\ e = no_text_error file_or_url) ->
  exists evs,
    read_document env file_or_url w
    = (Raise (GrError (failure_prefix file_or_url ++ exn_str env e)),
       extend w evs)
    /\ count_llm evs = 0
    /\ count_tts evs = 0.
Proof.
  unfold document_text, read_document, failure_prefix, no_text_error.
  destruct (is_google_docs_url file_or_url).
  - unfold try_except, bind, logger_info, logger_error, emit, lift, ret, raise.
    intros [H|(t & H & Hws & ->)]; rewrite H.
    + close_run.
    + apply strip_empty_iff in Hws. rewrite Hws. simpl.
      close_run.
  - unfold try_except, bind, logger_info, logger_error, emit, lift, ret, raise.
    destruct (pdf_pages env file_or_url) as [pages|e'] eqn:Hp.
    + intros [H|(t & H & Hws & ->)]; [discriminate|].
      apply strip_empty_iff in Hws.
      replace (PyStr.strip (PyStr.join (PyStr.nl ++ PyStr.nl) pages)) with ""
        by (symmetry; inversion H; subst t; exact Hws).
      simpl. close_run.
    + intros [H|(t & H & _)]; [|discriminate].
      inversion H; subst e'. simpl.
      close_run.
Qed.

(** X2: with an API key, whatever the document source raises comes
    out of [generate_audio] as a [gr.Error] whose message is "Failed to
    process PDF: " (or "Failed to process Google Docs: " for a Google
    Docs address) followed by [str] of that exception; a document
    without text comes out the same way, its own "No text content
    found" error wrapped like any other.  Neither the model nor the
    speech service has been called and the directory is untouched. *)
Theorem document_failure_is_wrapped :
  forall (fuel : nat) (file_or_url : string) (key : option string)
         (w : World) (e : exn),
    PyStr.truthy_opt (env_OPENAI_API_KEY env) || PyStr.truthy_opt key = true ->
    (document_text env file_or_url = Err e
     \/ exists t, document_text env file_or_url = Ok t
                  /\ whitespace_only t = true
                  /\ e = no_text_error file_or_url) ->
    exists evs,
      generate_audio env fuel file_or_url key w
      = (Raise (GrError (failure_prefix file_or_url ++ exn_str env e)),
         extend w evs)
      /\ count_llm evs = 0
      /\ count_tts evs = 0.
Proof.
  intros fuel file_or_url key w e Hkey Hdoc.
  destruct (read_document_failure file_or_url w e Hdoc) as (evs & Hrun & Hl & Ht).
  exists evs. unfold generate_audio. rewrite truthy_or, Hkey. cbn [negb].
  unfold produce, bind. rewrite Hrun. now repeat split.
Qed.

End DocumentFailures.

(** ** A call that has its document, its dialogue and its directory *)

Section Completion.

Variable env : Env.

Lemma truthy_strip t : whitespace_only t = false -> PyStr.truthy (PyStr.strip t) = true.
Proof.
  intros H. destruct (PyStr.strip t) eqn:E; [|reflexivity].
  apply strip_empty_iff in E. congruence.
Qed.








End Completion.

(** ** What the loop costs and what it asks for *)

Section LoopCost.

Variable env : Env.

Lemma total_app (l1 l2 : list Z) : total (l1 ++ l2) = (total l1 + total l2)%Z.
Proof. induction l1 as [|a l1 IH]; simpl; [reflexivity | rewrite IH; lia]. Qed.

Lemma total_cons (a : Z) (l : list Z) : total (a :: l) = (a + total l)%Z.
Proof. reflexivity. Qed.

Lemma total_waits_nonneg (l : list nat) :
  (0 <= total (map (wait_exponential 1 4 60) l))%Z.
Proof.
  induction l as [|a l IH]; simpl; [lia|].
  pose proof (wait_exponential_bounds a). lia.
Qed.

Lemma request_or_pause_one t v k :
  Forall (request_or_pause t v k) [EvTts t v k].
Proof. constructor; [now left | constructor]. Qed.

(** The loop of [get_mp3] from attempt [attempt] on: the requests and
    the pauses that are left. *)
Lemma retrying_get_mp3_cost t v k :
  forall (fuel attempt : nat) (w : World),
    attempt <= max_attempts -> max_attempts < attempt + fuel ->
    exists evs,
      snd (retrying fuel get_mp3_policy attempt (speech_request env t v k) w)
      = extend w evs
      /\ Forall (request_or_pause t v (effective_key env k)) evs
      /\ 1 <= count_tts evs <= S max_attempts - attempt
      /\ (total (sleeps evs)
          <= total (map (wait_exponential 1 4 60)
                      (seq attempt (max_attempts - attempt))))%Z.
Proof.
  induction fuel as [|fuel IH]; intros attempt w Hle Hlt; [lia|].
  pose proof (speech_request_world env t v k w) as Hw.
  pose proof (speech_request_total env t v k w) as Ht.
  pose proof (total_waits_nonneg (seq attempt (max_attempts - attempt))) as Hnn.
  assert (Hone : exists evs,
             extend w [EvTts t v (effective_key env k)] = extend w evs
             /\ Forall (request_or_pause t v (effective_key env k)) evs
             /\ 1 <= count_tts evs <= S max_attempts - attempt
             /\ (total (sleeps evs)
                 <= total (map (wait_exponential 1 4 60)
                             (seq attempt (max_attempts - attempt))))%Z).
  { exists [EvTts t v (effective_key env k)].
    split; [reflexivity|]. split; [apply request_or_pause_one|].
    split; [|exact Hnn].
  match goal with
  | |- context [count_tts [?a]] => change (count_tts [a]) with 1
  end. lia. }
  destruct (speech_request env t v k w) as [[b|e|] w1] eqn:E;
    simpl in Hw, Ht; subst w1; [| |contradiction].
  - rewrite (retrying_ret _ _ _ _ _ _ _ E). exact Hone.
  - destruct (retry_if get_mp3_policy e) eqn:Hr.
    + destruct (stop get_mp3_policy attempt) eqn:Hs.
      * rewrite (retrying_stop _ _ _ _ _ _ _ E Hr Hs). exact Hone.
      * rewrite (retrying_again _ _ _ _ _ _ _ E Hr Hs), extend_extend.
        change (stop get_mp3_policy attempt)
          with (max_attempts <=? attempt)%nat in Hs.
        apply Nat.leb_gt in Hs.
        match goal with
        | |- context [retrying fuel _ _ _ (extend w ?l)] =>
            destruct (IH (S attempt) (extend w l))
              as (evs & Hsnd & Hall & Hcount & Hsleep); [lia | lia |];
            exists (l ++ evs)%list
        end.
        rewrite Hsnd, extend_extend. split; [reflexivity|].
        split.
        { constructor; [now left|]. constructor; [|exact Hall].
          right. eexists. split; [reflexivity|]. apply wait_exponential_bounds. }
        split.
        { rewrite count_tts_app.
          match goal with
          | |- context [count_tts ([?a] ++ [?b])] =>
              change (count_tts ([a] ++ [b])) with 1
          end. lia. }
        rewrite sleeps_app, total_app.
        change (wait get_mp3_policy attempt) with (wait_exponential 1 4 60 attempt).
        replace (max_attempts - attempt) with (S (max_attempts - S attempt)) by lia.
        cbn [seq map sleeps app]. rewrite !total_cons. simpl (total []). lia.
    + rewrite (retrying_raise _ _ _ _ _ _ _ E Hr). exact Hone.
Qed.

Lemma loop_event_weaken lines lines' k evs :
  (forall line, In line lines -> In line lines') ->
  Forall (loop_event lines k) evs -> Forall (loop_event lines' k) evs.
Proof.
  intros Hsub. apply Forall_impl. intros [] H; simpl in *; auto.
  destruct H as (Hk & line & Hin & Ht & Hv).
  split; [exact Hk|]. exists line. auto.
Qed.

(** One turn of the loop: at least one request and at most
    [max_attempts], all for the line, and pauses of 20.2 s at most. *)
Lemma process_line_cost key st line w :
  exists evs,
    snd (process_line env key st line w) = extend w evs
    /\ Forall (loop_event [line] (effective_key env key)) evs
    /\ 1 <= count_tts evs <= max_attempts
    /\ (total (sleeps evs) <= 20200)%Z.
Proof.
  rewrite process_line_cases.
  unfold line_synthesis, bind, logger_info, emit, lift, ret.
  destruct (voice_ok line) as [v Hv]. rewrite Hv.
  destruct (retrying_get_mp3_cost (text line) v key max_attempts 1
              (add_event (EvLog LvInfo ("Generating audio for: "
                                        ++ speaker_value (speaker line))) w))
    as (evs & Hsnd & Hall & Hcount & Hsleep);
    [unfold max_attempts; lia | unfold max_attempts; lia |].
  change (retrying max_attempts get_mp3_policy 1
            (speech_request env (text line) v key))
    with (get_mp3 env (text line) v key) in Hsnd.
  change (total (map (wait_exponential 1 4 60) (seq 1 (max_attempts - 1))))
    with 20000%Z in Hsleep.
  assert (Hloop : Forall (loop_event [line] (effective_key env key)) evs).
  { revert Hall. apply Forall_impl. intros ev [->|(ms & -> & _)]; simpl; [|exact I].
    split; [reflexivity|]. exists line. split; [now left|]. now split. }
  pose proof (get_mp3_run env (text line) v key
                (add_event (EvLog LvInfo ("Generating audio for: "
                                          ++ speaker_value (speaker line))) w))
    as (_ & _ & _ & Htot).
  destruct (get_mp3 env (text line) v key _) as [[b|e|] w1];
    simpl in Hsnd, Htot; subst w1; [| |contradiction];
    rewrite add_event_extend, !extend_extend;
    eexists; (split; [reflexivity|]);
    (split;
     [ constructor; [exact I|]; apply Forall_app; split;
       [exact Hloop | constructor; [exact I | constructor]]
     |]);
    (split;
     [ rewrite !count_tts_app;
       repeat match goal with
              | |- context [count_tts [?a]] => change (count_tts [a]) with 0
              end; unfold max_attempts in *; lia
     |]);
    rewrite !sleeps_app, !total_app; simpl; unfold request_delay; lia.
Qed.

Lemma synthesize_lines_cost key :
  forall lines st w,
    exists evs,
      snd (synthesize_lines env key lines st w) = extend w evs
      /\ Forall (loop_event lines (effective_key env key)) evs
      /\ length lines <= count_tts evs <= max_attempts * length lines
      /\ (total (sleeps evs) <= 20200 * Z.of_nat (length lines))%Z.
Proof.
  induction lines as [|line rest IH]; intros st w.
  - exists []. simpl. rewrite extend_nil. repeat split; auto; lia.
  - simpl synthesize_lines. unfold bind.
    destruct (process_line_cost key st line w)
      as (evs1 & Hsnd1 & Hall1 & Hcount1 & Hsleep1).
    destruct (process_line env key st line w) as [[st'|e|] w1] eqn:E;
      simpl in Hsnd1; subst w1.
    + destruct (IH st' (extend w evs1)) as (evs2 & Hsnd2 & Hall2 & Hcount2 & Hsleep2).
      exists (evs1 ++ evs2)%list. rewrite Hsnd2, extend_extend.
      split; [reflexivity|].
      split.
      { apply Forall_app. split.
        - apply (loop_event_weaken [line]); [|exact Hall1].
          intros l [->|[]]. now left.
        - apply (loop_event_weaken rest); [|exact Hall2].
          intros l Hl. now right. }
      split; [rewrite count_tts_app; simpl length; lia|].
      rewrite sleeps_app, total_app. simpl length. lia.
    + rewrite process_line_cases in E.
      destruct (line_synthesis env key line w) as [[b|e'|] w1]; discriminate.
    + rewrite process_line_cases in E.
      destruct (line_synthesis_run env key line w) as (evs' & _ & _ & Htot).
      destruct (line_synthesis env key line w) as [[b|e'|] w1];
        [discriminate.. | contradiction].
Qed.

(** X4: on a dialogue of [N] lines the loop makes at least [N] and at
    most [5 N] requests to the speech service, and all its pauses
    together (the backoff and the 0.2 s after each line that went well)
    last at most 20.2 s times [N]. *)
Theorem loop_cost_is_bounded :
  forall (key : option string) (lines : list DialogueItem) (st : acc)
         (w : World),
    exists evs,
      snd (synthesize_lines env key lines st w) = extend w evs
      /\ length lines <= count_tts evs <= 5 * length lines
      /\ (total (sleeps evs) <= 20200 * Z.of_nat (length lines))%Z.
Proof.
  intros key lines st w.
  destruct (synthesize_lines_cost key lines st w) as (evs & H1 & _ & H3 & H4).
  exists evs. now repeat split.
Qed.

(** X5: the loop asks the speech service for nothing but the lines:
    every request carries the text of a line of the dialogue, the voice
    that [DialogueItem.voice] gives for the speaker of that line, and the
    key of the argument (or, without one, that of the environment).
    Besides requests, the loop only logs and sleeps: it neither calls
    the model nor touches a file. *)
Theorem loop_requests_are_the_lines :
  forall (key : option string) (lines : list DialogueItem) (st : acc)
         (w : World),
    exists evs,
      snd (synthesize_lines env key lines st w) = extend w evs
      /\ Forall (loop_event lines (effective_key env key)) evs.
Proof.
  intros key lines st w.
  destruct (synthesize_lines_cost key lines st w) as (evs & H1 & H2 & _).
  now exists evs.
Qed.

End LoopCost.

(** ** The file that is written, and the files that are spared *)

Section ArtifactMore.

Variable env : Env.







Lemma sweep_file_spares file w r w1 nm f :
  sweep_file env file w = (r, w1) ->
  find_entry nm (tmpdir w) = Some f ->
  nm <> file \/ e_is_file f = false ->
  find_entry nm (tmpdir w1) = Some f.
Proof.
  rewrite sweep_file_cases. intros Hrun Hf Hsp.
  destruct (String.eqb_spec nm file) as [->|Hne].
  - destruct Hsp as [Hne|Hdir]; [congruence|].
    rewrite Hf, Hdir in Hrun. inversion Hrun; now subst.
  - destruct (find_entry file (tmpdir w)) as [f'|]; [|inversion Hrun; now subst].
    destruct (e_is_file f'); [|inversion Hrun; now subst].
    destruct (_ >? _)%Z; [|inversion Hrun; now subst].
    destruct (remove_error env file); inversion Hrun; subst; simpl; [exact Hf|].
    now rewrite find_entry_without_other.
Qed.

Lemma sweep_files_spares :
  forall files w r w' nm f,
    sweep_files env files w = (r, w') ->
    find_entry nm (tmpdir w) = Some f ->
    ~ In nm files \/ e_is_file f = false ->
    find_entry nm (tmpdir w') = Some f.
Proof.
  induction files as [|file rest IH]; intros w r w' nm f Hrun Hf Hsp.
  - inversion Hrun; subst. exact Hf.
  - simpl in Hrun. unfold bind in Hrun.
    destruct (sweep_file env file w) as [r1 w1] eqn:E.
    assert (Hf1 : find_entry nm (tmpdir w1) = Some f).
    { apply (sweep_file_spares _ _ _ _ _ _ E Hf).
      destruct Hsp as [Hnin|Hdir]; [left | now right].
      intros ->. apply Hnin. now left. }
    destruct r1 as [[]|e|]; [|inversion Hrun; now subst..].
    apply (IH w1 r w' nm f Hrun Hf1).
    destruct Hsp as [Hnin|Hdir]; [left | now right].
    intros Hin. apply Hnin. now right.
Qed.

Lemma glob_lists_only_matches nm d :
  In nm (map e_name (filter (fun e => glob_match_mp3 (e_name e)) d)) ->
  glob_match_mp3 nm = true.
Proof.
  intros H. apply in_map_iff in H. destruct H as (e & <- & He).
  apply filter_In in He. apply He.
Qed.

(** X7: however old it is, a call of [generate_audio] never deletes
    an entry of the directory whose name [*.mp3] does not match (another
    extension, a hidden file) or that is not a regular file (a
    directory named like an artifact): it is found after the call as it
    was before, whether the call returns or raises. *)
Theorem sweep_spares_other_files :
  forall (fuel : nat) (file_or_url : string) (key : option string)
         (w : World) (r : outcome (string * string)) (w' : World)
         (nm : string) (f : entry),
    generate_audio env fuel file_or_url key w = (r, w') ->
    find_entry nm (tmpdir w) = Some f ->
    glob_match_mp3 nm = false \/ e_is_file f = false ->
    find_entry nm (tmpdir w') = Some f.
Proof.
  intros fuel file_or_url key w r w' nm f Hrun Hf Hsp.
  destruct (generate_audio_stages env _ _ _ _ _ _ Hrun)
    as [[Hsame _]
       |(st & w1 & nm0 & i0 & w2 & r2 & _ & _ & _ & Hdir2 & Hsweep & _)].
  - now rewrite Hsame.
  - apply (sweep_files_spares _ _ _ _ _ _ Hsweep).
    + rewrite Hdir2. now apply find_entry_app_l.
    + destruct Hsp as [Hno|Hdir]; [left | now right].
      intros Hin. apply glob_lists_only_matches in Hin. congruence.
Qed.

End ArtifactMore.

(** ** The entry point of the form *)

Section InputsProperties.

Variable env : Env.

Lemma whitespace_only_truthy u :
  PyStr.truthy u && PyStr.truthy (PyStr.strip u) = negb (whitespace_only u).
Proof.
  destruct (whitespace_only u) eqn:E.
  - apply strip_empty_iff in E. rewrite E. apply andb_false_r.
  - rewrite (truthy_strip u E), andb_true_r.
    destruct u; [discriminate | reflexivity].
Qed.

(** X8: which input [generate_audio_from_inputs] uses.  A Google Docs
    field that holds anything but whitespace wins, with or without an
    upload: the call is [generate_audio] on the field stripped of the
    whitespace around it.  With the field empty or blank, the upload is
    used, by its [name].  With neither, [gr.Error] is raised and nothing
    else happens. *)
Theorem input_selection :
  forall (fuel : nat) (pdf_file : option UploadedFile)
         (google_docs_url key : option string) (w : World),
    let run :=
      generate_audio_from_inputs env fuel pdf_file google_docs_url key w in
    (forall u, google_docs_url = Some u -> whitespace_only u = false ->
               run = generate_audio env fuel (PyStr.strip u) key w)
    /\ (forall f, blank google_docs_url = true -> pdf_file = Some f ->
                  run = generate_audio env fuel (file_name f) key w)
    /\ (blank google_docs_url = true -> pdf_file = None ->
        run = (Raise (GrError
                        "Please provide either a PDF file or a Google Docs URL"),
               w)).
Proof.
  intros fuel pdf_file google_docs_url key w run. subst run.
  unfold generate_audio_from_inputs, blank.
  split; [|split].
  - intros u -> Hws. now rewrite whitespace_only_truthy, Hws.
  - intros f Hb ->. destruct google_docs_url as [u|]; [|reflexivity].
    now rewrite whitespace_only_truthy, Hb.
  - intros Hb ->. destruct google_docs_url as [u|]; [|reflexivity].
    now rewrite whitespace_only_truthy, Hb.
Qed.

(** X9: text in the Google Docs field that is not a Google Docs
    address is opened as a PDF path, upload or no upload.  With an API
    key, if the field holds more than whitespace, its stripped text is
    not recognized as a Google Docs address and cannot be opened as a
    file, the call raises "Failed to process PDF: ..." for that text;
    the only reading attempted is of that text, so an uploaded file is
    never read. *)
Theorem stray_url_shadows_upload :
  forall (fuel : nat) (pdf_file : option UploadedFile) (u : string)
         (key : option string) (w : World) (e : exn),
    PyStr.truthy_opt (env_OPENAI_API_KEY env) || PyStr.truthy_opt key = true ->
    whitespace_only u = false ->
    is_google_docs_url (PyStr.strip u) = false ->
    pdf_pages env (PyStr.strip u) = Err e ->
    generate_audio_from_inputs env fuel pdf_file (Some u) key w
    = (Raise (GrError ("Failed to process PDF: " ++ exn_str env e)),
       extend w [EvExtract (PyStr.strip u);
                 EvLog LvError ("Error processing PDF: " ++ exn_str env e)]).
Proof.
  intros fuel pdf_file u key w e Hkey Hws Hurl Hpdf.
  unfold generate_audio_from_inputs.
  rewrite whitespace_only_truthy, Hws. cbn [negb].
  unfold generate_audio. rewrite truthy_or, Hkey. cbn [negb].
  unfold produce, bind at 1 2. unfold read_document. rewrite Hurl.
  unfold try_except, bind, logger_error, emit, lift, raise. rewrite Hpdf.
  unfold extend, add_event; simpl. now rewrite <- app_assoc.
Qed.

End InputsProperties.

(** * Properties of [google_docs.py] *)

(** ** Document identifiers *)

Section DocumentIds.

Import GoogleDocs.

Lemma span_id_app (id rest : string) :
  is_id id = true -> stops_id rest = true ->
  span_id (id ++ rest) = (id, rest).
Proof.
  unfold is_id. induction id as [|c id IH]; simpl; intros Hid Hrest.
  - destruct rest as [|c r]; [reflexivity|]. simpl in Hrest.
    apply negb_true_iff in Hrest. simpl. now rewrite Hrest.
  - apply andb_true_iff in Hid. destruct Hid as [Hc Hid].
    now rewrite Hc, IH.
Qed.

Lemma span_id_parts (s : string) :
  s = fst (span_id s) ++ snd (span_id s) /\ is_id (fst (span_id s)) = true.
Proof.
  unfold is_id. induction s as [|c s [IH1 IH2]]; simpl; [now split|].
  destruct (is_id_char c) eqn:Hc; [|now split].
  destruct (span_id s) as [run rest]. simpl in *.
  split; [now rewrite <- IH1 | now rewrite Hc].
Qed.

Lemma strip_prefix_app (lit s : string) : strip_prefix lit (lit ++ s) = Some s.
Proof.
  induction lit as [|c lit IH]; simpl; [reflexivity|].
  now rewrite Ascii.eqb_refl.
Qed.

Lemma re_search_here (p : pattern) (s g : string) :
  match_here p s = Some g -> re_search p s = Some g.
Proof. intros H. destruct s; simpl; now rewrite H. Qed.

Lemma re_search_skip (p : pattern) (c : ascii) (s : string) :
  match_here p (String c s) = None ->
  re_search p (String c s) = re_search p s.
Proof. intros H. simpl re_search. now rewrite H. Qed.

(** A match at the start of [literal ++ id ++ rest]. *)
Lemma match_here_id (lit id rest : string) :
  is_id id = true -> id <> "" -> stops_id rest = true ->
  match_here (mkPattern lit "") (lit ++ id ++ rest) = Some id.
Proof.
  intros Hid Hne Hrest. unfold match_here. simpl literal.
  rewrite strip_prefix_app, span_id_app by assumption.
  destruct id; [congruence|]. simpl. now destruct rest.
Qed.

(** X10: the address of a document gives back its identifier.  For
    every non-empty identifier over letters, digits, hyphen and
    underscore, and whatever follows it that does not go on with such a
    character ([/edit], [/view], a query, nothing), the identifier
    extracted from [http(s)://docs.google.com/document/d/<id><rest>] is
    [<id>]. *)
Theorem doc_id_of_document_address :
  forall (id rest : string),
    is_id id = true -> id <> "" -> stops_id rest = true ->
    extract_doc_id_from_url
      ("https://docs.google.com/document/d/" ++ id ++ rest) = Some id
    /\ extract_doc_id_from_url
         ("http://docs.google.com/document/d/" ++ id ++ rest) = Some id.
Proof.
  intros id rest Hid Hne Hrest.
  pose proof (match_here_id "/document/d/" id rest Hid Hne Hrest) as Hm.
  apply re_search_here in Hm.
  split; unfold extract_doc_id_from_url, patterns; cbn [first_match];
    cbn [append]; repeat (rewrite re_search_skip by reflexivity);
    change (String "/" (String "d" (String "o" (String "c" (String "u"
             (String "m" (String "e" (String "n" (String "t" (String "/"
             (String "d" (String "/" (id ++ rest)))))))))))))
      with ("/document/d/" ++ id ++ rest);
    now rewrite Hm.
Qed.

Lemma strip_prefix_needs (c : ascii) :
  forall lit s,
    In c (list_ascii_of_string lit) -> ~ In c (list_ascii_of_string s) ->
    strip_prefix lit s = None.
Proof.
  induction lit as [|a lit IH]; intros s Hin Hnot; [contradiction|].
  destruct s as [|b s]; [reflexivity|]. simpl.
  destruct (Ascii.eqb_spec a b) as [->|Hab]; [|reflexivity].
  simpl in Hin, Hnot. apply IH.
  - destruct Hin as [->|Hin]; [|exact Hin]. exfalso. apply Hnot. now left.
  - intros H. apply Hnot. now right.
Qed.

Lemma re_search_needs (p : pattern) (c : ascii) :
  In c (list_ascii_of_string (literal p)) ->
  forall s, ~ In c (list_ascii_of_string s) -> re_search p s = None.
Proof.
  intros Hin. induction s as [|b s IH]; intros Hnot.
  - simpl. unfold match_here. now rewrite (strip_prefix_needs c).
  - simpl re_search. unfold match_here.
    rewrite (strip_prefix_needs c) by assumption.
    apply IH. intros H. apply Hnot. now right.
Qed.

Lemma is_id_chars (s : string) (c : ascii) :
  is_id s = true -> In c (list_ascii_of_string s) -> is_id_char c = true.
Proof. unfold is_id. rewrite forallb_forall. auto. Qed.

Lemma list_ascii_app (a b : string) :
  list_ascii_of_string (a ++ b)
  = (list_ascii_of_string a ++ list_ascii_of_string b)%list.
Proof. induction a as [|c a IH]; simpl; [reflexivity | now rewrite IH]. Qed.

Lemma first_match_bare (s : string) :
  (forall c, In c (list_ascii_of_string s) ->
             is_id_char c = true \/ c = "010"%char) ->
  first_match patterns s = None.
Proof.
  intros H. unfold patterns. cbn [first_match].
  assert (Hslash : ~ In "/"%char (list_ascii_of_string s)).
  { intros Hin. destruct (H _ Hin) as [Hc|Hc]; discriminate. }
  assert (Heq : ~ In "="%char (list_ascii_of_string s)).
  { intros Hin. destruct (H _ Hin) as [Hc|Hc]; discriminate. }
  rewrite !(re_search_needs _ "/"%char) by (simpl; tauto || exact Hslash).
  rewrite (re_search_needs _ "="%char) by (simpl; tauto || exact Heq).
  reflexivity.
Qed.

(** X11: an identifier given alone is taken as it is: for a
    non-empty string of letters, digits, hyphens and underscores,
    [extract_doc_id_from_url] returns that string.  The same string
    with one newline after it is also taken, newline included ([$]
    matches before a final newline). *)
Theorem bare_id_is_its_own_id :
  forall id : string,
    is_id id = true -> id <> "" ->
    extract_doc_id_from_url id = Some id
    /\ extract_doc_id_from_url (id ++ PyStr.nl) = Some (id ++ PyStr.nl).
Proof.
  intros id Hid Hne. unfold extract_doc_id_from_url, is_bare_id. split.
  - rewrite first_match_bare.
    2:{ intros c Hc. left. now apply (is_id_chars id). }
    rewrite <- (append_empty_r id) at 1.
    rewrite span_id_app by (assumption || reflexivity).
    destruct id; [congruence | reflexivity].
  - rewrite first_match_bare.
    2:{ intros c Hc. rewrite list_ascii_app in Hc. apply in_app_or in Hc.
        destruct Hc as [Hc|[Hc|[]]]; [left; now apply (is_id_chars id) | now right]. }
    rewrite span_id_app by (assumption || reflexivity).
    destruct id; [congruence | reflexivity].
Qed.

Lemma match_here_sound (p : pattern) (s g : string) :
  match_here p s = Some g -> g <> "" /\ is_id g = true.
Proof.
  unfold match_here. destruct (strip_prefix (literal p) s) as [after|]; [|discriminate].
  pose proof (span_id_parts after) as [_ Hid].
  destruct (span_id after) as [run rest]. simpl in Hid.
  destruct (PyStr.truthy run) eqn:Ht; [|discriminate].
  destruct (prefix (trailer p) rest); [|discriminate].
  intros H; inversion H; subst g. split; [|exact Hid].
  intros ->. discriminate.
Qed.

Lemma re_search_sound (p : pattern) :
  forall s g, re_search p s = Some g -> g <> "" /\ is_id g = true.
Proof.
  induction s as [|c s IH]; intros g; simpl re_search;
    destruct (match_here p _) eqn:E.
  - intros H; inversion H; subst. now apply (match_here_sound p EmptyString).
  - discriminate.
  - intros H; inversion H; subst. now apply (match_here_sound p (String c s)).
  - apply IH.
Qed.

Lemma first_match_sound (url g : string) :
  first_match patterns url = Some g -> g <> "" /\ is_id g = true.
Proof.
  unfold patterns. cbn [first_match].
  repeat match goal with
         | |- context [re_search ?p url] =>
             let H := fresh in
             destruct (re_search p url) eqn:H;
             [intros E; inversion E; subst; now apply (re_search_sound p url)|]
         end.
  discriminate.
Qed.

Lemma is_bare_id_nonempty (url : string) : is_bare_id url = true -> url <> "".
Proof.
  unfold is_bare_id. pose proof (span_id_parts url) as [Hparts _].
  destruct (span_id url) as [run rest]. simpl in Hparts.
  destruct (PyStr.truthy run) eqn:Ht; simpl; [|discriminate].
  intros _ Hurl. rewrite Hurl in Hparts. destruct run; discriminate.
Qed.

Lemma doc_id_truthy (url r : string) :
  extract_doc_id_from_url url = Some r -> PyStr.truthy r = true.
Proof.
  unfold extract_doc_id_from_url.
  destruct (first_match patterns url) as [g|] eqn:E.
  - intros H; inversion H; subst g.
    apply first_match_sound in E. destruct E as [E _].
    destruct r; [congruence | reflexivity].
  - destruct (is_bare_id url) eqn:B; [|discriminate].
    intros H; inversion H; subst r.
    apply is_bare_id_nonempty in B. destruct url; [congruence | reflexivity].
Qed.

(** X12: what [extract_doc_id_from_url] returns is never the empty
    string (so the test [if not doc_id] of its caller is the test for
    [None]), and it is either a string of letters, digits, hyphens and
    underscores found by one of the expressions, or the argument
    itself. *)
Theorem doc_id_is_well_formed :
  forall url r : string,
    extract_doc_id_from_url url = Some r ->
    r <> "" /\ (is_id r = true \/ r = url).
Proof.
  intros url r. unfold extract_doc_id_from_url.
  destruct (first_match patterns url) as [g|] eqn:E.
  - intros H; inversion H; subst g. clear H.
    apply first_match_sound in E. split; [apply E | left; apply E].
  - destruct (is_bare_id url) eqn:B; [|discriminate].
    intros H; inversion H; subst r. split; [|now right].
    now apply is_bare_id_nonempty.
Qed.

Lemma match_here_without_trailer (lit tr s g : string) :
  match_here (mkPattern lit tr) s = Some g ->
  match_here (mkPattern lit "") s = Some g.
Proof.
  unfold match_here. simpl literal. simpl trailer.
  destruct (strip_prefix lit s) as [after|]; [|discriminate].
  destruct (span_id after) as [run rest].
  destruct (PyStr.truthy run); simpl; [|discriminate].
  destruct (prefix tr rest); [|discriminate].
  now destruct rest.
Qed.

Lemma re_search_without_trailer (lit tr : string) :
  forall s, re_search (mkPattern lit "") s = None ->
            re_search (mkPattern lit tr) s = None.
Proof.
  induction s as [|c s IH]; simpl re_search;
    destruct (match_here (mkPattern lit "") _) eqn:E; try discriminate;
    destruct (match_here (mkPattern lit tr) _) eqn:E';
    try (apply match_here_without_trailer in E'; congruence);
    auto.
Qed.

(** X13: the expressions for [/edit] and [/view] never decide.
    Wherever one of them matches, the first expression, which asks for
    the same thing without the ending, has matched already: for every
    argument the result is the one the first and the last expression
    alone would give. *)
Theorem edit_and_view_patterns_never_decide :
  forall url : string,
    first_match patterns url
    = first_match [mkPattern "/document/d/" ""; mkPattern "id=" ""] url.
Proof.
  intros url. unfold patterns. cbn [first_match].
  destruct (re_search (mkPattern "/document/d/" "") url) eqn:E; [reflexivity|].
  now rewrite !(re_search_without_trailer _ _ _ E).
Qed.

End DocumentIds.

(** ** The text of a document *)

Section DocumentText.

Import GoogleDocs.

Lemma concat_without_separator (l : list string) :
  String.concat "" l = join_all l.
Proof.
  induction l as [|x l IH]; [reflexivity|].
  destruct l as [|y l]; simpl in *; [now rewrite append_empty_r|].
  now rewrite IH.
Qed.

Lemma paragraph_loop_spec :
  forall (els : list ParagraphElement) (text_parts : list string),
    paragraph_loop els text_parts
    = if forallb has_text
           (flat_map (fun el => match textRun el with Some r => [r] | None => [] end)
              els)
      then Ok (text_parts
               ++ map run_text
                    (flat_map
                       (fun el => match textRun el with Some r => [r] | None => [] end)
                       els))%list
      else Err (KeyError "content").
Proof.
  induction els as [|el els IH]; intros text_parts; simpl.
  - now rewrite app_nil_r.
  - destruct (textRun el) as [r|]; [|apply IH]. simpl.
    unfold has_text at 1, run_text at 1.
    destruct (run_content r) as [c|]; [|reflexivity]. simpl.
    rewrite IH. destruct (forallb _ _); [|reflexivity].
    now rewrite <- app_assoc.
Qed.

Lemma extract_text_from_paragraph_spec (p : Paragraph) :
  _extract_text_from_paragraph p
  = if forallb has_text (text_runs p) then Ok (paragraph_text p)
    else Err (KeyError "content").
Proof.
  unfold _extract_text_from_paragraph, paragraph_text, text_runs, PyStr.join.
  destruct (elements p) as [els|]; [|reflexivity].
  rewrite paragraph_loop_spec. destruct (forallb _ _); [|reflexivity].
  simpl. now rewrite concat_without_separator.
Qed.

Lemma document_loop_spec :
  forall (els : list StructuralElement) (text_parts : list string),
    document_loop els text_parts
    = if forallb (fun p => forallb has_text (text_runs p))
           (flat_map (fun el => match paragraph el with Some p => [p] | None => [] end)
              els)
      then Ok (text_parts
               ++ map paragraph_text
                    (flat_map
                       (fun el => match paragraph el with Some p => [p] | None => [] end)
                       els))%list
      else Err (KeyError "content").
Proof.
  induction els as [|el els IH]; intros text_parts; simpl.
  - now rewrite app_nil_r.
  - destruct (paragraph el) as [p|]; [|apply IH]. simpl.
    rewrite extract_text_from_paragraph_spec.
    destruct (forallb has_text (text_runs p)); [|reflexivity]. simpl.
    rewrite IH. destruct (forallb _ _); [|reflexivity].
    now rewrite <- app_assoc.
Qed.

Lemma extract_text_from_document_ok (d : Document) :
  well_formed d = true ->
  _extract_text_from_document d
  = Ok (PyStr.join (PyStr.nl ++ PyStr.nl) (map paragraph_text (paragraphs d))).
Proof.
  unfold well_formed, _extract_text_from_document, paragraphs.
  destruct (body d) as [b|]; [|reflexivity].
  destruct (content b) as [els|]; [|reflexivity].
  rewrite document_loop_spec. now intros ->.
Qed.

(** X14: the text of a document is the texts of its paragraphs, in
    order, joined by blank lines, where the text of a paragraph is the
    contents of its text runs one after another; whatever else the
    document holds (tables, section breaks, inline objects) adds
    nothing.  The one failure is a text run without ["content"], which
    raises [KeyError('content')]. *)
Theorem document_text_is_its_paragraphs :
  forall d : Document,
    _extract_text_from_document d
    = if well_formed d
      then Ok (PyStr.join (PyStr.nl ++ PyStr.nl)
                 (map paragraph_text (paragraphs d)))
      else Err (KeyError "content").
Proof.
  intros d. unfold well_formed, _extract_text_from_document, paragraphs.
  destruct (body d) as [b|]; [|reflexivity].
  destruct (content b) as [els|]; [|reflexivity].
  rewrite document_loop_spec. now destruct (forallb _ _).
Qed.

Lemma whitespace_only_app (a b : string) :
  whitespace_only (a ++ b) = whitespace_only a && whitespace_only b.
Proof.
  unfold whitespace_only. induction a as [|c a IH]; simpl; [reflexivity|].
  now rewrite IH, andb_assoc.
Qed.

Lemma whitespace_only_join_all (l : list string) :
  forallb whitespace_only l = true -> whitespace_only (join_all l) = true.
Proof.
  induction l as [|x l IH]; simpl; [reflexivity|].
  intros H. apply andb_true_iff in H. destruct H as [Hx Hl].
  now rewrite whitespace_only_app, Hx, IH.
Qed.

Lemma whitespace_only_concat (sep : string) (l : list string) :
  whitespace_only sep = true -> forallb whitespace_only l = true ->
  whitespace_only (String.concat sep l) = true.
Proof.
  intros Hsep. induction l as [|x l IH]; [reflexivity|].
  intros H. simpl in H. apply andb_true_iff in H. destruct H as [Hx Hl].
  destruct l as [|y l]; [exact Hx|].
  change (String.concat sep (x :: y :: l))
    with (x ++ sep ++ String.concat sep (y :: l)).
  now rewrite !whitespace_only_app, Hx, Hsep, IH.
Qed.

(** A document none of whose text runs holds more than whitespace
    has a text of whitespace only. *)
Lemma textless_document (d : Document) :
  well_formed d = true -> textless d = true ->
  exists t, _extract_text_from_document d = Ok t /\ whitespace_only t = true.
Proof.
  intros Hhas Hws. unfold textless in Hws.
  assert (Hparts : forallb whitespace_only (map paragraph_text (paragraphs d)) = true).
  { apply forallb_forall. intros t Ht. apply in_map_iff in Ht.
    destruct Ht as (p & <- & Hp).
    rewrite forallb_forall in Hws. specialize (Hws p Hp).
    apply whitespace_only_join_all. apply forallb_forall.
    intros t Ht. apply in_map_iff in Ht. destruct Ht as (r & <- & Hr).
    rewrite forallb_forall in Hws. now apply Hws. }
  exists (PyStr.join (PyStr.nl ++ PyStr.nl) (map paragraph_text (paragraphs d))).
  split; [now apply extract_text_from_document_ok | now apply whitespace_only_concat].
Qed.

End DocumentText.

(** ** The client and the OAuth flow *)

Section ClientProperties.

Import GoogleDocs.

Variable g : Google.

Lemma logged_nil s : logged s [] = s.
Proof. destruct s. unfold logged. cbn. now rewrite app_nil_r. Qed.

Lemma logged_logged s a b : logged (logged s a) b = logged s (a ++ b).
Proof. unfold logged. cbn. now rewrite app_assoc. Qed.

Lemma build_service_cases self creds s :
  build_service g self creds s
  = match build_error g creds with
    | Some e => (Err e, s)
    | None =>
        (Ok {| credentials_path := credentials_path self;
               redirect_uri := redirect_uri self;
               service := Some creds |},
         logged s [GBuild;
                   GLog INFO "Successfully authenticated with Google Docs API"])
    end.
Proof.
  unfold build_service. destruct (build_error g creds); [reflexivity|].
  unfold gbind, call, logger, call, gret, logged. cbn. now rewrite <- app_assoc.
Qed.

(** [GoogleDocsClient(path, uri)], case by case. *)
Lemma new_client_cases path uri s :
  new_client g path uri s
  = let self := {| credentials_path := or_default path "credentials.json";
                   redirect_uri :=
                     or_default uri "http://localhost:7860/oauth2callback";
                   service := None |} in
    let refused :=
      (Err (not_authenticated_error (or_default path "credentials.json") s), s) in
    match file_text "token.json" (files s) with
    | None => refused
    | Some t =>
        match from_authorized_user_file g t with
        | Err e => (Err e, s)
        | Ok c =>
            if valid c then build_service g self c s
            else if expired c && PyStr.truthy_opt (refresh_token c) then
              match refresh g c with
              | Ok c' => build_service g self c' (logged s [GRefresh])
              | Err e => (Err e, logged s [GRefresh])
              end
            else refused
        end
    end.
Proof.
  unfold new_client, _authenticate, not_authenticated_error.
  unfold gbind at 1 2. unfold os_path_exists at 1.
  cbn [credentials_path].
  destruct (file_text "token.json" (files s)) as [t|] eqn:Ht.
  - unfold gbind at 1 2. unfold read_file. rewrite Ht.
    destruct (from_authorized_user_file g t) as [c|e]; cbn [glift gret graise];
      [|reflexivity].
    destruct (valid c); [reflexivity|].
    destruct (expired c && PyStr.truthy_opt (refresh_token c)).
    + unfold gbind, call. cbn.
      destruct (refresh g c); reflexivity.
    + unfold gbind, os_path_exists. cbn.
      destruct (file_text (or_default path "credentials.json") (files s));
        reflexivity.
  - cbn [gret]. unfold gbind, os_path_exists. cbn.
    destruct (file_text (or_default path "credentials.json") (files s));
      reflexivity.
Qed.

Lemma new_client_made path uri s client s' :
  new_client g path uri s = (Ok client, s') ->
  exists creds refreshed,
    usable_credentials g s = Some creds
    /\ build_error g creds = None
    /\ client = {| credentials_path := or_default path "credentials.json";
                   redirect_uri :=
                     or_default uri "http://localhost:7860/oauth2callback";
                   service := Some creds |}
    /\ s' = logged s (authentication_calls refreshed).
Proof.
  rewrite new_client_cases. cbv zeta. unfold usable_credentials.
  destruct (file_text "token.json" (files s)) as [t|]; [|discriminate].
  destruct (from_authorized_user_file g t) as [c|e]; [|discriminate].
  destruct (valid c).
  - rewrite build_service_cases. destruct (build_error g c) eqn:Hb; [discriminate|].
    intros H; inversion H; subst. exists c, false. now repeat split.
  - destruct (expired c && PyStr.truthy_opt (refresh_token c)); [|discriminate].
    destruct (refresh g c) as [c'|e]; [|discriminate].
    rewrite build_service_cases. destruct (build_error g c') eqn:Hb; [discriminate|].
    intros H; inversion H; subst. exists c', true.
    rewrite logged_logged. now repeat split.
Qed.

Lemma new_client_refused path uri s e s' :
  new_client g path uri s = (Err e, s') ->
  s' = s \/ s' = logged s [GRefresh].
Proof.
  rewrite new_client_cases. cbv zeta.
  destruct (file_text "token.json" (files s)) as [t|];
    [|intros H; inversion H; now left].
  destruct (from_authorized_user_file g t) as [c|e0];
    [|intros H; inversion H; now left].
  destruct (valid c).
  - rewrite build_service_cases. destruct (build_error g c); [|discriminate].
    intros H; inversion H; now left.
  - destruct (expired c && PyStr.truthy_opt (refresh_token c));
      [|intros H; inversion H; now left].
    destruct (refresh g c) as [c'|e0]; [|intros H; inversion H; now right].
    rewrite build_service_cases. destruct (build_error g c'); [|discriminate].
    intros H; inversion H; now right.
Qed.

Lemma new_client_authenticated path uri s creds :
  usable_credentials g s = Some creds ->
  build_error g creds = None ->
  exists refreshed,
    new_client g path uri s
    = (Ok {| credentials_path := or_default path "credentials.json";
             redirect_uri :=
               or_default uri "http://localhost:7860/oauth2callback";
             service := Some creds |},
       logged s (authentication_calls refreshed)).
Proof.
  rewrite new_client_cases. cbv zeta. unfold usable_credentials.
  destruct (file_text "token.json" (files s)) as [t|]; [|discriminate].
  destruct (from_authorized_user_file g t) as [c|e]; [|discriminate].
  destruct (valid c).
  - intros H Hb; inversion H; subst. exists false.
    rewrite build_service_cases, Hb. reflexivity.
  - destruct (expired c && PyStr.truthy_opt (refresh_token c)); [|discriminate].
    destruct (refresh g c) as [c'|e]; [|discriminate].
    intros H Hb; inversion H; subst. exists true.
    rewrite build_service_cases, Hb, logged_logged. reflexivity.
Qed.

Lemma new_client_without_token path uri s :
  file_text "token.json" (files s) = None ->
  new_client g path uri s
  = (Err (not_authenticated_error (or_default path "credentials.json") s), s).
Proof. intros H. rewrite new_client_cases. cbv zeta. now rewrite H. Qed.

(** [exchange_code_for_token], case by case. *)
Lemma exchange_code_cases self code s :
  exchange_code_for_token g self code s
  = match file_text (credentials_path self) (files s) with
    | None =>
        (Err (FileNotFoundError
                ("Credentials file '" ++ credentials_path self ++ "' not found.")),
         s)
    | Some secrets =>
        match flow_error g secrets (redirect_uri self) with
        | Some e => (Err e, s)
        | None =>
            match fetch_token g secrets (redirect_uri self) code with
            | Err e => (Err e, logged s [GFetchToken code])
            | Ok creds =>
                build_service g self creds
                  (snd (write_file "token.json" (to_json g creds)
                          (logged s [GFetchToken code])))
            end
        end
    end.
Proof.
  unfold exchange_code_for_token, client_flow.
  unfold gbind at 1 2. unfold os_path_exists at 1.
  destruct (file_text (credentials_path self) (files s)) as [secrets|] eqn:Hs;
    cbn [negb]; [|reflexivity].
  unfold gbind at 1. unfold read_file. rewrite Hs.
  destruct (flow_error g secrets (redirect_uri self)); [reflexivity|].
  cbn [gret]. unfold gbind at 1. unfold call at 1.
  unfold gbind at 1.
  destruct (fetch_token g secrets (redirect_uri self) code) as [c|e];
    cbn [glift gret graise]; [|reflexivity].
  unfold gbind at 1. reflexivity.
Qed.

Lemma file_text_written path text_ s :
  file_text path (files (snd (write_file path text_ s))) = Some text_.
Proof. unfold write_file. cbn. now rewrite String.eqb_refl. Qed.

Lemma file_text_others path text_ s p :
  p <> path ->
  file_text p (files (snd (write_file path text_ s))) = file_text p (files s).
Proof.
  intros Hp. unfold write_file. cbn.
  destruct (String.eqb_spec path p) as [->|_]; [congruence|].
  induction (files s) as [|[q t] fs IH]; [reflexivity|].
  cbn. destruct (String.eqb_spec q path) as [->|Hq]; cbn.
  - destruct (String.eqb_spec path p) as [->|_]; [congruence | exact IH].
  - destruct (q =? p)%string; [reflexivity | exact IH].
Qed.

(** X15: someone who has never authenticated cannot start to.
    Without [token.json], [create_google_oauth_url] and
    [authenticate_google_docs] both raise while the client is being
    made ([FileNotFoundError] when the credentials file is missing too,
    "OAuth authentication required" otherwise): no authorization address
    is built, no code is exchanged, and the disk and the record of calls
    are as they were. *)
Theorem oauth_flow_needs_a_token_first :
  forall (s : State) (path : option string) (code : string),
    file_text "token.json" (files s) = None ->
    create_google_oauth_url g path s
    = (Err (not_authenticated_error (or_default path "credentials.json") s), s)
    /\ authenticate_google_docs g code path s
       = (Err (not_authenticated_error (or_default path "credentials.json") s), s).
Proof.
  intros s path code H.
  pose proof (new_client_without_token path None s H) as Hc.
  split.
  - unfold create_google_oauth_url, gbind. now rewrite Hc.
  - unfold authenticate_google_docs, gbind. now rewrite Hc.
Qed.

(** X16: [authenticate_google_docs] asks the library to exchange the
    code only after a client has been made, that is only when
    [token.json] already holds credentials that are valid or could be
    refreshed; it writes [token.json] only after the exchange, and
    without an exchange the disk is as it was. *)
Theorem code_is_exchanged_only_when_authenticated :
  forall (s s' : State) (path : option string) (code : string)
         (r : result unit),
    authenticate_google_docs g code path s = (r, s') ->
    exists evs,
      calls s' = (calls s ++ evs)%list
      /\ (In (GFetchToken code) evs ->
          exists creds, usable_credentials g s = Some creds
                        /\ build_error g creds = None)
      /\ (In (GWrite "token.json") evs -> In (GFetchToken code) evs)
      /\ (~ In (GFetchToken code) evs -> files s' = files s).
Proof.
  intros s s' path code r. unfold authenticate_google_docs. unfold gbind at 1.
  destruct (new_client g path None s) as [[client|e] s1] eqn:Hc.
  - apply new_client_made in Hc.
    destruct Hc as (creds & refreshed & Hu & Hb & -> & ->).
    unfold gbind. rewrite exchange_code_cases. cbn [credentials_path redirect_uri].
    assert (Hquiet : ~ In (GFetchToken code) (authentication_calls refreshed)
                     /\ ~ In (GWrite "token.json") (authentication_calls refreshed)).
    { destruct refreshed; cbn; split; intros H;
        repeat (destruct H as [H|H]; [discriminate|]); exact H. }
    destruct Hquiet as [Hnf Hnw].
    cbn [logged files].
    destruct (file_text (or_default path "credentials.json") (files s)) as [secrets|].
    + destruct (flow_error g secrets _) as [e|].
      * intros H; inversion H; subst. exists (authentication_calls refreshed).
        cbn [logged calls files]. repeat split; tauto.
      * destruct (fetch_token g secrets _ code) as [c|e].
        -- rewrite build_service_cases.
           destruct (build_error g c);
             intros H; inversion H; subst; unfold write_file, logged;
             cbn [snd files calls]; rewrite <- ?app_assoc;
             eexists; (split; [reflexivity|]);
             (split; [intros _; exists creds; now split|]);
             (split;
              [ intros _; apply in_or_app; right; now left
              | intros Hn; exfalso; apply Hn; apply in_or_app; right; now left ]).
        -- intros H; inversion H; subst; unfold logged;
             cbn [files calls]; rewrite <- ?app_assoc;
             eexists; (split; [reflexivity|]);
             (split; [intros _; exists creds; now split|]);
             (split;
              [ intros _; apply in_or_app; right; now left
              | intros Hn; exfalso; apply Hn; apply in_or_app; right; now left ]).
    + intros H; inversion H; subst. exists (authentication_calls refreshed).
      cbn [logged calls files]. repeat split; tauto.
  - intros H; inversion H; subst.
    apply new_client_refused in Hc. destruct Hc as [->| ->].
    + exists []. rewrite app_nil_r. repeat split; try tauto; intros [].
    + exists [GRefresh]. cbn [logged calls files].
      repeat split; try tauto; intros [?|[]]; discriminate.
Qed.

(** X17: when [authenticate_google_docs] returns, [token.json] holds
    what [to_json] gives for the credentials of the exchange and every
    other file is as it was. *)
Theorem authentication_stores_the_token :
  forall (s s' : State) (path : option string) (code : string),
    authenticate_google_docs g code path s = (Ok tt, s') ->
    exists secrets creds,
      file_text (or_default path "credentials.json") (files s) = Some secrets
      /\ fetch_token g secrets "http://localhost:7860/oauth2callback" code
         = Ok creds
      /\ build_error g creds = None
      /\ file_text "token.json" (files s') = Some (to_json g creds)
      /\ forall p, p <> "token.json" ->
                   file_text p (files s') = file_text p (files s).
Proof.
  intros s s' path code. unfold authenticate_google_docs. unfold gbind at 1.
  destruct (new_client g path None s) as [[client|e] s1] eqn:Hc; [|discriminate].
  apply new_client_made in Hc.
  destruct Hc as (creds0 & refreshed & _ & _ & -> & ->).
  unfold gbind. rewrite exchange_code_cases.
  cbn [credentials_path redirect_uri logged files or_default].
  destruct (file_text (or_default path "credentials.json") (files s))
    as [secrets|]; [|discriminate].
  destruct (flow_error g secrets _); [discriminate|].
  destruct (fetch_token g secrets _ code) as [c|e] eqn:Hf; [|discriminate].
  rewrite build_service_cases. destruct (build_error g c) eqn:Hb; [discriminate|].
  intros H; inversion H; subst. exists secrets, c.
  split; [reflexivity|]. split; [exact Hf|]. split; [exact Hb|].
  split.
  - exact (file_text_written "token.json" (to_json g c)
             (logged (logged s (authentication_calls refreshed))
                [GFetchToken code])).
  - intros p Hp.
    exact (file_text_others "token.json" (to_json g c)
             (logged (logged s (authentication_calls refreshed))
                [GFetchToken code]) p Hp).
Qed.

End ClientProperties.

(** ** Reading a document *)

Section Reader.

Import GoogleDocs.

Variable g : Google.

(** What the handler of [extract_text_from_google_docs] raises for [e]. *)
Lemma extract_text_cases url path s :
  extract_text_from_google_docs g url path s
  = let reraised e :=
      if PyStr.contains "OAuth authentication required" (str g e)
      then authentication_required else e in
    match new_client g path None s with
    | (Err e, s1) => (Err (reraised e), s1)
    | (Ok client, s1) =>
        match extract_doc_id_from_url url with
        | Some doc_id =>
            match get_document_text g client doc_id s1 with
            | (Err e, s2) => (Err (reraised e), s2)
            | r => r
            end
        | None =>
            (Err (reraised
                    (ValueError ("Could not extract document ID from: " ++ url))),
             s1)
        end
    end.
Proof.
  cbv zeta. unfold extract_text_from_google_docs, gtry, authentication_required.
  unfold gbind at 1.
  destruct (new_client g path None s) as [[client|e] s1].
  - destruct (extract_doc_id_from_url url) as [doc_id|] eqn:Hid.
    + rewrite (doc_id_truthy _ _ Hid).
      destruct (get_document_text g client doc_id s1) as [[t|e] s2];
        [reflexivity|].
      unfold graise. now destruct (PyStr.contains _ _).
    + unfold graise. now destruct (PyStr.contains _ _).
  - unfold graise. now destruct (PyStr.contains _ _).
Qed.

(** X18: called as [main.py] calls it, [extract_text_from_google_docs]
    without [token.json] raises before any address is looked at:
    "Google Docs authentication required. Please authenticate first
    using the web interface." when [credentials.json] is there, the
    [FileNotFoundError] of the client when it is not.  The disk and the
    record of calls are as they were. *)
Theorem reader_needs_a_token :
  forall (s : State) (url : string),
    file_text "token.json" (files s) = None ->
    extract_text_from_google_docs g url None s = (Err (reader_refusal s), s).
Proof.
  intros s url H. rewrite extract_text_cases. cbv zeta.
  rewrite (new_client_without_token g None None s H).
  unfold not_authenticated_error, reader_refusal. cbn [or_default].
  now destruct (file_text "credentials.json" (files s)).
Qed.

(** X19: with usable credentials, an address that has a document id
    and a document every text run of which has its text,
    [extract_text_from_google_docs] returns the text of the paragraphs
    joined by blank lines, and asks the service for that one document,
    once, after the client was made. *)
Theorem reader_returns_the_paragraphs :
  forall (s : State) (url : string) (path : option string)
         (creds : Credentials) (doc_id : string) (d : Document),
    usable_credentials g s = Some creds ->
    build_error g creds = None ->
    extract_doc_id_from_url url = Some doc_id ->
    documents_get g creds doc_id = Ok d ->
    well_formed d = true ->
    exists refreshed,
      extract_text_from_google_docs g url path s
      = (Ok (PyStr.join (PyStr.nl ++ PyStr.nl)
               (map paragraph_text (paragraphs d))),
         logged s (authentication_calls refreshed ++ [GDocumentsGet doc_id])).
Proof.
  intros s url path creds doc_id d Hu Hb Hid Hd Hwf.
  destruct (new_client_authenticated g path None s creds Hu Hb) as (refreshed & Hc).
  exists refreshed. rewrite extract_text_cases. cbv zeta. rewrite Hc, Hid.
  unfold get_document_text. cbn [service]. unfold gbind, call. rewrite Hd.
  rewrite (extract_text_from_document_ok d Hwf). cbn [glift gret].
  unfold logged. cbn [files calls]. now rewrite <- app_assoc.
Qed.

(** X20: with usable credentials, an address in which no document id
    is found raises the [ValueError] that names the address, after the
    client was made and without a request to the service, unless the
    address itself has the words "OAuth authentication required": then
    the caller is told to authenticate, though it is authenticated. *)
Theorem reader_rejects_an_address_without_id :
  forall (s : State) (url : string) (path : option string)
         (creds : Credentials),
    usable_credentials g s = Some creds ->
    build_error g creds = None ->
    extract_doc_id_from_url url = None ->
    exists refreshed,
      extract_text_from_google_docs g url path s
      = (Err (if PyStr.contains "OAuth authentication required"
                   ("Could not extract document ID from: " ++ url)
              then authentication_required
              else ValueError ("Could not extract document ID from: " ++ url)),
         logged s (authentication_calls refreshed)).
Proof.
  intros s url path creds Hu Hb Hid.
  destruct (new_client_authenticated g path None s creds Hu Hb) as (refreshed & Hc).
  exists refreshed. rewrite extract_text_cases. cbv zeta. now rewrite Hc, Hid.
Qed.

End Reader.

(** ** The pages of the authentication *)

Section Pages.

Import GoogleDocs.
Import Main.

Variable g : Google.

Lemma str_not_authenticated s :
  str g (not_authenticated_error "credentials.json" s)
  = match file_text "credentials.json" (files s) with
    | Some _ =>
        "OAuth authentication required. "
        ++ "Please use the web interface to authenticate."
    | None =>
        "Credentials file 'credentials.json' not found. "
        ++ "Please download it from Google Cloud Console."
    end.
Proof.
  unfold not_authenticated_error.
  now destruct (file_text "credentials.json" (files s)).
Qed.

(** X21: what the pages show to someone without [token.json].  The
    status is "Not authenticated"; the page that should give the link
    to Google gives the error of the client instead, and so does the
    page that takes the code: neither reaches the library, and the disk
    and the record of calls are as they were. *)
Theorem pages_without_token :
  forall (s : State) (auth_code : string),
    file_text "token.json" (files s) = None ->
    let why := str g (not_authenticated_error "credentials.json" s) in
    check_google_auth_status g s
    = (Ok "❌ Not authenticated with Google Docs", s)
    /\ get_google_auth_url g s
       = (Ok ("❌ Error creating auth URL: " ++ why), s)
    /\ handle_google_auth_callback g auth_code s
       = (Ok ("❌ Authentication failed: " ++ why), s).
Proof.
  intros s auth_code H why.
  pose proof (new_client_without_token g None None s H) as Hc.
  cbn [or_default] in Hc.
  split; [|split].
  - unfold check_google_auth_status, gtry, gbind. rewrite Hc.
    rewrite str_not_authenticated.
    now destruct (file_text "credentials.json" (files s)).
  - unfold get_google_auth_url, gtry, gbind, create_google_oauth_url, gbind.
    now rewrite Hc.
  - unfold handle_google_auth_callback, gtry, gbind, authenticate_google_docs,
      gbind.
    now rewrite Hc.
Qed.

(** X22: the callback route never raises.  An [error] parameter is
    answered with that error and nothing is done, whatever the code;
    without a code nothing is done either; and the answer is the
    success message only when [authenticate_google_docs] returned for
    the code. *)
Theorem oauth_callback_answers :
  forall (s : State) (code error : option string),
    exists (answer : response) (s' : State),
      oauth_callback g code error s = (Ok answer, s')
      /\ (forall e, error = Some e -> e <> "" ->
                    answer = error_response e /\ s' = s)
      /\ (PyStr.truthy_opt code = false ->
          exists e, answer = error_response e /\ s' = s)
      /\ (forall m, answer = success_response m ->
                    PyStr.truthy_opt error = false
                    /\ exists c, code = Some c
                                 /\ authenticate_google_docs g c None s
                                    = (Ok tt, s')).
Proof.
  intros s code error. unfold oauth_callback.
  destruct error as [[|a e]|]; cbn [PyStr.truthy_opt PyStr.truthy].
  2:{ eexists _, s. split; [reflexivity|]. split; [|split].
      - intros e' He' _. inversion He'. now split.
      - intros _. eexists. now split.
      - discriminate. }
  all: destruct code as [[|a c]|]; cbn [PyStr.truthy_opt PyStr.truthy];
    try (eexists _, s; split; [reflexivity|]; split; [|split];
         [ intros e' He'; try discriminate; inversion He'; congruence
         | intros _; eexists; now split
         | discriminate ]).
  all: unfold gtry, gbind;
    destruct (authenticate_google_docs g (String a c) None s) as [[[]|e] s'] eqn:Ha;
    eexists _, s'; (split; [reflexivity|]); (split; [|split]);
    try discriminate;
    try (intros e' He'; try discriminate; inversion He'; congruence);
    try (intros m _; split; [reflexivity|]; eexists; now split).
Qed.

(** X23: authenticating and then asking for the status.  After
    [authenticate_google_docs] has returned, if the library reads back
    from [token.json] the credentials it wrote there and they are
    valid, [check_google_auth_status] answers "Authenticated". *)
Theorem status_after_authentication :
  forall (s s' : State) (path : option string) (code : string),
    authenticate_google_docs g code path s = (Ok tt, s') ->
    (forall secrets creds,
        fetch_token g secrets "http://localhost:7860/oauth2callback" code
        = Ok creds ->
        from_authorized_user_file g (to_json g creds) = Ok creds
        /\ valid creds = true) ->
    fst (check_google_auth_status g s')
    = Ok "✅ Authenticated with Google Docs".
Proof.
  intros s s' path code Ha Hback.
  unfold authenticate_google_docs in Ha. unfold gbind at 1 in Ha.
  destruct (new_client g path None s) as [[client|e] s1] eqn:Hc; [|discriminate].
  apply new_client_made in Hc.
  destruct Hc as (creds0 & refreshed & _ & _ & -> & ->).
  unfold gbind in Ha. rewrite exchange_code_cases in Ha.
  cbn [credentials_path redirect_uri logged files or_default] in Ha.
  destruct (file_text (or_default path "credentials.json") (files s))
    as [secrets|]; [|discriminate].
  destruct (flow_error g secrets _); [discriminate|].
  destruct (fetch_token g secrets _ code) as [c|e] eqn:Hf; [|discriminate].
  rewrite build_service_cases in Ha.
  destruct (build_error g c) eqn:Hb; [discriminate|].
  destruct (Hback secrets c Hf) as [Hread Hvalid].
  assert (Hu : usable_credentials g s' = Some c).
  { inversion Ha; subst s'. unfold usable_credentials.
    match goal with
    | |- context [file_text "token.json" ?fs] =>
        replace (file_text "token.json" fs) with (Some (to_json g c))
          by (symmetry;
              exact (file_text_written "token.json" (to_json g c)
                       (logged (logged s (authentication_calls refreshed))
                          [GFetchToken code])))
    end.
    now rewrite Hread, Hvalid. }
  destruct (new_client_authenticated g None None s' c Hu Hb) as (r & Hn).
  unfold check_google_auth_status, gtry, gbind. now rewrite Hn.
Qed.

End Pages.

(** ** A Google document as the input of [generate_audio] *)

Section GoogleDocument.

Import GoogleDocs.
Import Main.

Variable env : Env.
Variable g : Google.
Variable s : State.

Lemma generate_audio_document_failure fuel url key w e :
  PyStr.truthy_opt (env_OPENAI_API_KEY env) || PyStr.truthy_opt key = true ->
  is_google_docs_url url = true ->
  (fst (extract_text_from_google_docs g url None s) = Err e
   \/ exists t, fst (extract_text_from_google_docs g url None s) = Ok t
                /\ whitespace_only t = true
                /\ e = GrError "No text content found in the Google Docs document") ->
  exists evs,
    generate_audio (with_google_docs env g s) fuel url key w
    = (Raise (GrError ("Failed to process Google Docs: " ++ exn_str env e)),
       extend w evs)
    /\ count_llm evs = 0
    /\ count_tts evs = 0.
Proof.
  intros Hkey Hurl Hdoc.
  destruct (read_document_failure (with_google_docs env g s) url w e)
    as (evs & Hrun & Hl & Ht).
  { unfold document_text, no_text_error. rewrite Hurl.
    cbn [google_docs_text with_google_docs].
    destruct Hdoc as [H|(t & H & Hws & ->)].
    - left. now rewrite H.
    - right. exists t. now repeat split. }
  exists evs. unfold generate_audio.
  change (env_OPENAI_API_KEY (with_google_docs env g s))
    with (env_OPENAI_API_KEY env).
  rewrite truthy_or, Hkey. cbn [negb].
  unfold produce, bind. rewrite Hrun.
  unfold failure_prefix. rewrite Hurl. now repeat split.
Qed.

(** X24: a Google Docs address given to [generate_audio] by someone
    without [token.json].  The call raises "Failed to process Google
    Docs: " followed by the text of the refusal of the reader; the
    model and the speech service are not called. *)
Theorem google_document_needs_a_token :
  forall (fuel : nat) (url : string) (key : option string) (w : World),
    PyStr.truthy_opt (env_OPENAI_API_KEY env) || PyStr.truthy_opt key = true ->
    is_google_docs_url url = true ->
    file_text "token.json" (files s) = None ->
    exists evs,
      generate_audio (with_google_docs env g s) fuel url key w
      = (Raise (GrError ("Failed to process Google Docs: "
                         ++ exn_str env (reader_refusal s))),
         extend w evs)
      /\ count_llm evs = 0
      /\ count_tts evs = 0.
Proof.
  intros fuel url key w Hkey Hurl Htok.
  apply generate_audio_document_failure; [exact Hkey | exact Hurl |].
  left. rewrite extract_text_cases. cbv zeta.
  rewrite (new_client_without_token g None None s Htok).
  unfold not_authenticated_error, reader_refusal. cbn [or_default].
  now destruct (file_text "credentials.json" (files s)).
Qed.

(** X25: a Google document without text.  With usable credentials, an
    address that has a document id, and a document whose text runs hold
    nothing but whitespace, [generate_audio] raises "Failed to process
    Google Docs: " followed by the text of the "No text content found"
    error; the model and the speech service are not called. *)
Theorem textless_google_document_is_refused :
  forall (fuel : nat) (url : string) (key : option string) (w : World)
         (creds : Credentials) (doc_id : string) (d : Document),
    PyStr.truthy_opt (env_OPENAI_API_KEY env) || PyStr.truthy_opt key = true ->
    is_google_docs_url url = true ->
    usable_credentials g s = Some creds ->
    build_error g creds = None ->
    extract_doc_id_from_url url = Some doc_id ->
    documents_get g creds doc_id = Ok d ->
    well_formed d = true ->
    textless d = true ->
    exists evs,
      generate_audio (with_google_docs env g s) fuel url key w
      = (Raise (GrError
                  ("Failed to process Google Docs: "
                   ++ exn_str env
                        (GrError
                           "No text content found in the Google Docs document"))),
         extend w evs)
      /\ count_llm evs = 0
      /\ count_tts evs = 0.
Proof.
  intros fuel url key w creds doc_id d Hkey Hurl Hu Hb Hid Hd Hwf Hws.
  apply generate_audio_document_failure; [exact Hkey | exact Hurl |].
  right. destruct (textless_document d Hwf Hws) as (t & Ht & Hblank).
  exists t. split; [|now split].
  destruct (new_client_authenticated g None None s creds Hu Hb) as (r & Hc).
  rewrite extract_text_cases. cbv zeta. rewrite Hc, Hid.
  unfold get_document_text. cbn [service]. unfold gbind, call. rewrite Hd, Ht.
  reflexivity.
Qed.

End GoogleDocument.

(** ** The properties above, run on the scenarios *)

Section Runs.

Import GoogleDocs.
Import Main.
Import DocsScenario.

(** A path that cannot be opened. *)
Lemma document_failure_is_wrapped_witness :
  exists evs,
    generate_audio unreadable 1 "tides.pdf" None nothing
    = (Raise (GrError ("Failed to process PDF: " ++ "error")), extend nothing evs)
    /\ count_llm evs = 0
    /\ count_tts evs = 0.
Proof.
  apply (document_failure_is_wrapped unreadable 1 "tides.pdf" None nothing
           (OtherError "FileNotFoundError" "[Errno 2] No such file or directory")).
  - reflexivity.
  - left. reflexivity.
Defined.



(** The old notes are still there after a call that swept [a.mp3]. *)
Lemma sweep_spares_other_files_witness :
  find_entry "notes.txt"
    (tmpdir (snd (generate_audio healthy 1 "tides.pdf" None cluttered)))
  = Some (mkEntry "notes.txt" true 0 []).
Proof.
  apply (sweep_spares_other_files healthy 1 "tides.pdf" None cluttered _ _
           "notes.txt" (mkEntry "notes.txt" true 0 [])
           (surjective_pairing _)).
  - reflexivity.
  - left. reflexivity.
Defined.

(** Notes typed into the Google Docs field, with a file uploaded. *)
Lemma stray_url_shadows_upload_witness :
  generate_audio_from_inputs unreadable 1 (Some upload)
    (Some " notes on tides ") None nothing
  = (Raise (GrError ("Failed to process PDF: " ++ "error")),
     extend nothing [EvExtract "notes on tides";
                     EvLog LvError ("Error processing PDF: " ++ "error")]).
Proof.
  apply (stray_url_shadows_upload unreadable 1 (Some upload) " notes on tides "
           None nothing
           (OtherError "FileNotFoundError" "[Errno 2] No such file or directory"));
    reflexivity.
Defined.

Lemma doc_id_of_document_address_witness :
  extract_doc_id_from_url
    "https://docs.google.com/document/d/1AbC-d_9/edit?usp=sharing"
  = Some "1AbC-d_9"
  /\ extract_doc_id_from_url
       "http://docs.google.com/document/d/1AbC-d_9/edit?usp=sharing"
     = Some "1AbC-d_9".
Proof.
  apply (doc_id_of_document_address "1AbC-d_9" "/edit?usp=sharing").
  - reflexivity.
  - discriminate.
  - reflexivity.
Defined.

Lemma bare_id_is_its_own_id_witness :
  extract_doc_id_from_url "1AbC-d_9" = Some "1AbC-d_9"
  /\ extract_doc_id_from_url ("1AbC-d_9" ++ PyStr.nl)
     = Some ("1AbC-d_9" ++ PyStr.nl).
Proof.
  apply (bare_id_is_its_own_id "1AbC-d_9").
  - reflexivity.
  - discriminate.
Defined.

Lemma doc_id_is_well_formed_witness :
  "1AbC-d_9" <> ""
  /\ (is_id "1AbC-d_9" = true
      \/ "1AbC-d_9" = "https://drive.google.com/open?id=1AbC-d_9").
Proof.
  apply (doc_id_is_well_formed "https://drive.google.com/open?id=1AbC-d_9"
           "1AbC-d_9").
  reflexivity.
Defined.

(** The newcomer asks for the link, then brings a code. *)
Lemma oauth_flow_needs_a_token_first_witness :
  create_google_oauth_url google None newcomer
  = (Err (Exception ("OAuth authentication required. "
                     ++ "Please use the web interface to authenticate.")),
     newcomer)
  /\ authenticate_google_docs google "4/0AX4" None newcomer
     = (Err (Exception ("OAuth authentication required. "
                        ++ "Please use the web interface to authenticate.")),
        newcomer).
Proof.
  apply (oauth_flow_needs_a_token_first google newcomer None "4/0AX4").
  reflexivity.
Defined.

Lemma code_is_exchanged_only_when_authenticated_witness :
  exists evs,
    calls (snd (authenticate_google_docs google "4/0AX4" None signed_in))
    = (calls signed_in ++ evs)%list
    /\ (In (GFetchToken "4/0AX4") evs ->
        exists creds, usable_credentials google signed_in = Some creds
                      /\ build_error google creds = None)
    /\ (In (GWrite "token.json") evs -> In (GFetchToken "4/0AX4") evs)
    /\ (~ In (GFetchToken "4/0AX4") evs ->
        files (snd (authenticate_google_docs google "4/0AX4" None signed_in))
        = files signed_in).
Proof.
  apply (code_is_exchanged_only_when_authenticated google signed_in _ None
           "4/0AX4" _ (surjective_pairing _)).
Defined.

Lemma authentication_stores_the_token_witness :
  exists secrets creds,
    file_text "credentials.json" (files signed_in) = Some secrets
    /\ fetch_token google secrets "http://localhost:7860/oauth2callback" "4/0AX4"
       = Ok creds
    /\ build_error google creds = None
    /\ file_text "token.json"
         (files (snd (authenticate_google_docs google "4/0AX4" None signed_in)))
       = Some (to_json google creds)
    /\ forall p, p <> "token.json" ->
                 file_text p
                   (files (snd (authenticate_google_docs google "4/0AX4" None
                                  signed_in)))
                 = file_text p (files signed_in).
Proof.
  apply (authentication_stores_the_token google signed_in _ None "4/0AX4").
  vm_compute. reflexivity.
Defined.

Lemma reader_needs_a_token_witness :
  extract_text_from_google_docs google
    "https://docs.google.com/document/d/1AbC-d_9/edit" None newcomer
  = (Err authentication_required, newcomer).
Proof.
  apply (reader_needs_a_token google newcomer
           "https://docs.google.com/document/d/1AbC-d_9/edit").
  reflexivity.
Defined.

Lemma reader_returns_the_paragraphs_witness :
  exists refreshed,
    extract_text_from_google_docs google
      "https://docs.google.com/document/d/1AbC-d_9/edit" None signed_in
    = (Ok ("Tides and the moon" ++ PyStr.nl ++ PyStr.nl ++ PyStr.nl
           ++ "Spring and neap." ++ PyStr.nl),
       logged signed_in
         (authentication_calls refreshed ++ [GDocumentsGet "1AbC-d_9"])).
Proof.
  apply (reader_returns_the_paragraphs google signed_in
           "https://docs.google.com/document/d/1AbC-d_9/edit" None
           account "1AbC-d_9" tides);
    reflexivity.
Defined.

Lemma reader_rejects_an_address_without_id_witness :
  exists refreshed,
    extract_text_from_google_docs google
      "https://docs.google.com/spreadsheets/d/1AbC-d_9" None signed_in
    = (Err (ValueError
              ("Could not extract document ID from: "
               ++ "https://docs.google.com/spreadsheets/d/1AbC-d_9")),
       logged signed_in (authentication_calls refreshed)).
Proof.
  apply (reader_rejects_an_address_without_id google signed_in
           "https://docs.google.com/spreadsheets/d/1AbC-d_9" None account);
    reflexivity.
Defined.

Lemma pages_without_token_witness :
  check_google_auth_status google newcomer
  = (Ok "❌ Not authenticated with Google Docs", newcomer)
  /\ get_google_auth_url google newcomer
     = (Ok ("❌ Error creating auth URL: "
            ++ "OAuth authentication required. "
            ++ "Please use the web interface to authenticate."),
        newcomer)
  /\ handle_google_auth_callback google "4/0AX4" newcomer
     = (Ok ("❌ Authentication failed: "
            ++ "OAuth authentication required. "
            ++ "Please use the web interface to authenticate."),
        newcomer).
Proof.
  apply (pages_without_token google newcomer "4/0AX4").
  reflexivity.
Defined.

Lemma status_after_authentication_witness :
  fst (check_google_auth_status google
         (snd (authenticate_google_docs google "4/0AX4" None signed_in)))
  = Ok "✅ Authenticated with Google Docs".
Proof.
  apply (status_after_authentication google signed_in _ None "4/0AX4").
  - vm_compute. reflexivity.
  - intros secrets creds H. cbn in H. inversion H. split; reflexivity.
Defined.

Lemma google_document_needs_a_token_witness :
  exists evs,
    generate_audio (with_google_docs healthy google newcomer) 1
      "https://docs.google.com/document/d/1AbC-d_9/edit" None nothing
    = (Raise (GrError ("Failed to process Google Docs: " ++ "error")),
       extend nothing evs)
    /\ count_llm evs = 0
    /\ count_tts evs = 0.
Proof.
  apply (google_document_needs_a_token healthy google newcomer 1
           "https://docs.google.com/document/d/1AbC-d_9/edit" None nothing);
    reflexivity.
Defined.

Lemma textless_google_document_is_refused_witness :
  exists evs,
    generate_audio (with_google_docs healthy google signed_in) 1
      "https://docs.google.com/document/d/0Empty/edit" None nothing
    = (Raise (GrError ("Failed to process Google Docs: " ++ "error")),
       extend nothing evs)
    /\ count_llm evs = 0
    /\ count_tts evs = 0.
Proof.
  apply (textless_google_document_is_refused healthy google signed_in 1
           "https://docs.google.com/document/d/0Empty/edit" None nothing
           account "0Empty" empty_lines);
    reflexivity.
Defined.

End Runs.
